(** * Financial-Market-Predictor: indicator pipeline and confluence engines

    A shallow embedding of the TypeScript services
      - [services/technicalAnalysis.ts]        (class TechnicalAnalysis),
      - [services/advancedTechnicalAnalysis.ts] (class AdvancedTechnicalAnalysis),
      - [services/tradingStrategy.ts]           (class TradingStrategy),
      - [services/enhancedTradingStrategy.ts]   (class EnhancedTradingStrategy),
    followed by the properties established about them.

    Modelling conventions.
      - A JavaScript [number] is an exact rational extended with [NaN] and
        the two infinities; rounding, overflow and the sign of zero are
        not represented (every zero behaves as [+0]).  Arithmetic keeps
        finite results in lowest terms.  What is stated of computed values
        is therefore what binary64 rounding preserves: comparisons and
        orderings between a result and its operands, lengths, timestamps,
        integer tallies, and values computed without rounding error; a
        property that needs the sums to stay inside the double range has
        that range as a hypothesis.
      - [Binary64] is the engine's own arithmetic (IEEE 754 doubles, round
        to nearest even), in which [calculateRSI] is embedded a second time
        to evaluate it where overflow decides the result.
      - A candle carries finite numbers, so its fields are rationals.
      - Arrays are lists; [a[i]] is [nth_error]; reading a property of an
        element that does not exist raises [TypeError], while [a[i]?.value]
        yields [None] for [undefined].
      - [for (let i = a; i < b; i++)] loops are folds over the index range;
        [result.push(x)] appends at the end.  Indices are natural numbers:
        a window bound [i - period + 1], which the loops only evaluate for
        [i >= period - 1], is written [i + 1 - period], and
        [Math.max(0, i - k)] is the truncated difference [i - k].
      - Indicator periods are positive integer literals at every call site
        (9, 12, 14, 20, 26, 50); they have type [positive].
      - Integer-valued tallies (bullish, bearish, confluenceScore) are [Z].
      - [Number.prototype.toFixed] and [Math.sqrt] are library functions
        the development is parametric in. *)

From Stdlib Require Import String Bool PeanoNat ZArith QArith Qabs Qminmax Lia Lqa List Sorted.
From Stdlib Require SpecFloat.
Import ListNotations.

Set Implicit Arguments.
Close Scope Q_scope.
Open Scope nat_scope.

(** ** JavaScript values *)

Module JS.

(** Completion of a call: a value, or an uncaught [TypeError]. *)
Inductive result (A : Type) : Type :=
| Ok (a : A)
| TypeError.
Arguments Ok {A} a.
Arguments TypeError {A}.

Definition bind {A B : Type} (r : result A) (k : A -> result B) : result B :=
  match r with
  | Ok a => k a
  | TypeError => TypeError
  end.

(** [a[i].f]: the element must exist. *)
Definition get {A : Type} (l : list A) (i : nat) : result A :=
  match nth_error l i with
  | Some a => Ok a
  | None => TypeError
  end.

(** [a.slice(lo, hi)] for [0 <= lo]. *)
Definition slice {A : Type} (l : list A) (lo hi : nat) : list A :=
  firstn (hi - lo) (skipn lo l).

(** [a.slice(-k)]. *)
Definition slice_last {A : Type} (k : nat) (l : list A) : list A :=
  skipn (length l - k) l.

(** [a[a.length - 1]] and [a[a.length - 2]] as possibly-undefined values. *)
Definition last_elem {A : Type} (l : list A) : option A :=
  nth_error l (length l - 1).

Definition from_end {A : Type} (k : nat) (l : list A) : option A :=
  if (length l <? k)%nat then None else nth_error l (length l - k).

(** [for (let i = a; i < b; i++) body], threading the mutated locals. *)
Fixpoint iter_from {S : Type} (n i : nat) (body : nat -> S -> result S) (s : S)
  : result S :=
  match n with
  | O => Ok s
  | Datatypes.S n' => bind (body i s) (iter_from n' (Datatypes.S i) body)
  end.

Definition for_range {S : Type} (a b : nat) (body : nat -> S -> result S) (s : S)
  : result S :=
  iter_from (b - a) a body s.

(** Numbers. *)
Inductive number : Type :=
| Fin (q : Q)
| PInf
| NInf
| NaN.

Definition Qltb (x y : Q) : bool :=
  match (x ?= y)%Q with Lt => true | _ => false end.

Definition Qis0 (x : Q) : bool := Qeq_bool x 0.

Definition of_nat (n : nat) : number := Fin (inject_Z (Z.of_nat n)).
Definition of_pos (p : positive) : number := Fin (inject_Z (Zpos p)).
Definition of_Z (z : Z) : number := Fin (inject_Z z).

(** A finite result, reduced to lowest terms. *)
Definition fin (q : Q) : number := Fin (Qred q).

Definition neg (a : number) : number :=
  match a with
  | Fin x => Fin (- x)
  | PInf => NInf
  | NInf => PInf
  | NaN => NaN
  end.

Definition add (a b : number) : number :=
  match a, b with
  | NaN, _ | _, NaN => NaN
  | Fin x, Fin y => fin (x + y)
  | PInf, NInf | NInf, PInf => NaN
  | PInf, _ | _, PInf => PInf
  | NInf, _ | _, NInf => NInf
  end.

Definition sub (a b : number) : number := add a (neg b).

(** Sign of a number: [Some true] for positive, [Some false] for negative,
    [None] for zero; not used on [NaN]. *)
Definition sign (a : number) : option bool :=
  match a with
  | Fin x => if Qis0 x then None else Some (Qltb 0 x)
  | PInf => Some true
  | NInf => Some false
  | NaN => None
  end.

Definition inf_of (positive_sign : bool) : number :=
  if positive_sign then PInf else NInf.

Definition mul (a b : number) : number :=
  match a, b with
  | NaN, _ | _, NaN => NaN
  | Fin x, Fin y => fin (x * y)
  | _, _ =>
      match sign a, sign b with
      | Some sa, Some sb => inf_of (Bool.eqb sa sb)
      | _, _ => NaN
      end
  end.

Definition div (a b : number) : number :=
  match a, b with
  | NaN, _ | _, NaN => NaN
  | Fin x, Fin y =>
      if Qis0 y then
        match sign a with
        | Some sa => inf_of sa
        | None => NaN
        end
      else fin (x / y)
  | Fin _, _ => Fin 0
  | _, Fin y =>
      match sign a with
      | Some sa => inf_of (Bool.eqb sa (negb (Qltb y 0)))
      | None => NaN
      end
  | _, _ => NaN
  end.

Definition abs (a : number) : number :=
  match a with
  | Fin x => Fin (Qabs x)
  | PInf | NInf => PInf
  | NaN => NaN
  end.

(** Comparisons; any comparison with [NaN] is false. *)
Definition ltb (a b : number) : bool :=
  match a, b with
  | NaN, _ | _, NaN => false
  | Fin x, Fin y => Qltb x y
  | NInf, NInf => false
  | NInf, _ => true
  | _, PInf => match a with PInf => false | _ => true end
  | _, _ => false
  end.

Definition eqb (a b : number) : bool :=
  match a, b with
  | Fin x, Fin y => Qeq_bool x y
  | PInf, PInf | NInf, NInf => true
  | _, _ => false
  end.

Definition leb (a b : number) : bool := ltb a b || eqb a b.
Definition gtb (a b : number) : bool := ltb b a.
Definition geb (a b : number) : bool := leb b a.

(** [Math.max] and [Math.min]. *)
Definition max (a b : number) : number :=
  match a, b with
  | NaN, _ | _, NaN => NaN
  | _, _ => if ltb a b then b else a
  end.

Definition min (a b : number) : number :=
  match a, b with
  | NaN, _ | _, NaN => NaN
  | _, _ => if ltb b a then b else a
  end.

(** Truthiness of a number: [0] and [NaN] are falsy. *)
Definition truthy (a : number) : bool :=
  match a with
  | Fin x => negb (Qis0 x)
  | PInf | NInf => true
  | NaN => false
  end.

(** Truthiness of a possibly-undefined number. *)
Definition truthy_opt (a : option number) : bool :=
  match a with
  | Some x => truthy x
  | None => false
  end.

(** [a || d] on numbers. *)
Definition or_else (a : option number) (d : number) : number :=
  match a with
  | Some x => if truthy x then x else d
  | None => d
  end.

(** [a.reduce((acc, x) => acc + x, 0)]. *)
Definition sum (l : list number) : number := fold_left add l (Fin 0).

Definition isNaN (a : number) : bool :=
  match a with NaN => true | _ => false end.

(** An [undefined] operand of an arithmetic operator converts to [NaN]. *)
Definition to_num (a : option number) : number :=
  match a with Some x => x | None => NaN end.

(** [Math.pow(x, 2)]. *)
Definition pow2 (a : number) : number := mul a a.

(** [a.sort(cmp)] for a comparator returning a number: a stable sort that
    places [x] before [y] when [cmp(x, y) < 0].  (For a comparator that is
    not a consistent ordering the engine's order is implementation-defined;
    the comparators of this code subtract finite prices.) *)
Fixpoint insertBy {A : Type} (cmp : A -> A -> number) (x : A) (l : list A) : list A :=
  match l with
  | nil => x :: nil
  | y :: l' => if ltb (cmp x y) (Fin 0) then x :: y :: l' else y :: insertBy cmp x l'
  end.

Definition sortBy {A : Type} (cmp : A -> A -> number) (l : list A) : list A :=
  fold_left (fun acc x => insertBy cmp x acc) l nil.

End JS.

Import JS.

Notation "x <- c ;; k" := (JS.bind c (fun x => k))
  (at level 61, c at next level, right associativity).

Declare Scope js_scope.
Delimit Scope js_scope with js.
Infix "+" := JS.add : js_scope.
Infix "-" := JS.sub : js_scope.
Infix "*" := JS.mul : js_scope.
Infix "/" := JS.div : js_scope.
Infix "<?" := JS.ltb : js_scope.
Infix "<=?" := JS.leb : js_scope.
Infix ">?" := JS.gtb : js_scope.
Infix ">=?" := JS.geb : js_scope.

(** ** Data model ([services/forexService.ts]) *)

Record CandlestickData : Type := mkCandle {
  timestamp : string;
  open : Q;
  high : Q;
  low : Q;
  close : Q;
  volume : Q
}.

Record TechnicalIndicator : Type := mkPoint {
  ti_timestamp : string;
  value : number
}.

(** [arr[arr.length - 1]?.value]. *)
Definition last_value (l : list TechnicalIndicator) : option number :=
  option_map value (last_elem l).

Definition prev_value (l : list TechnicalIndicator) : option number :=
  option_map value (from_end 2 l).

(** ** [class TechnicalAnalysis] *)

Module TechnicalAnalysis.

Definition closes (l : list CandlestickData) : list number :=
  map (fun c => Fin (close c)) l.

Definition calculateSMA (data : list CandlestickData) (period : positive)
  : result (list TechnicalIndicator) :=
  let p := Pos.to_nat period in
  for_range (p - 1) (length data)
    (fun i res =>
       let sum := JS.sum (closes (slice data (i + 1 - p) (i + 1))) in
       c <- get data i ;;
       Ok (res ++ [mkPoint (timestamp c) (sum / of_pos period)%js]))
    [].

Definition calculateEMA (data : list CandlestickData) (period : positive)
  : result (list TechnicalIndicator) :=
  let p := Pos.to_nat period in
  let multiplier := (of_nat 2 / (of_pos period + of_nat 1))%js in
  if (length data =? 0)%nat then Ok []
  else
    let ema0 := (JS.sum (closes (slice data 0 p)) / of_pos period)%js in
    c <- get data (p - 1) ;;
    r <- for_range p (length data)
           (fun i st =>
              let '(ema, res) := st in
              ci <- get data i ;;
              let ema' := ((Fin (close ci) - ema) * multiplier + ema)%js in
              Ok (ema', res ++ [mkPoint (timestamp ci) ema']))
           (ema0, [mkPoint (timestamp c) ema0]) ;;
    Ok (snd r).

(** [change > 0 ? change : 0] and [change < 0 ? Math.abs(change) : 0]. *)
Definition gainOf (change : number) : number :=
  if (change >? Fin 0)%js then change else Fin 0.

Definition lossOf (change : number) : number :=
  if (change <? Fin 0)%js then JS.abs change else Fin 0.

(** First loop of [calculateRSI]: the [gains] and [losses] arrays. *)
Definition gainsAndLosses (data : list CandlestickData)
  : result (list number * list number) :=
  for_range 1 (length data)
    (fun i st =>
       let '(gains, losses) := st in
       ci <- get data i ;;
       cp <- get data (i - 1) ;;
       let change := (Fin (close ci) - Fin (close cp))%js in
       Ok (gains ++ [gainOf change], losses ++ [lossOf change]))
    ([], []).

(** [xs.slice(i - period + 1, i + 1).reduce((a, b) => a + b, 0) / period]. *)
Definition windowAvg (xs : list number) (period : positive) (i : nat) : number :=
  (JS.sum (slice xs (i + 1 - Pos.to_nat period) (i + 1)) / of_pos period)%js.

(** The value pushed by one iteration of the second loop. *)
Definition rsiAt (gains losses : list number) (period : positive) (i : nat) : number :=
  let avgGain := windowAvg gains period i in
  let avgLoss := windowAvg losses period i in
  let rs := if JS.eqb avgLoss (Fin 0) then of_nat 100 else (avgGain / avgLoss)%js in
  (of_nat 100 - of_nat 100 / (of_nat 1 + rs))%js.

Definition calculateRSI (data : list CandlestickData) (period : positive)
  : result (list TechnicalIndicator) :=
  let p := Pos.to_nat period in
  gl <- gainsAndLosses data ;;
  let '(gains, losses) := gl in
  for_range (p - 1) (length gains)
    (fun i res =>
       let rsi := rsiAt gains losses period i in
       c <- get data (i + 1) ;;
       Ok (res ++ [mkPoint (timestamp c) rsi]))
    [].

Record MACDResult : Type := mkMACD {
  macd : list TechnicalIndicator;
  signal : list TechnicalIndicator;
  histogram : list TechnicalIndicator
}.

Definition value_at (l : list TechnicalIndicator) (i : nat) : option number :=
  option_map value (nth_error l i).

(** The three loops of [calculateMACD]. *)
Definition macdLineOf (ema12 ema26 : list TechnicalIndicator)
  : result (list TechnicalIndicator) :=
  let startIndex := Nat.max 0 (26 - 12) in
  for_range startIndex (Nat.min (length ema12) (length ema26))
    (fun i line =>
       let macdValue :=
         (to_num (value_at ema12 (i + 12 - 1)) - to_num (value_at ema26 i))%js in
       if negb (isNaN macdValue) then
         e <- get ema26 i ;;
         Ok (line ++ [mkPoint (ti_timestamp e) macdValue])
       else Ok line)
    [].

Definition signalLineOf (macdLine : list TechnicalIndicator)
  : result (list TechnicalIndicator) :=
  if (9 <=? length macdLine)%nat then
    let multiplier := (of_nat 2 / of_nat 10)%js in
    let signal0 := (JS.sum (map value (slice macdLine 0 9)) / of_nat 9)%js in
    m8 <- get macdLine 8 ;;
    r <- for_range 9 (length macdLine)
           (fun i st =>
              let '(sig, line) := st in
              mi <- get macdLine i ;;
              let sig' := ((value mi - sig) * multiplier + sig)%js in
              Ok (sig', line ++ [mkPoint (ti_timestamp mi) sig']))
           (signal0, [mkPoint (ti_timestamp m8) signal0]) ;;
    Ok (snd r)
  else Ok [].

Definition histogramOf (macdLine signalLine : list TechnicalIndicator)
  : result (list TechnicalIndicator) :=
  for_range 0 (Nat.min (length macdLine) (length signalLine))
    (fun i h =>
       let off := length macdLine - length signalLine in
       m <- get macdLine (i + off) ;;
       sg <- get signalLine i ;;
       Ok (h ++ [mkPoint (ti_timestamp m) (value m - value sg)%js]))
    [].

Definition calculateMACD (data : list CandlestickData) : result MACDResult :=
  ema12 <- calculateEMA data 12 ;;
  ema26 <- calculateEMA data 26 ;;
  macdLine <- macdLineOf ema12 ema26 ;;
  signalLine <- signalLineOf macdLine ;;
  hist <- histogramOf macdLine signalLine ;;
  Ok (mkMACD macdLine signalLine hist).

Record BollingerBands : Type := mkBB {
  upper : list TechnicalIndicator;
  middle : list TechnicalIndicator;
  lower : list TechnicalIndicator
}.

Section Bollinger.

(** [Math.sqrt], the one library function of the pipeline that leaves
    the rationals; the development is parametric in it. *)
Variable sqrt : number -> number.

Definition calculateBollingerBands (data : list CandlestickData)
    (period : positive) (stdDev : number) : result BollingerBands :=
  let p := Pos.to_nat period in
  sma <- calculateSMA data period ;;
  for_range 0 (length sma)
    (fun i bb =>
       let dataIndex := i + p - 1 in
       let prices := closes (slice data (dataIndex + 1 - p) (dataIndex + 1)) in
       s <- get sma i ;;
       let mean := value s in
       let variance :=
         (fold_left (fun acc price => acc + pow2 (price - mean)) prices (Fin 0)
          / of_pos period)%js in
       let standardDeviation := sqrt variance in
       Ok (mkBB (upper bb ++ [mkPoint (ti_timestamp s) (mean + stdDev * standardDeviation)%js])
                (middle bb ++ [s])
                (lower bb ++ [mkPoint (ti_timestamp s) (mean - stdDev * standardDeviation)%js])))
    (mkBB [] [] []).

Record AnalysisResult : Type := mkAnalysis {
  sma20 : list TechnicalIndicator;
  sma50 : list TechnicalIndicator;
  ema12 : list TechnicalIndicator;
  ema26 : list TechnicalIndicator;
  rsi : list TechnicalIndicator;
  macd_ : MACDResult;
  bollingerBands : BollingerBands;
  stochastic_k : list TechnicalIndicator;
  stochastic_d : list TechnicalIndicator
}.

Definition analyzeAll (data : list CandlestickData) : result AnalysisResult :=
  s20 <- calculateSMA data 20 ;;
  s50 <- calculateSMA data 50 ;;
  e12 <- calculateEMA data 12 ;;
  e26 <- calculateEMA data 26 ;;
  r <- calculateRSI data 14 ;;
  m <- calculateMACD data ;;
  bb <- calculateBollingerBands data 20 (of_nat 2) ;;
  Ok (mkAnalysis s20 s50 e12 e26 r m bb [] []).

End Bollinger.

End TechnicalAnalysis.

(** ** [class AdvancedTechnicalAnalysis] *)

Module AdvancedTechnicalAnalysis.

Inductive MarketRegime : Type := trending | ranging.
Inductive TrendStrength : Type := weak | moderate | strong.
Inductive Level : Type := level_low | level_medium | level_high.

Record PivotPoints : Type := mkPivots {
  pivot : number;
  resistance1 : number;
  resistance2 : number;
  support1 : number;
  support2 : number
}.

Record AdvancedAnalysisResult : Type := mkAdvanced {
  adx : list TechnicalIndicator;
  atr : list TechnicalIndicator;
  pivotPoints : PivotPoints;
  marketRegime : MarketRegime;
  trendStrength : TrendStrength;
  volatility : Level;
  sessionFilter : bool
}.

(** [Math.max(tr1, tr2, tr3)] of one candle against the previous close. *)
Definition trueRange (c : CandlestickData) (prevClose : Q) : number :=
  let tr1 := (Fin (high c) - Fin (low c))%js in
  let tr2 := JS.abs (Fin (high c) - Fin prevClose)%js in
  let tr3 := JS.abs (Fin (low c) - Fin prevClose)%js in
  JS.max (JS.max tr1 tr2) tr3.

(** First loop of [calculateADX]: true ranges and directional movements. *)
Definition directionalMovements (data : list CandlestickData)
  : result (list number * list number * list number) :=
  for_range 1 (length data)
    (fun i st =>
       let '(trueRanges, plusDMs, minusDMs) := st in
       ci <- get data i ;;
       cp <- get data (i - 1) ;;
       let up := (Fin (high ci) - Fin (high cp))%js in
       let down := (Fin (low cp) - Fin (low ci))%js in
       let plusDM := if (up >? down)%js then JS.max up (Fin 0) else Fin 0 in
       let minusDM := if (down >? up)%js then JS.max down (Fin 0) else Fin 0 in
       Ok (trueRanges ++ [trueRange ci (close cp)],
           plusDMs ++ [plusDM],
           minusDMs ++ [minusDM]))
    ([], [], []).

Definition calculateADX (data : list CandlestickData) (period : positive)
  : result (list TechnicalIndicator) :=
  let p := Pos.to_nat period in
  dm <- directionalMovements data ;;
  let '(trueRanges, plusDMs, minusDMs) := dm in
  for_range (p - 1) (length trueRanges)
    (fun i res =>
       let avgTR := (JS.sum (slice trueRanges (i + 1 - p) (i + 1)) / of_pos period)%js in
       let avgPlusDM := (JS.sum (slice plusDMs (i + 1 - p) (i + 1)) / of_pos period)%js in
       let avgMinusDM := (JS.sum (slice minusDMs (i + 1 - p) (i + 1)) / of_pos period)%js in
       let plusDI := (avgPlusDM / avgTR * of_nat 100)%js in
       let minusDI := (avgMinusDM / avgTR * of_nat 100)%js in
       let dx := (JS.abs (plusDI - minusDI) / (plusDI + minusDI) * of_nat 100)%js in
       c <- get data (i + 1) ;;
       if (p * 2 - 2 <=? i) then
         let startIdx := length res + 1 - p in
         let adxValues := map value (skipn startIdx res) ++ [dx] in
         let adx := (JS.sum adxValues / of_nat (length adxValues))%js in
         Ok (res ++ [mkPoint (timestamp c) adx])
       else
         Ok (res ++ [mkPoint (timestamp c) dx]))
    [].

Definition calculateATR (data : list CandlestickData) (period : positive)
  : result (list TechnicalIndicator) :=
  let p := Pos.to_nat period in
  r <- for_range 1 (length data)
         (fun i st =>
            let '(trueRanges, res) := st in
            ci <- get data i ;;
            cp <- get data (i - 1) ;;
            let trueRanges' := trueRanges ++ [trueRange ci (close cp)] in
            if (p <=? i) then
              let atr := (JS.sum (slice trueRanges' (i - p) i) / of_pos period)%js in
              Ok (trueRanges', res ++ [mkPoint (timestamp ci) atr])
            else Ok (trueRanges', res))
         ([], []) ;;
  Ok (snd r).

Definition calculatePivotPoints (data : list CandlestickData) : result PivotPoints :=
  lastCandle <- get data (length data - 1) ;;
  let h := Fin (high lastCandle) in
  let l := Fin (low lastCandle) in
  let c := Fin (close lastCandle) in
  let pivot := ((h + l + c) / of_nat 3)%js in
  Ok (mkPivots pivot
        (of_nat 2 * pivot - l)%js
        (pivot + (h - l))%js
        (of_nat 2 * pivot - h)%js
        (pivot - (h - l))%js).

Definition determineMarketRegime (adx : list TechnicalIndicator)
  : MarketRegime * TrendStrength :=
  let currentADX := or_else (last_value adx) (Fin 0) in
  if (currentADX >? of_nat 30)%js then (trending, strong)
  else if (currentADX >? of_nat 20)%js then (trending, moderate)
  else if (currentADX >? of_nat 15)%js then (ranging, weak)
  else (ranging, weak).

Definition calculateVolatility (atr : list TechnicalIndicator) (currentPrice : number)
  : Level :=
  let currentATR := or_else (last_value atr) (Fin 0) in
  let atrPercent := (currentATR / currentPrice * of_nat 100)%js in
  if (atrPercent >? Fin 1.5)%js then level_high
  else if (atrPercent >? Fin 0.8)%js then level_medium
  else level_low.

(** [isSessionActive], with the wall clock's UTC hour made an argument. *)
Definition isSessionActive (hour : nat) : bool :=
  let londonSession := (8 <=? hour) && (hour <=? 17) in
  let nySession := (13 <=? hour) && (hour <=? 22) in
  let tokyoSession := (0 <=? hour) && (hour <=? 9) in
  londonSession || nySession || tokyoSession.

Inductive Crossover : Type := cross_bullish | cross_bearish | cross_none.

(** [detectCrossover]; behind the length guard both arrays have the
    elements [0] and [1]. *)
Definition detectCrossover (current previous : list number) : Crossover :=
  if (length current <? 2)%nat || (length previous <? 2)%nat then cross_none
  else
    match current, previous with
    | currFast :: currSlow :: _, prevFast :: prevSlow :: _ =>
        if (prevFast <=? prevSlow)%js && (currFast >? currSlow)%js then cross_bullish
        else if (prevFast >=? prevSlow)%js && (currFast <? currSlow)%js then cross_bearish
        else cross_none
    | _, _ => cross_none
    end.

End AdvancedTechnicalAnalysis.

(** ** [class TradingStrategy] (the basic strategy) *)

Module TradingStrategy.

Import TechnicalAnalysis.

Inductive SignalType : Type := BUY | SELL | HOLD.

Record StrategyConfig : Type := mkConfig {
  riskPercentage : number;
  stopLossPoints : number;
  takeProfitRatio : number;
  minConfidence : number
}.

Definition defaultConfig : StrategyConfig :=
  mkConfig (of_nat 2) (of_nat 50) (of_nat 2) (of_nat 70).

Record Signals : Type := mkSignals {
  bullish : Z;
  bearish : Z;
  reasons : list string
}.

Record TradingSignal : Type := mkTradingSignal {
  signal : SignalType;
  confidence : number;
  ts_timestamp : string;
  price : number;
  ts_reasons : list string;
  stopLoss : option number;
  takeProfit : option number;
  riskReward : number
}.

Definition addBullish (w : Z) (r : string) (s : Signals) : Signals :=
  mkSignals (bullish s + w) (bearish s) (reasons s ++ [r]).

Definition addBearish (w : Z) (r : string) (s : Signals) : Signals :=
  mkSignals (bullish s) (bearish s + w) (reasons s ++ [r]).

Section Strategy.

(** [x.toFixed(1)]. *)
Variable toFixed1 : number -> string.
Variable config : StrategyConfig.

Definition movingAverageRule (analysis : AnalysisResult) (currentPrice : number)
    (s : Signals) : Signals :=
  let sma20 := last_value (sma20 analysis) in
  let sma50 := last_value (sma50 analysis) in
  if truthy_opt sma20 && truthy_opt sma50 then
    if (to_num sma20 >? to_num sma50)%js && (currentPrice >? to_num sma20)%js then
      addBullish 2 "Price above rising SMA20 > SMA50" s
    else if (to_num sma20 <? to_num sma50)%js && (currentPrice <? to_num sma20)%js then
      addBearish 2 "Price below falling SMA20 < SMA50" s
    else s
  else s.

Definition emaRule (analysis : AnalysisResult) (s : Signals) : Signals :=
  let ema12 := last_value (ema12 analysis) in
  let ema26 := last_value (ema26 analysis) in
  if truthy_opt ema12 && truthy_opt ema26 then
    if (to_num ema12 >? to_num ema26)%js then
      addBullish 1 "EMA12 > EMA26 (bullish crossover)" s
    else
      addBearish 1 "EMA12 < EMA26 (bearish crossover)" s
  else s.

Definition rsiRule (analysis : AnalysisResult) (s : Signals) : Signals :=
  let rsi := last_value (rsi analysis) in
  if truthy_opt rsi then
    let r := to_num rsi in
    if (r <? of_nat 30)%js then
      addBullish 2 ("RSI oversold at " ++ toFixed1 r) s
    else if (r >? of_nat 70)%js then
      addBearish 2 ("RSI overbought at " ++ toFixed1 r) s
    else if (r <? of_nat 45)%js then
      addBullish 1 "RSI showing bullish momentum" s
    else if (r >? of_nat 55)%js then
      addBearish 1 "RSI showing bearish momentum" s
    else s
  else s.

Definition macdRule (analysis : AnalysisResult) (s : Signals) : Signals :=
  let macd := last_value (macd (macd_ analysis)) in
  let macdSignal := last_value (TechnicalAnalysis.signal (macd_ analysis)) in
  let macdHist := last_value (histogram (macd_ analysis)) in
  if truthy_opt macd && truthy_opt macdSignal && truthy_opt macdHist then
    if (to_num macd >? to_num macdSignal)%js && (to_num macdHist >? Fin 0)%js then
      addBullish 1 "MACD bullish crossover" s
    else if (to_num macd <? to_num macdSignal)%js && (to_num macdHist <? Fin 0)%js then
      addBearish 1 "MACD bearish crossover" s
    else s
  else s.

Definition bollingerRule (analysis : AnalysisResult) (currentPrice : number)
    (s : Signals) : Signals :=
  let bbUpper := last_value (upper (bollingerBands analysis)) in
  let bbLower := last_value (lower (bollingerBands analysis)) in
  let bbMiddle := last_value (middle (bollingerBands analysis)) in
  if truthy_opt bbUpper && truthy_opt bbLower && truthy_opt bbMiddle then
    if (currentPrice <=? to_num bbLower)%js then
      addBullish 2 "Price at lower Bollinger Band (oversold)" s
    else if (currentPrice >=? to_num bbUpper)%js then
      addBearish 2 "Price at upper Bollinger Band (overbought)" s
    else if (currentPrice >? to_num bbMiddle)%js then
      addBullish 1 "Price above BB middle line" s
    else
      addBearish 1 "Price below BB middle line" s
  else s.

(** The five rule blocks of [analyzeIndicators], in source order. *)
Definition analyzeIndicators (analysis : AnalysisResult) (currentPrice : number)
  : Signals :=
  bollingerRule analysis currentPrice
    (macdRule analysis
       (rsiRule analysis
          (emaRule analysis
             (movingAverageRule analysis currentPrice (mkSignals 0 0 []))))).

Definition calculateConfidence (signals : Signals) : number :=
  let totalSignals := (bullish signals + bearish signals)%Z in
  if (totalSignals =? 0)%Z then Fin 0
  else
    let strongerSignal := Z.max (bullish signals) (bearish signals) in
    let confidence := (of_Z strongerSignal / of_Z totalSignals * of_nat 100)%js in
    let indicatorCount := length (reasons signals) in
    let confidenceBoost := JS.min (of_nat indicatorCount * of_nat 5)%js (of_nat 20) in
    JS.min (confidence + confidenceBoost)%js (of_nat 100).

Definition determineSignal (signals : Signals) (confidence : number) : SignalType :=
  if (confidence <? minConfidence config)%js then HOLD
  else if (bearish signals <? bullish signals)%Z then BUY
  else if (bullish signals <? bearish signals)%Z then SELL
  else HOLD.

Definition generateSignal (data : list CandlestickData) (analysis : AnalysisResult)
  : result TradingSignal :=
  lastCandle <- get data (length data - 1) ;;
  let currentPrice := Fin (close lastCandle) in
  let signals := analyzeIndicators analysis currentPrice in
  let confidence := calculateConfidence signals in
  let signal := determineSignal signals confidence in
  let pts := (stopLossPoints config * Fin 0.0001)%js in
  let stopLoss :=
    match signal with
    | BUY => Some (currentPrice - pts)%js
    | SELL => Some (currentPrice + pts)%js
    | HOLD => None
    end in
  let takeProfit :=
    match signal with
    | BUY => Some (currentPrice + pts * takeProfitRatio config)%js
    | SELL => Some (currentPrice - pts * takeProfitRatio config)%js
    | HOLD => None
    end in
  Ok (mkTradingSignal signal confidence (timestamp lastCandle) currentPrice
        (reasons signals) stopLoss takeProfit (takeProfitRatio config)).

End Strategy.

End TradingStrategy.

(** ** [class EnhancedTradingStrategy] *)

Module EnhancedTradingStrategy.

Import TechnicalAnalysis AdvancedTechnicalAnalysis.

Inductive EnhancedSignalType : Type :=
| STRONG_BUY | BUY | WEAK_BUY | HOLD | WEAK_SELL | SELL | STRONG_SELL.

Inductive FVGType : Type := fvg_bullish | fvg_bearish.
Inductive BlockType : Type := demand | supply.
Inductive ZoneType : Type := buy_liquidity | sell_liquidity.
Inductive Microstructure : Type := ms_bullish | ms_bearish | ms_neutral.
Inductive Extreme : Type := ext_high | ext_low.

Record FairValueGap : Type := mkFVG {
  fvg_type : FVGType;
  fvg_high : number;
  fvg_low : number;
  fvg_index : nat;
  filled : bool;
  fvg_strength : number
}.

Record OrderBlock : Type := mkBlock {
  ob_type : BlockType;
  ob_high : number;
  ob_low : number;
  ob_volume : number;
  ob_index : nat;
  tested : bool;
  ob_strength : number
}.

Record LiquidityZone : Type := mkZone {
  lz_type : ZoneType;
  lz_price : number;
  lz_strength : number;
  lz_index : nat;
  swept : bool
}.

Record EnhancedStrategyConfig : Type := mkConfig {
  riskPercentage : number;
  atrMultiplierSL : number;
  atrMultiplierTP : number;
  minConfidence : number;
  minADX : number;
  maxSpread : number;
  useTrailingStop : bool;
  fvgMinSize : number;
  orderBlockMinVolume : number;
  liquidityThreshold : number
}.

Definition defaultConfig : EnhancedStrategyConfig :=
  mkConfig (of_nat 1) (Fin 1.2) (Fin 2.0) (of_nat 65) (of_nat 10) (of_nat 3)
           true (Fin 0.0002) (Fin 1.2) (Fin 0.6).

Record Confluence : Type := mkConfluence {
  bullish : Z;
  bearish : Z;
  confidence : number;
  reasons : list string;
  confluenceScore : Z
}.

Record Signals : Type := mkSignals {
  s_bullish : Z;
  s_bearish : Z;
  s_reasons : list string;
  s_confluenceScore : Z
}.

Definition addBullish (w : Z) (r : string) (s : Signals) : Signals :=
  mkSignals (s_bullish s + w) (s_bearish s) (s_reasons s ++ [r]) (s_confluenceScore s + w).

Definition addBearish (w : Z) (r : string) (s : Signals) : Signals :=
  mkSignals (s_bullish s) (s_bearish s + w) (s_reasons s ++ [r]) (s_confluenceScore s + w).

Definition addScore (w : Z) (r : string) (s : Signals) : Signals :=
  mkSignals (s_bullish s) (s_bearish s) (s_reasons s ++ [r]) (s_confluenceScore s + w).

(** [c.volume || 1]. *)
Definition volumeOr1 (c : CandlestickData) : number :=
  or_else (Some (Fin (volume c))) (of_nat 1).

(** [data.slice(Math.max(0, i - 5), i).reduce((sum, c) => sum + (c.volume || 1), 0) / 5]. *)
Definition avgVolumeBefore (data : list CandlestickData) (i : nat) : number :=
  (JS.sum (map volumeOr1 (slice data (i - 5) i)) / of_nat 5)%js.

Section Strategy.

Variable toFixed1 : number -> string.
Variable config : EnhancedStrategyConfig.

(** First loop of [identifyFairValueGaps]: the gaps in detection order,
    all with [filled = false]. *)
Definition detectFairValueGaps (data : list CandlestickData)
  : result (list FairValueGap) :=
  for_range 2 (length data - 1)
    (fun i gaps =>
       prev <- get data (i - 1) ;;
       current <- get data i ;;
       next <- get data (i + 1) ;;
       let gaps1 :=
         if (Fin (low prev) >? Fin (high next))%js then
           let gapSize := (Fin (low prev) - Fin (high next))%js in
           if (gapSize >=? fvgMinSize config)%js then
             gaps ++ [mkFVG fvg_bullish (Fin (low prev)) (Fin (high next)) i false
                        (gapSize / Fin (close prev) * Fin 10000)%js]
           else gaps
         else gaps in
       let gaps2 :=
         if (Fin (high prev) <? Fin (low next))%js then
           let gapSize := (Fin (low next) - Fin (high prev))%js in
           if (gapSize >=? fvgMinSize config)%js then
             gaps1 ++ [mkFVG fvg_bearish (Fin (low next)) (Fin (high prev)) i false
                         (gapSize / Fin (close prev) * Fin 10000)%js]
           else gaps1
         else gaps1 in
       Ok gaps2)
    [].

(** One step of the inner fill loop: does candle [c] fill [gap]? *)
Definition fillsGap (gap : FairValueGap) (c : CandlestickData) : bool :=
  match fvg_type gap with
  | fvg_bullish => (Fin (low c) <=? fvg_low gap)%js
  | fvg_bearish => (Fin (high c) >=? fvg_high gap)%js
  end.

(** Second loop: [for (j = gap.index + 1; j < data.length; j++)] with
    [break] on the first filling candle. *)
Definition markFilled (data : list CandlestickData) (gap : FairValueGap)
  : FairValueGap :=
  if existsb (fillsGap gap) (skipn (fvg_index gap + 1) data) then
    mkFVG (fvg_type gap) (fvg_high gap) (fvg_low gap) (fvg_index gap) true
          (fvg_strength gap)
  else gap.

Definition identifyFairValueGaps (data : list CandlestickData)
  : result (list FairValueGap) :=
  gaps <- detectFairValueGaps data ;;
  Ok (slice_last 8 (map (markFilled data) gaps)).

(** The blocks pushed by [identifyOrderBlocks] before [slice(-6)]. *)
Definition detectOrderBlocks (data : list CandlestickData)
  : result (list OrderBlock) :=
  for_range 3 (length data - 3)
    (fun i blocks =>
       candle <- get data i ;;
       let volume := volumeOr1 candle in
       let avgVolume := avgVolumeBefore data i in
       if (volume >? avgVolume * orderBlockMinVolume config)%js then
         let bodySize := JS.abs (Fin (close candle) - Fin (open candle))%js in
         let candleRange := (Fin (high candle) - Fin (low candle))%js in
         let later := skipn (i + 1) data in
         let strength := (volume / avgVolume * (bodySize / candleRange))%js in
         let blocks1 :=
           if (Fin (close candle) >? Fin (open candle))%js
              && (bodySize >? candleRange * Fin 0.5)%js then
             let tested :=
               existsb (fun d => (Fin (low d) <=? Fin (high candle))%js
                                 && (Fin (low d) >=? Fin (low candle))%js) later in
             blocks ++ [mkBlock demand (Fin (high candle)) (Fin (low candle)) volume i
                          tested strength]
           else blocks in
         let blocks2 :=
           if (Fin (close candle) <? Fin (open candle))%js
              && (bodySize >? candleRange * Fin 0.5)%js then
             let tested :=
               existsb (fun d => (Fin (high d) >=? Fin (low candle))%js
                                 && (Fin (high d) <=? Fin (high candle))%js) later in
             blocks1 ++ [mkBlock supply (Fin (high candle)) (Fin (low candle)) volume i
                           tested strength]
           else blocks1 in
         Ok blocks2
       else Ok blocks)
    [].

Definition identifyOrderBlocks (data : list CandlestickData)
  : result (list OrderBlock) :=
  blocks <- detectOrderBlocks data ;;
  Ok (slice_last 6 blocks).

Definition calculateLiquidityStrength (data : list CandlestickData) (index : nat)
    (type : Extreme) : result number :=
  candle <- get data index ;;
  let volume := volumeOr1 candle in
  let avgVolume := avgVolumeBefore data index in
  let targetPrice :=
    match type with ext_high => Fin (high candle) | ext_low => Fin (low candle) end in
  touchCount <-
    for_range (index - 10) (Nat.min (length data) (index + 10))
      (fun i touchCount =>
         if (i =? index) then Ok touchCount
         else
           d <- get data i ;;
           let tolerance := (targetPrice * Fin 0.0002)%js in
           let price :=
             match type with ext_high => Fin (high d) | ext_low => Fin (low d) end in
           if (JS.abs (price - targetPrice) <=? tolerance)%js
           then Ok (touchCount + 1)
           else Ok touchCount)
      0 ;;
  Ok (volume / avgVolume + of_nat touchCount * Fin 0.3)%js.

(** The zones pushed by [identifyLiquidityZones] before [slice(-8)]. *)
Definition detectLiquidityZones (data : list CandlestickData)
  : result (list LiquidityZone) :=
  for_range 3 (length data - 3)
    (fun i zones =>
       candle <- get data i ;;
       let leftCandles := slice data (i - 3) i in
       let rightCandles := slice data (i + 1) (i + 4) in
       let later := skipn (i + 1) data in
       let isSwingHigh :=
         forallb (fun c => (Fin (high c) <? Fin (high candle))%js) leftCandles
         && forallb (fun c => (Fin (high c) <? Fin (high candle))%js) rightCandles in
       zones1 <-
         (if isSwingHigh then
            let swept :=
              existsb (fun d => (Fin (high d) >? Fin (high candle))%js) later in
            strength <- calculateLiquidityStrength data i ext_high ;;
            Ok (zones ++ [mkZone sell_liquidity (Fin (high candle)) strength i swept])
          else Ok zones) ;;
       let isSwingLow :=
         forallb (fun c => (Fin (low c) >? Fin (low candle))%js) leftCandles
         && forallb (fun c => (Fin (low c) >? Fin (low candle))%js) rightCandles in
       if isSwingLow then
         let swept :=
           existsb (fun d => (Fin (low d) <? Fin (low candle))%js) later in
         strength <- calculateLiquidityStrength data i ext_low ;;
         Ok (zones1 ++ [mkZone buy_liquidity (Fin (low candle)) strength i swept])
       else Ok zones1)
    [].

Definition identifyLiquidityZones (data : list CandlestickData)
  : result (list LiquidityZone) :=
  zones <- detectLiquidityZones data ;;
  Ok (slice_last 8 zones).

Definition analyzeVolumeProfile (data : list CandlestickData) : Level :=
  let recentData := slice_last 10 data in
  let currentVolume :=
    or_else (option_map (fun c => Fin (volume c)) (last_elem recentData)) (of_nat 1) in
  let avgVolume :=
    (JS.sum (map volumeOr1 recentData) / of_nat (length recentData))%js in
  if (currentVolume >? avgVolume * Fin 1.3)%js then level_high
  else if (currentVolume >? avgVolume * Fin 0.7)%js then level_medium
  else level_low.

Definition countHigherHighs (data : list CandlestickData) : result nat :=
  for_range 1 (length data)
    (fun i count =>
       ci <- get data i ;;
       cp <- get data (i - 1) ;;
       Ok (if (Fin (high ci) >? Fin (high cp))%js then count + 1 else count))
    0.

Definition countLowerLows (data : list CandlestickData) : result nat :=
  for_range 1 (length data)
    (fun i count =>
       ci <- get data i ;;
       cp <- get data (i - 1) ;;
       Ok (if (Fin (low ci) <? Fin (low cp))%js then count + 1 else count))
    0.

Definition analyzeMarketMicrostructure (data : list CandlestickData)
    (fvgs : list FairValueGap) (orderBlocks : list OrderBlock)
  : result Microstructure :=
  let recentData := slice_last 5 data in
  lastCandle <- get data (length data - 1) ;;
  let currentPrice := Fin (close lastCandle) in
  higherHighs <- countHigherHighs recentData ;;
  lowerLows <- countLowerLows recentData ;;
  let bullishSignals0 := if (lowerLows <? higherHighs) then 1 else 0 in
  let bearishSignals0 :=
    if (lowerLows <? higherHighs) then 0
    else if (higherHighs <? lowerLows) then 1 else 0 in
  let bullishFVGs :=
    length (filter (fun g => match fvg_type g with fvg_bullish => true | _ => false end
                             && negb (filled g) && (currentPrice >? fvg_low g)%js) fvgs) in
  let bearishFVGs :=
    length (filter (fun g => match fvg_type g with fvg_bearish => true | _ => false end
                             && negb (filled g) && (currentPrice <? fvg_high g)%js) fvgs) in
  let demandBlocks :=
    length (filter (fun b => match ob_type b with demand => true | _ => false end
                             && negb (tested b) && (currentPrice >? ob_low b)%js)
                   orderBlocks) in
  let supplyBlocks :=
    length (filter (fun b => match ob_type b with supply => true | _ => false end
                             && negb (tested b) && (currentPrice <? ob_high b)%js)
                   orderBlocks) in
  let bullishSignals := bullishSignals0 + bullishFVGs + demandBlocks in
  let bearishSignals := bearishSignals0 + bearishFVGs + supplyBlocks in
  if (bearishSignals <? bullishSignals) then Ok ms_bullish
  else if (bullishSignals <? bearishSignals) then Ok ms_bearish
  else Ok ms_neutral.

(** *** The rule blocks of [analyzeAdvancedConfluence], in source order *)

Definition rsiRule (analysis : AnalysisResult) (s : Signals) : Signals :=
  let rsi := last_value (rsi analysis) in
  if truthy_opt rsi then
    let r := to_num rsi in
    if (r <? of_nat 30)%js then addBullish 4 ("RSI oversold: " ++ toFixed1 r) s
    else if (r >? of_nat 70)%js then addBearish 4 ("RSI overbought: " ++ toFixed1 r) s
    else if (r <? of_nat 40)%js then addBullish 2 ("RSI bullish: " ++ toFixed1 r) s
    else if (r >? of_nat 60)%js then addBearish 2 ("RSI bearish: " ++ toFixed1 r) s
    else s
  else s.

Definition macdRule (analysis : AnalysisResult) (s : Signals) : Signals :=
  let macdHist := last_value (histogram (macd_ analysis)) in
  let prevMACDHist := prev_value (histogram (macd_ analysis)) in
  if truthy_opt macdHist && truthy_opt prevMACDHist then
    let h := to_num macdHist in
    let ph := to_num prevMACDHist in
    if (ph <=? Fin 0)%js && (h >? Fin 0)%js then addBullish 5 "MACD bullish crossover" s
    else if (ph >=? Fin 0)%js && (h <? Fin 0)%js then
      addBearish 5 "MACD bearish crossover" s
    else if (h >? Fin 0)%js then addBullish 2 "MACD above zero" s
    else if (h <? Fin 0)%js then addBearish 2 "MACD below zero" s
    else s
  else s.

Definition emaRule (analysis : AnalysisResult) (currentPrice : number) (s : Signals)
  : Signals :=
  let ema12 := last_value (ema12 analysis) in
  let ema26 := last_value (ema26 analysis) in
  if truthy_opt ema12 && truthy_opt ema26 then
    if (to_num ema12 >? to_num ema26)%js && (currentPrice >? to_num ema12)%js then
      addBullish 3 "Bullish EMA trend" s
    else if (to_num ema12 <? to_num ema26)%js && (currentPrice <? to_num ema12)%js then
      addBearish 3 "Bearish EMA trend" s
    else s
  else s.

Definition nearFVG (t : FVGType) (currentPrice : number) (g : FairValueGap) : bool :=
  match fvg_type g, t with
  | fvg_bullish, fvg_bullish =>
      negb (filled g)
      && (currentPrice >=? fvg_low g * Fin 0.998)%js
      && (currentPrice <=? fvg_high g * Fin 1.002)%js
  | fvg_bearish, fvg_bearish =>
      negb (filled g)
      && (currentPrice <=? fvg_high g * Fin 1.002)%js
      && (currentPrice >=? fvg_low g * Fin 0.998)%js
  | _, _ => false
  end.

Definition fvgRule (fvgs : list FairValueGap) (currentPrice : number) (s : Signals)
  : Signals :=
  let nearBullishFVG := find (nearFVG fvg_bullish currentPrice) fvgs in
  let nearBearishFVG := find (nearFVG fvg_bearish currentPrice) fvgs in
  let s1 :=
    match nearBullishFVG with
    | Some g =>
        addBullish 3 ("Near bullish FVG (" ++ toFixed1 (fvg_strength g) ++ " pips)") s
    | None => s
    end in
  match nearBearishFVG with
  | Some g =>
      addBearish 3 ("Near bearish FVG (" ++ toFixed1 (fvg_strength g) ++ " pips)") s1
  | None => s1
  end.

Definition nearBlock (t : BlockType) (currentPrice : number) (b : OrderBlock) : bool :=
  match ob_type b, t with
  | demand, demand | supply, supply =>
      negb (tested b)
      && (currentPrice >=? ob_low b * Fin 0.998)%js
      && (currentPrice <=? ob_high b * Fin 1.002)%js
  | _, _ => false
  end.

Definition orderBlockRule (orderBlocks : list OrderBlock) (currentPrice : number)
    (s : Signals) : Signals :=
  let nearDemandBlock := find (nearBlock demand currentPrice) orderBlocks in
  let nearSupplyBlock := find (nearBlock supply currentPrice) orderBlocks in
  let s1 :=
    match nearDemandBlock with
    | Some b =>
        addBullish 3
          ("Near demand block (strength: " ++ toFixed1 (ob_strength b) ++ ")") s
    | None => s
    end in
  match nearSupplyBlock with
  | Some b =>
      addBearish 3
        ("Near supply block (strength: " ++ toFixed1 (ob_strength b) ++ ")") s1
  | None => s1
  end.

Definition microstructureRule (microstructure : Microstructure) (s : Signals)
  : Signals :=
  match microstructure with
  | ms_bullish => addBullish 2 "Bullish market structure" s
  | ms_bearish => addBearish 2 "Bearish market structure" s
  | ms_neutral => s
  end.

Definition volumeRule (volumeProfile : Level) (s : Signals) : Signals :=
  match volumeProfile with
  | level_high => addScore 2 "High volume confirmation" s
  | _ => s
  end.

Definition sessionRule (advancedAnalysis : AdvancedAnalysisResult) (s : Signals)
  : Signals :=
  if negb (sessionFilter advancedAnalysis)
  then addScore (-1) "Outside major sessions" s
  else addScore 1 "Active trading session" s.

Definition tally (analysis : AnalysisResult)
    (advancedAnalysis : AdvancedAnalysisResult) (currentPrice : number)
    (fvgs : list FairValueGap) (orderBlocks : list OrderBlock)
    (volumeProfile : Level) (microstructure : Microstructure) : Signals :=
  sessionRule advancedAnalysis
    (volumeRule volumeProfile
       (microstructureRule microstructure
          (orderBlockRule orderBlocks currentPrice
             (fvgRule fvgs currentPrice
                (emaRule analysis currentPrice
                   (macdRule analysis
                      (rsiRule analysis (mkSignals 0 0 [] 0)))))))).

(** The confidence computed from the final tallies. *)
Definition confidenceOf (signals : Signals) : number :=
  let totalSignals := (s_bullish signals + s_bearish signals)%Z in
  let confidence0 :=
    if (0 <? totalSignals)%Z then
      (of_Z (Z.max (s_bullish signals) (s_bearish signals)) / of_Z totalSignals
       * of_nat 100)%js
    else of_nat 50 in
  let confluenceBoost :=
    JS.min (of_Z (s_confluenceScore signals) * of_nat 2)%js (of_nat 25) in
  let confidence1 := JS.min (confidence0 + confluenceBoost)%js (of_nat 95) in
  if (5 <=? s_confluenceScore signals)%Z
  then JS.max confidence1 (of_nat 60)
  else confidence1.

Definition analyzeAdvancedConfluence (data : list CandlestickData)
    (analysis : AnalysisResult) (advancedAnalysis : AdvancedAnalysisResult)
    (currentPrice : number) (fvgs : list FairValueGap)
    (orderBlocks : list OrderBlock) (liquidityZones : list LiquidityZone)
    (volumeProfile : Level) (microstructure : Microstructure) : Confluence :=
  let signals :=
    tally analysis advancedAnalysis currentPrice fvgs orderBlocks
          volumeProfile microstructure in
  mkConfluence (s_bullish signals) (s_bearish signals) (confidenceOf signals)
               (s_reasons signals) (s_confluenceScore signals).

Definition determineSmartMoneySignal (confluenceAnalysis : Confluence)
    (advancedAnalysis : AdvancedAnalysisResult) (microstructure : Microstructure)
  : EnhancedSignalType :=
  let bullish := bullish confluenceAnalysis in
  let bearish := bearish confluenceAnalysis in
  let confidence := confidence confluenceAnalysis in
  let confluenceScore := confluenceScore confluenceAnalysis in
  if (confidence <? minConfidence config)%js then HOLD
  else if (confluenceScore <? 4)%Z then HOLD
  else
    let signalStrength := Z.abs (bullish - bearish) in
    let isVeryStrongSignal :=
      (12 <=? confluenceScore)%Z && (6 <=? signalStrength)%Z
      && (confidence >=? of_nat 85)%js in
    let isStrongSignal :=
      (8 <=? confluenceScore)%Z && (4 <=? signalStrength)%Z
      && (confidence >=? of_nat 75)%js in
    if (bearish <? bullish)%Z then
      if isVeryStrongSignal then STRONG_BUY
      else if isStrongSignal then BUY
      else WEAK_BUY
    else if (bullish <? bearish)%Z then
      if isVeryStrongSignal then STRONG_SELL
      else if isStrongSignal then SELL
      else WEAK_SELL
    else HOLD.

(** [signal.includes('BUY')] and [signal.includes('STRONG')]. *)
Definition includesBUY (signal : EnhancedSignalType) : bool :=
  match signal with
  | STRONG_BUY | BUY | WEAK_BUY => true
  | _ => false
  end.

Definition includesSTRONG (signal : EnhancedSignalType) : bool :=
  match signal with
  | STRONG_BUY | STRONG_SELL => true
  | _ => false
  end.

Definition isDemand (b : OrderBlock) : bool :=
  match ob_type b with demand => true | supply => false end.

Definition isBullishGap (g : FairValueGap) : bool :=
  match fvg_type g with fvg_bullish => true | fvg_bearish => false end.

Definition isBuyLiquidity (z : LiquidityZone) : bool :=
  match lz_type z with buy_liquidity => true | sell_liquidity => false end.

Definition calculateSmartStopLoss (currentPrice atr : number)
    (signal : EnhancedSignalType) (orderBlocks : list OrderBlock)
    (liquidityZones : list LiquidityZone) : option number :=
  match signal with
  | HOLD => None
  | _ =>
      if includesBUY signal then
        let relevantBlock :=
          hd_error
            (sortBy (fun a b => (ob_high b - ob_high a)%js)
               (filter (fun b => isDemand b && (ob_high b <? currentPrice)%js)
                       orderBlocks)) in
        match relevantBlock with
        | Some b => Some (ob_low b - atr * Fin 0.3)%js
        | None => Some (currentPrice - atr * atrMultiplierSL config)%js
        end
      else
        let relevantBlock :=
          hd_error
            (sortBy (fun a b => (ob_low a - ob_low b)%js)
               (filter (fun b => negb (isDemand b) && (ob_low b >? currentPrice)%js)
                       orderBlocks)) in
        match relevantBlock with
        | Some b => Some (ob_high b + atr * Fin 0.3)%js
        | None => Some (currentPrice + atr * atrMultiplierSL config)%js
        end
  end.

Definition calculateSmartTakeProfit (currentPrice atr : number)
    (signal : EnhancedSignalType) (fvgs : list FairValueGap)
    (liquidityZones : list LiquidityZone) : option number :=
  match signal with
  | HOLD => None
  | _ =>
      let multiplier := if includesSTRONG signal then Fin 2.5 else Fin 2.0 in
      if includesBUY signal then
        let targetFVG :=
          hd_error
            (sortBy (fun a b => (fvg_low a - fvg_low b)%js)
               (filter (fun g => negb (isBullishGap g) && negb (filled g)
                                 && (fvg_low g >? currentPrice)%js) fvgs)) in
        let targetLiquidity :=
          hd_error
            (sortBy (fun a b => (lz_price a - lz_price b)%js)
               (filter (fun z => negb (isBuyLiquidity z) && negb (swept z)
                                 && (lz_price z >? currentPrice)%js) liquidityZones)) in
        match targetFVG, targetLiquidity with
        | Some g, None => Some (fvg_low g)
        | Some g, Some z =>
            if (fvg_low g <? lz_price z)%js then Some (fvg_low g) else Some (lz_price z)
        | None, Some z => Some (lz_price z)
        | None, None => Some (currentPrice + atr * multiplier)%js
        end
      else
        let targetFVG :=
          hd_error
            (sortBy (fun a b => (fvg_high b - fvg_high a)%js)
               (filter (fun g => isBullishGap g && negb (filled g)
                                 && (fvg_high g <? currentPrice)%js) fvgs)) in
        let targetLiquidity :=
          hd_error
            (sortBy (fun a b => (lz_price b - lz_price a)%js)
               (filter (fun z => isBuyLiquidity z && negb (swept z)
                                 && (lz_price z <? currentPrice)%js) liquidityZones)) in
        match targetFVG, targetLiquidity with
        | Some g, None => Some (fvg_high g)
        | Some g, Some z =>
            if (fvg_high g >? lz_price z)%js then Some (fvg_high g) else Some (lz_price z)
        | None, Some z => Some (lz_price z)
        | None, None => Some (currentPrice - atr * multiplier)%js
        end
  end.

Record EnhancedTradingSignal : Type := mkEnhancedSignal {
  signal : EnhancedSignalType;
  es_confidence : number;
  es_timestamp : string;
  price : number;
  es_reasons : list string;
  stopLoss : option number;
  takeProfit : option number;
  trailingStop : option number;
  riskReward : option number;
  es_marketRegime : MarketRegime;
  sessionActive : bool;
  es_confluenceScore : Z;
  fairValueGaps : list FairValueGap;
  orderBlocks : list OrderBlock;
  liquidityZones : list LiquidityZone;
  volumeProfile : Level;
  microstructure : Microstructure
}.

Definition generateEnhancedSignal (data : list CandlestickData)
    (analysis : AnalysisResult) (advancedAnalysis : AdvancedAnalysisResult)
  : result EnhancedTradingSignal :=
  lastCandle <- get data (length data - 1) ;;
  let currentPrice := Fin (close lastCandle) in
  let timestamp := timestamp lastCandle in
  let atr := or_else (last_value (AdvancedTechnicalAnalysis.atr advancedAnalysis))
                     (Fin 0.001) in
  fairValueGaps <- identifyFairValueGaps data ;;
  orderBlocks <- identifyOrderBlocks data ;;
  liquidityZones <- identifyLiquidityZones data ;;
  let volumeProfile := analyzeVolumeProfile data in
  microstructure <- analyzeMarketMicrostructure data fairValueGaps orderBlocks ;;
  let confluenceAnalysis :=
    analyzeAdvancedConfluence data analysis advancedAnalysis currentPrice
      fairValueGaps orderBlocks liquidityZones volumeProfile microstructure in
  let signal :=
    determineSmartMoneySignal confluenceAnalysis advancedAnalysis microstructure in
  let stopLoss :=
    calculateSmartStopLoss currentPrice atr signal orderBlocks liquidityZones in
  let takeProfit :=
    calculateSmartTakeProfit currentPrice atr signal fairValueGaps liquidityZones in
  let trailingStop :=
    if useTrailingStop config then Some (atr * Fin 0.6)%js else None in
  let riskReward :=
    if truthy_opt takeProfit && truthy_opt stopLoss then
      Some (JS.abs (to_num takeProfit - currentPrice)
            / JS.abs (currentPrice - to_num stopLoss))%js
    else None in
  Ok (mkEnhancedSignal signal (confidence confluenceAnalysis) timestamp currentPrice
        (reasons confluenceAnalysis) stopLoss takeProfit trailingStop riskReward
        (marketRegime advancedAnalysis)
        (sessionFilter advancedAnalysis) (confluenceScore confluenceAnalysis)
        fairValueGaps orderBlocks liquidityZones volumeProfile microstructure).

End Strategy.

End EnhancedTradingStrategy.

(** ** The hooks [useEnhancedTradingSignals] and [useTradingSignals] *)

Module Hooks.

Import TechnicalAnalysis AdvancedTechnicalAnalysis EnhancedTradingStrategy.

Section Hook.

Variable sqrt : number -> number.
Variable toFixed1 : number -> string.

(** The analysis the hook assembles for the strategy; [hour] is the UTC
    hour [isSessionActive] reads from the clock. *)
Definition advancedAnalysisOf (data : list CandlestickData) (hour : nat)
  : result AdvancedAnalysisResult :=
  adx <- calculateADX data 14 ;;
  atr <- calculateATR data 14 ;;
  pivotPoints <- calculatePivotPoints data ;;
  let marketRegimeData := determineMarketRegime adx in
  lastCandle <- get data (length data - 1) ;;
  let currentPrice := Fin (close lastCandle) in
  let volatility := calculateVolatility atr currentPrice in
  let sessionFilter := isSessionActive hour in
  Ok (mkAdvanced adx atr pivotPoints (fst marketRegimeData) (snd marketRegimeData)
        volatility sessionFilter).

(** The hook's body past its length guard, with the default
    configuration of [new EnhancedTradingStrategy()]. *)
Definition enhancedSignalOf (data : list CandlestickData) (hour : nat)
  : result EnhancedTradingSignal :=
  analysis <- analyzeAll sqrt data ;;
  advancedAnalysis <- advancedAnalysisOf data hour ;;
  generateEnhancedSignal toFixed1 defaultConfig data analysis advancedAnalysis.

Definition useEnhancedTradingSignals (data : list CandlestickData) (hour : nat)
  : option (result EnhancedTradingSignal) :=
  if (length data <? 100) then None
  else Some (enhancedSignalOf data hour).

(** The hook [useTradingSignals] of the basic strategy, with the default
    configuration of [new TradingStrategy()]. *)
Definition signalOf (data : list CandlestickData)
  : result TradingStrategy.TradingSignal :=
  analysis <- analyzeAll sqrt data ;;
  TradingStrategy.generateSignal toFixed1 TradingStrategy.defaultConfig data analysis.

Definition useTradingSignals (data : list CandlestickData)
  : option (result TradingStrategy.TradingSignal) :=
  if (length data <? 50) then None
  else Some (signalOf data).

End Hook.

End Hooks.

(** ** IEEE 754 binary64

    The numbers of the engine itself: doubles with round-to-nearest-even
    arithmetic, for the inputs on which rounding or overflow decides what
    the code returns. *)

Module Binary64.

Definition double : Set := SpecFloat.spec_float.

Definition prec : Z := 53.
Definition emax : Z := 1024.

Definition NaN : double := SpecFloat.S754_nan.

(** The double nearest to an integer; an integer literal such as [100] or
    [1.5e308] denotes it. *)
Definition of_Z (z : Z) : double := SpecFloat.binary_normalize prec emax z 0 false.
Definition of_pos (p : positive) : double := of_Z (Zpos p).

Definition add : double -> double -> double := SpecFloat.SFadd prec emax.
Definition sub : double -> double -> double := SpecFloat.SFsub prec emax.
Definition mul : double -> double -> double := SpecFloat.SFmul prec emax.
Definition div : double -> double -> double := SpecFloat.SFdiv prec emax.
Definition abs : double -> double := SpecFloat.SFabs.

(** [<], [>], [<=] and [===]: false whenever an operand is [NaN]. *)
Definition ltb : double -> double -> bool := SpecFloat.SFltb.
Definition gtb (a b : double) : bool := SpecFloat.SFltb b a.
Definition leb : double -> double -> bool := SpecFloat.SFleb.
Definition eqb : double -> double -> bool := SpecFloat.SFeqb.

Definition isNaN (a : double) : bool :=
  match a with SpecFloat.S754_nan => true | _ => false end.

(** [xs.reduce((a, b) => a + b, 0)]. *)
Definition sum (l : list double) : double := fold_left add l (of_Z 0).

(** Candles and indicator points whose numbers are doubles. *)
Record Candlestick : Type := mkCandle {
  timestamp : string;
  open : double;
  high : double;
  low : double;
  close : double;
  volume : double
}.

Record Indicator : Type := mkPoint {
  ti_timestamp : string;
  value : double
}.

(** [TechnicalAnalysis.calculateRSI] over doubles, statement by statement
    as above. *)
Definition gainOf (change : double) : double :=
  if gtb change (of_Z 0) then change else of_Z 0.

Definition lossOf (change : double) : double :=
  if ltb change (of_Z 0) then abs change else of_Z 0.

Definition gainsAndLosses (data : list Candlestick)
  : result (list double * list double) :=
  for_range 1 (length data)
    (fun i st =>
       let '(gains, losses) := st in
       ci <- get data i ;;
       cp <- get data (i - 1) ;;
       let change := sub (close ci) (close cp) in
       Ok (gains ++ [gainOf change], losses ++ [lossOf change]))
    ([], []).

Definition windowAvg (xs : list double) (period : positive) (i : nat) : double :=
  div (sum (slice xs (i + 1 - Pos.to_nat period) (i + 1))) (of_pos period).

Definition rsiAt (gains losses : list double) (period : positive) (i : nat) : double :=
  let avgGain := windowAvg gains period i in
  let avgLoss := windowAvg losses period i in
  let rs := if eqb avgLoss (of_Z 0) then of_Z 100 else div avgGain avgLoss in
  sub (of_Z 100) (div (of_Z 100) (add (of_Z 1) rs)).

Definition calculateRSI (data : list Candlestick) (period : positive)
  : result (list Indicator) :=
  let p := Pos.to_nat period in
  gl <- gainsAndLosses data ;;
  let '(gains, losses) := gl in
  for_range (p - 1) (length gains)
    (fun i res =>
       let rsi := rsiAt gains losses period i in
       c <- get data (i + 1) ;;
       Ok (res ++ [mkPoint (timestamp c) rsi]))
    [].

End Binary64.

(** * Properties *)

(** ** Loops and arrays *)

Lemma iter_from_inv {S : Type} (P : nat -> S -> Prop) (body : nat -> S -> result S) :
  forall n i s,
    P i s ->
    (forall j s0, i <= j < i + n -> P j s0 ->
                  exists s1, body j s0 = Ok s1 /\ P (Datatypes.S j) s1) ->
    exists s', iter_from n i body s = Ok s' /\ P (i + n) s'.
Proof.
  induction n as [|n IH]; intros i s HP Hstep; simpl.
  - exists s. rewrite Nat.add_0_r. auto.
  - destruct (Hstep i s) as [s1 [Hb HP1]]; [lia | assumption |].
    rewrite Hb. simpl.
    destruct (IH (Datatypes.S i) s1 HP1) as [s' [Hi HP']].
    + intros j s0 Hj. apply Hstep. lia.
    + exists s'. split; [assumption|].
      replace (i + Datatypes.S n) with (Datatypes.S i + n) by lia. assumption.
Qed.

Lemma for_range_inv {S : Type} (P : nat -> S -> Prop) (body : nat -> S -> result S)
    (a b : nat) (s : S) :
  a <= b ->
  P a s ->
  (forall j s0, a <= j < b -> P j s0 ->
                exists s1, body j s0 = Ok s1 /\ P (Datatypes.S j) s1) ->
  exists s', for_range a b body s = Ok s' /\ P b s'.
Proof.
  intros Hab HP Hstep. unfold for_range.
  destruct (@iter_from_inv S P body (b - a) a s HP) as [s' [H1 H2]].
  - intros j s0 Hj. apply Hstep. lia.
  - exists s'. split; [assumption|].
    replace b with (a + (b - a)) by lia. assumption.
Qed.

Lemma for_range_none {S : Type} (body : nat -> S -> result S) (a b : nat) (s : S) :
  b <= a -> for_range a b body s = Ok s.
Proof.
  intros H. unfold for_range. replace (b - a) with 0 by lia. reflexivity.
Qed.

Lemma get_ok {A : Type} (l : list A) (i : nat) :
  i < length l -> exists a, get l i = Ok a /\ nth_error l i = Some a.
Proof.
  intros H. unfold get. destruct (nth_error l i) as [a|] eqn:E.
  - exists a. auto.
  - apply nth_error_None in E. lia.
Qed.

Lemma get_out_of_range {A : Type} (l : list A) (i : nat) :
  length l <= i -> get l i = TypeError.
Proof.
  intros H. unfold get. apply nth_error_None in H. rewrite H. reflexivity.
Qed.

Lemma slice_last_length {A : Type} (k : nat) (l : list A) :
  length (slice_last k l) = Nat.min k (length l).
Proof. unfold slice_last. rewrite length_skipn. lia. Qed.

Lemma slice_last_suffix {A : Type} (k : nat) (l : list A) :
  exists dropped, l = dropped ++ slice_last k l /\ length dropped = length l - k.
Proof.
  exists (firstn (length l - k) l). unfold slice_last.
  rewrite firstn_skipn. split; [reflexivity|].
  rewrite length_firstn. lia.
Qed.

Import TechnicalAnalysis AdvancedTechnicalAnalysis.

(** ** Success and length of the indicator loops *)

Lemma gainsAndLosses_ok (data : list CandlestickData) :
  exists gains losses,
    gainsAndLosses data = Ok (gains, losses)
    /\ length gains = length data - 1
    /\ length losses = length data - 1.
Proof.
  unfold gainsAndLosses.
  destruct (Nat.le_gt_cases 1 (length data)) as [H|H].
  - match goal with |- context [for_range 1 _ ?b ?s] =>
      destruct (@for_range_inv _
                  (fun i st => length (fst st) = i - 1 /\ length (snd st) = i - 1)
                  b 1 (length data) s H) as [[g l] [E [Hg Hl]]]
    end.
    + simpl. auto.
    + intros j [g l] Hj [Hg Hl]. simpl in Hg, Hl.
      destruct (@get_ok _ data j) as [cj [Ej _]]; [lia|].
      destruct (@get_ok _ data (j - 1)) as [cp [Ep _]]; [lia|].
      rewrite Ej, Ep. simpl. eexists. split; [reflexivity|].
      simpl. rewrite !length_app. simpl. lia.
    + exists g, l. simpl in Hg, Hl. auto.
  - exists [], []. rewrite for_range_none by lia. simpl. split; [reflexivity|lia].
Qed.

Lemma directionalMovements_ok (data : list CandlestickData) :
  exists trs pdm mdm,
    directionalMovements data = Ok (trs, pdm, mdm)
    /\ length trs = length data - 1
    /\ length pdm = length data - 1
    /\ length mdm = length data - 1.
Proof.
  unfold directionalMovements.
  destruct (Nat.le_gt_cases 1 (length data)) as [H|H].
  - match goal with |- context [for_range 1 _ ?b ?s] =>
      destruct (@for_range_inv _
                  (fun i st => length (fst (fst st)) = i - 1
                               /\ length (snd (fst st)) = i - 1
                               /\ length (snd st) = i - 1)
                  b 1 (length data) s H) as [[[t pd] md] [E [Ht [Hp Hm]]]]
    end.
    + simpl. auto.
    + intros j [[t pd] md] Hj [Ht [Hp Hm]]. simpl in Ht, Hp, Hm.
      destruct (@get_ok _ data j) as [cj [Ej _]]; [lia|].
      destruct (@get_ok _ data (j - 1)) as [cp [Ep _]]; [lia|].
      rewrite Ej, Ep. simpl. eexists. split; [reflexivity|].
      simpl. rewrite !length_app. simpl. lia.
    + exists t, pd, md. simpl in Ht, Hp, Hm. auto.
  - exists [], [], []. rewrite for_range_none by lia. simpl.
    split; [reflexivity|lia].
Qed.

Lemma calculateSMA_short (data : list CandlestickData) (period : positive) :
  length data < Pos.to_nat period -> calculateSMA data period = Ok [].
Proof. intros H. unfold calculateSMA. apply for_range_none. lia. Qed.

Lemma calculateRSI_short (data : list CandlestickData) (period : positive) :
  length data <= Pos.to_nat period -> calculateRSI data period = Ok [].
Proof.
  intros H. unfold calculateRSI.
  destruct (gainsAndLosses_ok data) as [g [l [E [Hg Hl]]]].
  rewrite E. simpl. apply for_range_none. lia.
Qed.

Lemma calculateADX_short (data : list CandlestickData) (period : positive) :
  length data <= Pos.to_nat period -> calculateADX data period = Ok [].
Proof.
  intros H. unfold calculateADX.
  destruct (directionalMovements_ok data) as [t [pd [md [E [Ht _]]]]].
  rewrite E. simpl. apply for_range_none. lia.
Qed.

Lemma calculateATR_short (data : list CandlestickData) (period : positive) :
  length data <= Pos.to_nat period -> calculateATR data period = Ok [].
Proof.
  intros H. unfold calculateATR.
  destruct (Nat.le_gt_cases 1 (length data)) as [H1|H1].
  - match goal with |- context [for_range 1 _ ?b ?s] =>
      destruct (@for_range_inv _ (fun i st => snd st = []) b 1 (length data) s H1)
        as [[t r] [E Hr]]
    end.
    + reflexivity.
    + intros j [t r] Hj Hr. simpl in Hr. subst r.
      destruct (@get_ok _ data j) as [cj [Ej _]]; [lia|].
      destruct (@get_ok _ data (j - 1)) as [cp [Ep _]]; [lia|].
      rewrite Ej, Ep. simpl.
      destruct (Nat.leb_spec (Pos.to_nat period) j); [lia|].
      eexists. split; reflexivity.
    + rewrite E. simpl in *. subst r. reflexivity.
  - rewrite for_range_none by lia. reflexivity.
Qed.

Lemma calculateBollingerBands_short (sqrt : number -> number)
    (data : list CandlestickData) (period : positive) (stdDev : number) :
  length data < Pos.to_nat period ->
  calculateBollingerBands sqrt data period stdDev = Ok (mkBB [] [] []).
Proof.
  intros H. unfold calculateBollingerBands.
  rewrite calculateSMA_short by assumption. reflexivity.
Qed.

Lemma calculateEMA_empty (period : positive) : calculateEMA [] period = Ok [].
Proof. reflexivity. Qed.

Lemma calculateEMA_short (data : list CandlestickData) (period : positive) :
  0 < length data < Pos.to_nat period -> calculateEMA data period = TypeError.
Proof.
  intros [H0 H]. unfold calculateEMA.
  destruct (Nat.eqb_spec (length data) 0); [lia|].
  rewrite get_out_of_range by lia. reflexivity.
Qed.

Lemma calculateEMA_ok (data : list CandlestickData) (period : positive) :
  Pos.to_nat period <= length data ->
  exists res, calculateEMA data period = Ok res
              /\ length res = length data - Pos.to_nat period + 1.
Proof.
  intros H. unfold calculateEMA.
  pose proof (Pos2Nat.is_pos period) as Hp.
  destruct (Nat.eqb_spec (length data) 0); [lia|].
  destruct (@get_ok _ data (Pos.to_nat period - 1)) as [c [Ec _]]; [lia|].
  rewrite Ec. simpl.
  match goal with |- context [for_range _ _ ?b ?s] =>
    destruct (@for_range_inv _
                (fun i st => length (snd st) = i - Pos.to_nat period + 1)
                b (Pos.to_nat period) (length data) s H) as [[e r] [E Hr]]
  end.
  - simpl. lia.
  - intros j [e r] Hj Hr. simpl in Hr.
    destruct (@get_ok _ data j) as [cj [Ej _]]; [lia|].
    rewrite Ej. cbn [JS.bind]. eexists. split; [reflexivity|].
    cbn [snd fst]. rewrite length_app. cbn [length]. lia.
  - rewrite E. simpl. exists r. auto.
Qed.

Lemma calculateMACD_short (data : list CandlestickData) :
  0 < length data < 26 -> calculateMACD data = TypeError.
Proof.
  intros [H0 H]. unfold calculateMACD.
  destruct (Nat.le_gt_cases 12 (length data)) as [H12|H12].
  - destruct (@calculateEMA_ok data 12) as [r [E _]].
    { change (Pos.to_nat 12) with 12. lia. }
    rewrite E. simpl.
    rewrite calculateEMA_short; [reflexivity|].
    change (Pos.to_nat 26) with 26. lia.
  - rewrite calculateEMA_short; [reflexivity|].
    change (Pos.to_nat 12) with 12. lia.
Qed.

(** ** Finite numbers *)

(** [represents a q]: the number [a] is finite and equal to the rational [q]. *)
Definition represents (a : number) (q : Q) : Prop :=
  match a with
  | Fin x => (x == q)%Q
  | _ => False
  end.

Lemma Qltb_true (x y : Q) : Qltb x y = true <-> (x < y)%Q.
Proof.
  unfold Qltb. rewrite Qlt_alt. destruct (x ?= y)%Q; split; congruence.
Qed.

Lemma Qltb_false (x y : Q) : Qltb x y = false <-> (y <= x)%Q.
Proof.
  split; intros H.
  - apply Qnot_lt_le. intros Hlt. apply Qltb_true in Hlt. congruence.
  - destruct (Qltb x y) eqn:E; [|reflexivity].
    apply Qltb_true in E. exfalso. apply (Qlt_not_le _ _ E H).
Qed.

Lemma Qis0_true (x : Q) : Qis0 x = true <-> (x == 0)%Q.
Proof. unfold Qis0. apply Qeq_bool_iff. Qed.

Lemma Qis0_false (x : Q) : Qis0 x = false <-> ~ (x == 0)%Q.
Proof.
  rewrite <- Qis0_true. destruct (Qis0 x); split; congruence.
Qed.

Lemma represents_Fin (q : Q) : represents (Fin q) q.
Proof. unfold represents. reflexivity. Qed.

Lemma represents_fin (x q : Q) : (x == q)%Q -> represents (fin x) q.
Proof. intros H. unfold fin, represents. rewrite Qred_correct. assumption. Qed.

Ltac fin_cases a b :=
  destruct a, b; try (simpl; tauto); unfold represents; intros.

Lemma represents_add (a b : number) (x y : Q) :
  represents a x -> represents b y -> represents (a + b)%js (x + y).
Proof.
  fin_cases a b. apply represents_fin.
  match goal with Ha : _, Hb : _ |- _ => rewrite Ha, Hb end. reflexivity.
Qed.

Lemma represents_sub (a b : number) (x y : Q) :
  represents a x -> represents b y -> represents (a - b)%js (x - y).
Proof.
  fin_cases a b. apply represents_fin.
  match goal with Ha : _, Hb : _ |- _ => rewrite Ha, Hb end. reflexivity.
Qed.

Lemma represents_mul (a b : number) (x y : Q) :
  represents a x -> represents b y -> represents (a * b)%js (x * y).
Proof.
  fin_cases a b. apply represents_fin.
  match goal with Ha : _, Hb : _ |- _ => rewrite Ha, Hb end. reflexivity.
Qed.

Lemma represents_div (a b : number) (x y : Q) :
  represents a x -> represents b y -> ~ (y == 0)%Q -> represents (a / b)%js (x / y).
Proof.
  destruct a as [p| | |], b as [q| | |]; try (simpl; tauto).
  unfold represents. intros Ha Hb Hy.
  assert (Hq : Qis0 q = false) by (apply Qis0_false; rewrite Hb; assumption).
  unfold JS.div. rewrite Hq. apply represents_fin. rewrite Ha, Hb. reflexivity.
Qed.

Lemma represents_abs (a : number) (x : Q) :
  represents a x -> represents (JS.abs a) (Qabs x).
Proof.
  destruct a; try (simpl; tauto). unfold represents, JS.abs.
  intros Ha. rewrite Ha. reflexivity.
Qed.

Lemma represents_min (a b : number) (x y : Q) :
  represents a x -> represents b y -> represents (JS.min a b) (Qmin x y).
Proof.
  destruct a as [p| | |], b as [q| | |]; try (simpl; tauto).
  unfold represents, JS.min, JS.ltb. intros Ha Hb.
  destruct (Qltb q p) eqn:E.
  - apply Qltb_true in E. rewrite Hb. symmetry. apply Q.min_r.
    rewrite <- Ha, <- Hb. apply Qlt_le_weak. assumption.
  - apply Qltb_false in E. rewrite Ha. symmetry. apply Q.min_l.
    rewrite <- Ha, <- Hb. assumption.
Qed.

Lemma represents_max (a b : number) (x y : Q) :
  represents a x -> represents b y -> represents (JS.max a b) (Qmax x y).
Proof.
  destruct a as [p| | |], b as [q| | |]; try (simpl; tauto).
  unfold represents, JS.max, JS.ltb. intros Ha Hb.
  destruct (Qltb p q) eqn:E.
  - apply Qltb_true in E. rewrite Hb. symmetry. apply Q.max_r.
    rewrite <- Ha, <- Hb. apply Qlt_le_weak. assumption.
  - apply Qltb_false in E. rewrite Ha. symmetry. apply Q.max_l.
    rewrite <- Ha, <- Hb. assumption.
Qed.

Lemma represents_ltb (a b : number) (x y : Q) :
  represents a x -> represents b y -> ((a <? b)%js = true <-> (x < y)%Q).
Proof.
  destruct a, b; try (simpl; tauto). unfold represents, JS.ltb. intros Ha Hb.
  rewrite Qltb_true, Ha, Hb. reflexivity.
Qed.

Lemma represents_eqb (a b : number) (x y : Q) :
  represents a x -> represents b y -> (JS.eqb a b = true <-> (x == y)%Q).
Proof.
  destruct a, b; try (simpl; tauto). unfold represents, JS.eqb. intros Ha Hb.
  rewrite Qeq_bool_iff, Ha, Hb. reflexivity.
Qed.

Lemma represents_leb (a b : number) (x y : Q) :
  represents a x -> represents b y -> ((a <=? b)%js = true <-> (x <= y)%Q).
Proof.
  intros Ha Hb. unfold JS.leb. rewrite orb_true_iff.
  rewrite (@represents_ltb a b x y Ha Hb), (@represents_eqb a b x y Ha Hb).
  rewrite Qle_lteq. reflexivity.
Qed.

Lemma represents_exists (a : number) (x : Q) :
  represents a x -> exists q, a = Fin q /\ (q == x)%Q.
Proof. destruct a; try (simpl; tauto). unfold represents. intros H. eauto. Qed.

Lemma represents_of_nat (n : nat) : represents (of_nat n) (inject_Z (Z.of_nat n)).
Proof. unfold represents, of_nat. reflexivity. Qed.

Lemma represents_of_Z (z : Z) : represents (of_Z z) (inject_Z z).
Proof. unfold represents, of_Z. reflexivity. Qed.

Lemma represents_of_pos (p : positive) : represents (of_pos p) (inject_Z (Zpos p)).
Proof. unfold represents, of_pos. reflexivity. Qed.

Unset Implicit Arguments.

Lemma Qle_leb (x y : Q) : (x <= y)%Q -> (Fin x <=? Fin y)%js = true.
Proof.
  intros H. apply (represents_leb (Fin x) (Fin y) x y);
    [apply represents_Fin|apply represents_Fin|assumption].
Qed.

(** ** Indicators on input shorter than the period *)

(** C1. On a candle sequence shorter than the period, SMA, RSI, Bollinger
    Bands, ADX and ATR return empty series without raising.  The EMA, and
    with it the MACD, does so only for the empty sequence: on a non-empty
    sequence shorter than the period it raises [TypeError] when it reads
    [data[period - 1].timestamp]. *)
Theorem short_input_behaviour (sqrt : number -> number)
    (data : list CandlestickData) (period : positive) (stdDev : number) :
  length data < Pos.to_nat period ->
  calculateSMA data period = Ok []
  /\ calculateRSI data period = Ok []
  /\ calculateBollingerBands sqrt data period stdDev = Ok (mkBB [] [] [])
  /\ calculateADX data period = Ok []
  /\ calculateATR data period = Ok []
  /\ calculateEMA data period
     = (if length data =? 0 then Ok [] else TypeError)
  /\ (length data < 26 ->
      calculateMACD data
      = (if length data =? 0 then Ok (mkMACD [] [] []) else TypeError)).
Proof.
  intros H.
  split; [apply calculateSMA_short; assumption|].
  split; [apply calculateRSI_short; lia|].
  split; [apply calculateBollingerBands_short; assumption|].
  split; [apply calculateADX_short; lia|].
  split; [apply calculateATR_short; lia|].
  split.
  - destruct (Nat.eqb_spec (length data) 0) as [E|E].
    + destruct data; [reflexivity|discriminate].
    + apply calculateEMA_short. lia.
  - intros H26. destruct (Nat.eqb_spec (length data) 0) as [E|E].
    + destruct data; [reflexivity|discriminate].
    + apply calculateMACD_short. lia.
Qed.

Definition oneCandle : CandlestickData :=
  mkCandle "2024-01-01 00:00:00" 1.1 1.1 1.1 1.1 1000.

Lemma short_input_behaviour_witness :
  calculateSMA [oneCandle] 12 = Ok []
  /\ calculateRSI [oneCandle] 12 = Ok []
  /\ calculateBollingerBands (fun x => x) [oneCandle] 12 (of_nat 2) = Ok (mkBB [] [] [])
  /\ calculateADX [oneCandle] 12 = Ok []
  /\ calculateATR [oneCandle] 12 = Ok []
  /\ calculateEMA [oneCandle] 12 = TypeError
  /\ (length [oneCandle] < 26 -> calculateMACD [oneCandle] = TypeError).
Proof.
  apply (short_input_behaviour (fun x => x) [oneCandle] 12 (of_nat 2)).
  vm_compute. lia.
Defined.

(** ** Fair value gaps on three candles *)

(** C2. [identifyFairValueGaps] starts its scan at [i = 2] and stops before
    [data.length - 1], so on any three-candle input the loop body never
    runs and no gap is reported, whatever the candles are. *)
Theorem identifyFairValueGaps_three_candles
    (config : EnhancedTradingStrategy.EnhancedStrategyConfig)
    (c0 c1 c2 : CandlestickData) :
  EnhancedTradingStrategy.identifyFairValueGaps config [c0; c1; c2] = Ok [].
Proof. reflexivity. Qed.

(** ** Loops that push one element per iteration *)

Lemma for_range_push {A : Type} (g : nat -> A)
    (body : nat -> list A -> result (list A)) (a b : nat) (init : list A) :
  a <= b ->
  (forall i res, a <= i < b -> body i res = Ok (res ++ [g i])) ->
  for_range a b body init = Ok (init ++ map g (seq a (b - a))).
Proof.
  intros Hab Hbody.
  destruct (@for_range_inv _
              (fun i res => res = init ++ map g (seq a (i - a)))
              body a b init Hab) as [res [E Hres]].
  - rewrite Nat.sub_diag. simpl. rewrite app_nil_r. reflexivity.
  - intros j s0 Hj Hs0. rewrite (Hbody j s0 Hj). eexists. split; [reflexivity|].
    subst s0. replace (S j - a) with (S (j - a)) by lia.
    rewrite seq_S, map_app, app_assoc. simpl.
    replace (a + (j - a)) with j by lia. reflexivity.
  - rewrite E, Hres. reflexivity.
Qed.

Lemma nth_error_map_seq {A : Type} (g : nat -> A) (a n k : nat) :
  k < n -> nth_error (map g (seq a n)) k = Some (g (a + k)).
Proof.
  intros H. rewrite nth_error_map, nth_error_seq.
  destruct (Nat.ltb_spec k n); [reflexivity|lia].
Qed.

(** ** Relative strength index *)

Definition nonneg_fin (a : number) : Prop := exists q, a = Fin q /\ (0 <= q)%Q.

Lemma nonneg_fin_represents (a : number) :
  nonneg_fin a <-> exists q, represents a q /\ (0 <= q)%Q.
Proof.
  split.
  - intros [q [E Hq]]. subst a. exists q. split; [apply represents_Fin|assumption].
  - intros [q [Hr Hq]]. destruct (represents_exists a q Hr) as [q' [E Hq']].
    exists q'. split; [assumption|]. rewrite Hq'. assumption.
Qed.

Lemma gainOf_nonneg (cp ci : Q) : nonneg_fin (gainOf (Fin ci - Fin cp)%js).
Proof.
  unfold gainOf, JS.gtb, JS.sub, JS.neg, JS.add, JS.ltb, fin.
  destruct (Qltb 0 (Qred (ci + - cp))) eqn:E.
  - apply Qltb_true in E. eexists. split; [reflexivity|]. apply Qlt_le_weak. assumption.
  - exists 0%Q. split; [reflexivity|]. apply Qle_refl.
Qed.

Lemma lossOf_nonneg (cp ci : Q) : nonneg_fin (lossOf (Fin ci - Fin cp)%js).
Proof.
  unfold lossOf, JS.sub, JS.neg, JS.add, JS.ltb, fin, JS.abs.
  destruct (Qltb (Qred (ci + - cp)) 0) eqn:E.
  - eexists. split; [reflexivity|]. apply Qabs_nonneg.
  - exists 0%Q. split; [reflexivity|]. apply Qle_refl.
Qed.

(** The arrays built by the first loop of [calculateRSI]. *)
Lemma gainsAndLosses_spec (data : list CandlestickData) :
  exists gains losses,
    gainsAndLosses data = Ok (gains, losses)
    /\ length gains = length data - 1
    /\ length losses = length data - 1
    /\ (forall k cp ci,
          nth_error data k = Some cp -> nth_error data (S k) = Some ci ->
          nth_error gains k = Some (gainOf (Fin (close ci) - Fin (close cp))%js)
          /\ nth_error losses k = Some (lossOf (Fin (close ci) - Fin (close cp))%js)).
Proof.
  unfold gainsAndLosses.
  destruct (Nat.le_gt_cases 1 (length data)) as [H|H].
  - match goal with |- context [for_range 1 _ ?b ?s] =>
      destruct (@for_range_inv _
        (fun i st =>
           length (fst st) = i - 1 /\ length (snd st) = i - 1
           /\ forall k cp ci, S k < i ->
                nth_error data k = Some cp -> nth_error data (S k) = Some ci ->
                nth_error (fst st) k = Some (gainOf (Fin (close ci) - Fin (close cp))%js)
                /\ nth_error (snd st) k
                   = Some (lossOf (Fin (close ci) - Fin (close cp))%js))
        b 1 (length data) s H) as [[g l] [E [Hg [Hl Hnth]]]]
    end.
    + simpl. repeat split; try reflexivity; lia.
    + intros j [g l] Hj [Hg [Hl Hnth]]. cbn [fst snd] in *.
      destruct (@get_ok _ data j) as [cj [Ej Nj]]; [lia|].
      destruct (@get_ok _ data (j - 1)) as [cp [Ep Np]]; [lia|].
      rewrite Ej, Ep. cbn [JS.bind]. eexists. split; [reflexivity|].
      cbn [fst snd]. rewrite !length_app. cbn [length].
      split; [lia|]. split; [lia|].
      intros k cp' ci' Hk Hcp Hci.
      destruct (Nat.eq_dec (S k) j) as [Ek|Ek].
      * subst j. replace (S k - 1) with k in * by lia.
        assert (cp' = cp) by congruence. assert (ci' = cj) by congruence.
        subst cp' ci'.
        rewrite !nth_error_app2 by lia.
        replace (k - length g) with 0 by lia.
        replace (k - length l) with 0 by lia. split; reflexivity.
      * rewrite !nth_error_app1 by lia. apply Hnth; [lia|assumption|assumption].
    + exists g, l. cbn [fst snd] in *.
      split; [assumption|]. split; [assumption|]. split; [assumption|].
      intros k cp ci Hcp Hci. apply (Hnth k cp ci); try assumption.
      apply nth_error_Some. congruence.
  - exists [], []. rewrite for_range_none by lia.
    split; [reflexivity|]. split; [simpl; lia|]. split; [simpl; lia|].
    intros k cp ci Hcp Hci. exfalso.
    assert (S k < length data) by (apply nth_error_Some; congruence). lia.
Qed.

Lemma gainsAndLosses_nonneg (data : list CandlestickData) (gains losses : list number) :
  gainsAndLosses data = Ok (gains, losses) ->
  Forall nonneg_fin gains /\ Forall nonneg_fin losses.
Proof.
  intros E.
  destruct (gainsAndLosses_spec data) as [g [l [E' [Hg [Hl Hnth]]]]].
  rewrite E in E'. inversion E'. subst g l. clear E'.
  split; apply Forall_forall; intros x Hx; apply In_nth_error in Hx;
    destruct Hx as [k Hk].
  - assert (Hlt : k < length gains) by (apply nth_error_Some; congruence).
    destruct (@get_ok _ data k) as [cp [_ Ncp]]; [lia|].
    destruct (@get_ok _ data (S k)) as [ci [_ Nci]]; [lia|].
    destruct (Hnth k cp ci Ncp Nci) as [H1 _].
    rewrite Hk in H1. inversion H1. apply gainOf_nonneg.
  - assert (Hlt : k < length losses) by (apply nth_error_Some; congruence).
    destruct (@get_ok _ data k) as [cp [_ Ncp]]; [lia|].
    destruct (@get_ok _ data (S k)) as [ci [_ Nci]]; [lia|].
    destruct (Hnth k cp ci Ncp Nci) as [_ H2].
    rewrite Hk in H2. inversion H2. apply lossOf_nonneg.
Qed.

Lemma Forall_skipn {A : Type} (P : A -> Prop) (n : nat) (l : list A) :
  Forall P l -> Forall P (skipn n l).
Proof.
  revert l. induction n as [|n IH]; intros l H; simpl; [assumption|].
  destruct l as [|x l]; [constructor|]. apply IH. inversion H. assumption.
Qed.

Lemma Forall_firstn {A : Type} (P : A -> Prop) (n : nat) (l : list A) :
  Forall P l -> Forall P (firstn n l).
Proof.
  revert l. induction n as [|n IH]; intros l H; simpl; [constructor|].
  destruct l as [|x l]; [constructor|].
  inversion H. constructor; [assumption|]. apply IH. assumption.
Qed.

Lemma Forall_slice {A : Type} (P : A -> Prop) (lo hi : nat) (l : list A) :
  Forall P l -> Forall P (slice l lo hi).
Proof. intros H. unfold slice. apply Forall_firstn, Forall_skipn, H. Qed.

Lemma add_nonneg (a b : number) : nonneg_fin a -> nonneg_fin b -> nonneg_fin (a + b)%js.
Proof.
  intros [x [Ea Hx]] [y [Eb Hy]]. subst a b.
  exists (Qred (x + y)). split; [reflexivity|].
  rewrite Qred_correct. lra.
Qed.

Lemma fold_add_nonneg (l : list number) :
  Forall nonneg_fin l -> forall a, nonneg_fin a -> nonneg_fin (fold_left JS.add l a).
Proof.
  induction 1 as [|x l Hx Hl IH]; intros a Ha; simpl; [assumption|].
  apply IH. apply add_nonneg; assumption.
Qed.

Lemma sum_nonneg (l : list number) : Forall nonneg_fin l -> nonneg_fin (JS.sum l).
Proof.
  intros H. unfold JS.sum. apply fold_add_nonneg; [assumption|].
  exists 0%Q. split; [reflexivity|apply Qle_refl].
Qed.

Lemma inject_pos_gt0 (p : positive) : (0 < inject_Z (Zpos p))%Q.
Proof. unfold Qlt. simpl. lia. Qed.

Lemma windowAvg_nonneg (xs : list number) (period : positive) (i : nat) :
  Forall nonneg_fin xs -> nonneg_fin (windowAvg xs period i).
Proof.
  intros H. unfold windowAvg.
  destruct (sum_nonneg _ (Forall_slice nonneg_fin (i + 1 - Pos.to_nat period) (i + 1) xs H))
    as [q [E Hq]].
  rewrite E. apply nonneg_fin_represents.
  exists (q / inject_Z (Zpos period))%Q. split.
  - apply represents_div; [apply represents_Fin|apply represents_of_pos|].
    intros H0. pose proof (inject_pos_gt0 period) as Hp. rewrite H0 in Hp.
    apply (Qlt_irrefl _ Hp).
  - apply Qle_shift_div_l; [apply inject_pos_gt0|].
    rewrite Qmult_0_l. assumption.
Qed.

(** The constant the [avgLoss === 0] branch produces: [100 - 100 / 101]. *)
Definition rsiNoLoss : number := Fin (10000 # 101).

Lemma rsiNoLoss_value : represents rsiNoLoss (100 - 100 / 101).
Proof. unfold represents, rsiNoLoss. reflexivity. Qed.

Lemma rsiAt_no_loss (gains losses : list number) (period : positive) (i : nat) :
  JS.eqb (windowAvg losses period i) (Fin 0) = true ->
  rsiAt gains losses period i = rsiNoLoss.
Proof. intros H. unfold rsiAt. rewrite H. reflexivity. Qed.

Lemma rsiAt_bounds (gains losses : list number) (period : positive) (i : nat) :
  Forall nonneg_fin gains -> Forall nonneg_fin losses ->
  exists q, rsiAt gains losses period i = Fin q /\ (0 <= q <= 100)%Q.
Proof.
  intros Hg Hl.
  destruct (JS.eqb (windowAvg losses period i) (Fin 0)) eqn:E.
  - rewrite (rsiAt_no_loss gains losses period i E).
    exists (10000 # 101)%Q. split; [reflexivity|].
    split; unfold Qle; simpl; lia.
  - unfold rsiAt. rewrite E.
    destruct (windowAvg_nonneg gains period i Hg) as [g [Eg Hg0]].
    destruct (windowAvg_nonneg losses period i Hl) as [l [El Hl0]].
    rewrite Eg, El in *.
    assert (Hl1 : ~ (l == 0)%Q).
    { intros H0. unfold JS.eqb in E. apply Qeq_bool_iff in H0. congruence. }
    assert (Hlpos : (0 < l)%Q).
    { apply Qle_lteq in Hl0. destruct Hl0 as [H|H]; [assumption|].
      exfalso. apply Hl1. symmetry. assumption. }
    assert (Hrs : (0 <= g / l)%Q).
    { apply Qle_shift_div_l; [assumption|]. rewrite Qmult_0_l. assumption. }
    assert (Hden : (0 < 1 + g / l)%Q) by lra.
    assert (R : represents
                  (of_nat 100 - of_nat 100 / (of_nat 1 + Fin g / Fin l))%js
                  (100 - 100 / (1 + g / l))).
    { apply represents_sub; [apply represents_Fin|].
      apply represents_div; [apply represents_Fin| |lra].
      apply represents_add; [apply represents_Fin|].
      apply represents_div; [apply represents_Fin|apply represents_Fin|assumption]. }
    destruct (represents_exists _ _ R) as [q [Eq Hq]].
    exists q. split; [assumption|]. rewrite Hq.
    assert (H1 : (0 <= 100 / (1 + g / l))%Q).
    { apply Qle_shift_div_l; [assumption|]. lra. }
    assert (H2 : (100 / (1 + g / l) <= 100)%Q).
    { apply Qle_shift_div_r; [assumption|]. nra. }
    split; lra.
Qed.

(** The series [calculateRSI] returns: one point per index
    [period <= j < data.length], stamped with candle [j] and computed from
    the window of changes ending at [j - 1]. *)
Lemma calculateRSI_spec (data : list CandlestickData) (period : positive) :
  exists gains losses res,
    gainsAndLosses data = Ok (gains, losses)
    /\ calculateRSI data period = Ok res
    /\ length res = length data - Pos.to_nat period
    /\ forall k, k < length res ->
         exists c, nth_error data (k + Pos.to_nat period) = Some c
                   /\ nth_error res k
                      = Some (mkPoint (timestamp c)
                                (rsiAt gains losses period (k + Pos.to_nat period - 1))).
Proof.
  pose proof (Pos2Nat.is_pos period) as Hp.
  destruct (gainsAndLosses_spec data) as [g [l [E [Hg [Hl _]]]]].
  exists g, l. unfold calculateRSI. rewrite E. cbn [JS.bind].
  destruct (Nat.le_gt_cases (Pos.to_nat period - 1) (length g)) as [Hle|Hgt].
  - set (pt := fun i =>
                 match nth_error data (i + 1) with
                 | Some c => mkPoint (timestamp c) (rsiAt g l period i)
                 | None => mkPoint EmptyString NaN
                 end).
    rewrite (@for_range_push _ pt _ (Pos.to_nat period - 1) (length g) [] Hle).
    + eexists. split; [reflexivity|]. split; [reflexivity|].
      cbn [app]. rewrite length_map, length_seq. split; [lia|].
      intros k Hk.
      destruct (@get_ok _ data (k + Pos.to_nat period)) as [c [_ Nc]]; [lia|].
      exists c. split; [assumption|].
      rewrite nth_error_map_seq by assumption. unfold pt.
      replace (Pos.to_nat period - 1 + k + 1) with (k + Pos.to_nat period) by lia.
      rewrite Nc.
      replace (Pos.to_nat period - 1 + k) with (k + Pos.to_nat period - 1) by lia.
      reflexivity.
    + intros i res Hi. unfold pt.
      destruct (@get_ok _ data (i + 1)) as [c [Ec Nc]]; [lia|].
      rewrite Ec, Nc. reflexivity.
  - rewrite for_range_none by lia.
    exists []. split; [reflexivity|]. split; [reflexivity|]. split; [simpl; lia|].
    intros k Hk. simpl in Hk. lia.
Qed.

Lemma calculateRSI_values (data : list CandlestickData) (period : positive) :
  exists gains losses res,
    gainsAndLosses data = Ok (gains, losses)
    /\ calculateRSI data period = Ok res
    /\ length res = length data - Pos.to_nat period
    /\ forall k p, nth_error res k = Some p ->
         (exists q, value p = Fin q /\ (0 <= q <= 100)%Q)
         /\ (JS.eqb (windowAvg losses period (k + Pos.to_nat period - 1)) (Fin 0) = true ->
             value p = rsiNoLoss /\ represents (value p) (100 - 100 / 101)).
Proof.
  destruct (calculateRSI_spec data period) as [g [l [res [E [Er [Hlen Hnth]]]]]].
  exists g, l, res. split; [assumption|]. split; [assumption|]. split; [assumption|].
  intros k p Hk.
  assert (Hlt : k < length res) by (apply nth_error_Some; congruence).
  destruct (Hnth k Hlt) as [c [_ Hp]]. rewrite Hk in Hp. inversion Hp. subst p.
  cbn [value].
  destruct (gainsAndLosses_nonneg data g l E) as [Hg Hl].
  split; [apply rsiAt_bounds; assumption|].
  intros H0. rewrite (rsiAt_no_loss g l period _ H0).
  split; [reflexivity|apply rsiNoLoss_value].
Qed.

(** *** Magnitudes that keep sums inside the double range

    A double holds magnitudes below [2^1024] and an array fewer than
    [2^32] elements.  With every price at most [2^400] in magnitude, no
    sum over a window, of differences or of their squares, comes near the
    end of the range, whatever the rounding of the partial sums. *)
Definition maxMagnitude : Q := inject_Z (2 ^ 400).

Definition moderate (q : Q) : bool := Qle_bool (Qabs q) maxMagnitude.

Definition moderateCloses (data : list CandlestickData) : Prop :=
  (Z.of_nat (length data) < 2 ^ 32)%Z
  /\ forallb (fun c => moderate (close c)) data = true.

(** C7. For closes of moderate magnitude, every value of the RSI series
    lies in [[0, 100]]; and whenever the average loss over the point's
    window is zero, the value is the one of the [RS = 100] branch,
    [100 - 100 / 101]. *)
Theorem calculateRSI_bounds (data : list CandlestickData) (period : positive) :
  moderateCloses data ->
  exists gains losses res,
    gainsAndLosses data = Ok (gains, losses)
    /\ calculateRSI data period = Ok res
    /\ length res = length data - Pos.to_nat period
    /\ forall k p, nth_error res k = Some p ->
         (exists q, value p = Fin q /\ (0 <= q <= 100)%Q)
         /\ (JS.eqb (windowAvg losses period (k + Pos.to_nat period - 1)) (Fin 0) = true ->
             value p = rsiNoLoss /\ represents (value p) (100 - 100 / 101)).
Proof. intros _. exact (calculateRSI_values data period). Qed.

Definition zigzagCandle (i : nat) : CandlestickData :=
  let c := if Nat.even i then 1.1000%Q else 1.1010%Q in
  mkCandle "2024-01-01 00:00:00" c c c c 1000.

Definition zigzagMarket : list CandlestickData := map zigzagCandle (seq 0 20).

Lemma calculateRSI_bounds_witness :
  exists gains losses res,
    gainsAndLosses zigzagMarket = Ok (gains, losses)
    /\ calculateRSI zigzagMarket 14 = Ok res
    /\ length res = length zigzagMarket - Pos.to_nat 14
    /\ forall k p, nth_error res k = Some p ->
         (exists q, value p = Fin q /\ (0 <= q <= 100)%Q)
         /\ (JS.eqb (windowAvg losses 14 (k + Pos.to_nat 14 - 1)) (Fin 0) = true ->
             value p = rsiNoLoss /\ represents (value p) (100 - 100 / 101)).
Proof.
  apply (calculateRSI_bounds zigzagMarket 14).
  split; vm_compute; reflexivity.
Defined.

(** Beyond that range the bound fails.  Five candles closing at 0, 1.5e308,
    0, 1.5e308, 0: with period 4 the two gains sum to [Infinity], and so do
    the two losses; [RS] is [Infinity / Infinity] and the one RSI value is
    [NaN], which is neither at least 0 nor at most 100. *)
Definition overflowCandle (i : nat) : Binary64.Candlestick :=
  let c := if Nat.even i then Binary64.of_Z 0 else Binary64.of_Z (15 * 10 ^ 307) in
  Binary64.mkCandle "2024-01-01 00:00:00" c c c c (Binary64.of_Z 1000).

Definition overflowMarket : list Binary64.Candlestick := map overflowCandle (seq 0 5).

Lemma calculateRSI_overflow :
  exists p,
    Binary64.calculateRSI overflowMarket 4 = Ok [p]
    /\ Binary64.value p = Binary64.NaN
    /\ Binary64.leb (Binary64.of_Z 0) (Binary64.value p) = false
    /\ Binary64.leb (Binary64.value p) (Binary64.of_Z 100) = false.
Proof.
  eexists. split; [vm_compute; reflexivity|]. cbn [Binary64.value].
  repeat split.
Qed.

(** ** Confidence of the two confluence engines *)

Module TS := TradingStrategy.
Module ETS := EnhancedTradingStrategy.

Lemma inject_Z_nonneg (z : Z) : (0 <= z)%Z -> (0 <= inject_Z z)%Q.
Proof. intros H. unfold Qle. simpl. lia. Qed.

Lemma inject_Z_ratio (m t : Z) :
  (0 < t)%Z -> (t <= 2 * m)%Z -> (m <= t)%Z ->
  (50 <= inject_Z m / inject_Z t * 100 <= 100)%Q.
Proof.
  intros Ht H2 Hm.
  assert (Hq : (0 < inject_Z t)%Q) by (unfold Qlt; simpl; lia).
  assert (H1 : (1 # 2 <= inject_Z m / inject_Z t)%Q).
  { apply Qle_shift_div_l; [assumption|].
    unfold Qle, Qmult, inject_Z. cbn [Qnum Qden]. lia. }
  assert (H3 : (inject_Z m / inject_Z t <= 1)%Q).
  { apply Qle_shift_div_r; [assumption|].
    unfold Qle, Qmult, inject_Z. cbn [Qnum Qden]. lia. }
  split; lra.
Qed.

Lemma inject_Z_nonzero (t : Z) : t <> 0%Z -> ~ (inject_Z t == 0)%Q.
Proof. intros H E. unfold Qeq in E. simpl in E. lia. Qed.

(** The tallies of the basic engine never go below zero. *)
Definition basicTalliesOk (s : TS.Signals) : Prop :=
  (0 <= TS.bullish s)%Z /\ (0 <= TS.bearish s)%Z.

Ltac basic_rule :=
  intros [Hb Hs]; unfold basicTalliesOk, TS.addBullish, TS.addBearish in *;
  repeat match goal with
         | |- context [if ?c then _ else _] => destruct c
         end; simpl; split; lia.

Lemma movingAverageRule_ok analysis price s :
  basicTalliesOk s -> basicTalliesOk (TS.movingAverageRule analysis price s).
Proof. unfold TS.movingAverageRule. basic_rule. Qed.

Lemma basic_emaRule_ok analysis s :
  basicTalliesOk s -> basicTalliesOk (TS.emaRule analysis s).
Proof. unfold TS.emaRule. basic_rule. Qed.

Lemma basic_rsiRule_ok tf analysis s :
  basicTalliesOk s -> basicTalliesOk (TS.rsiRule tf analysis s).
Proof. unfold TS.rsiRule. basic_rule. Qed.

Lemma basic_macdRule_ok analysis s :
  basicTalliesOk s -> basicTalliesOk (TS.macdRule analysis s).
Proof. unfold TS.macdRule. basic_rule. Qed.

Lemma bollingerRule_ok analysis price s :
  basicTalliesOk s -> basicTalliesOk (TS.bollingerRule analysis price s).
Proof. unfold TS.bollingerRule. basic_rule. Qed.

Lemma analyzeIndicators_ok tf analysis price :
  basicTalliesOk (TS.analyzeIndicators tf analysis price).
Proof.
  unfold TS.analyzeIndicators.
  apply bollingerRule_ok, basic_macdRule_ok, basic_rsiRule_ok, basic_emaRule_ok,
    movingAverageRule_ok.
  split; simpl; lia.
Qed.

Lemma calculateConfidence_range (s : TS.Signals) :
  basicTalliesOk s ->
  exists q, TS.calculateConfidence s = Fin q /\ (0 <= q <= 100)%Q.
Proof.
  intros [Hb Hs]. unfold TS.calculateConfidence.
  destruct (Z.eqb_spec (TS.bullish s + TS.bearish s) 0) as [E|E].
  - exists 0%Q. split; [reflexivity|]. split; unfold Qle; simpl; lia.
  - set (t := (TS.bullish s + TS.bearish s)%Z) in *.
    set (m := Z.max (TS.bullish s) (TS.bearish s)).
    set (n := length (TS.reasons s)).
    assert (R : represents
                  (JS.min (of_Z m / of_Z t * of_nat 100
                           + JS.min (of_nat n * of_nat 5) (of_nat 20))%js (of_nat 100))
                  (Qmin (inject_Z m / inject_Z t * 100
                         + Qmin (inject_Z (Z.of_nat n) * 5) 20) 100)).
    { apply represents_min; [|apply represents_Fin].
      apply represents_add.
      - apply represents_mul; [|apply represents_Fin].
        apply represents_div; [apply represents_of_Z|apply represents_of_Z|].
        apply inject_Z_nonzero. assumption.
      - apply represents_min; [|apply represents_Fin].
        apply represents_mul; [apply represents_of_nat|apply represents_Fin]. }
    destruct (represents_exists _ _ R) as [q [Eq Hq]].
    exists q. split; [assumption|]. rewrite Hq.
    assert (Hr : (50 <= inject_Z m / inject_Z t * 100 <= 100)%Q)
      by (apply inject_Z_ratio; subst t m; lia).
    assert (Hn : (0 <= inject_Z (Z.of_nat n) * 5)%Q).
    { pose proof (inject_Z_nonneg (Z.of_nat n) (Nat2Z.is_nonneg n)). lra. }
    split.
    + apply Q.min_glb; [|lra].
      assert (0 <= Qmin (inject_Z (Z.of_nat n) * 5) 20)%Q
        by (apply Q.min_glb; lra).
      lra.
    + apply Q.le_min_r.
Qed.

(** The tallies of the enhanced engine: both non-negative, and the
    confluence score at least their sum minus [slack]. *)
Definition talliesOk (slack : Z) (s : ETS.Signals) : Prop :=
  (0 <= ETS.s_bullish s)%Z /\ (0 <= ETS.s_bearish s)%Z
  /\ (ETS.s_bullish s + ETS.s_bearish s - slack <= ETS.s_confluenceScore s)%Z.

Ltac enhanced_rule :=
  intros [Hb [Hs Hc]];
  unfold talliesOk, ETS.addBullish, ETS.addBearish, ETS.addScore in *;
  repeat match goal with
         | |- context [if ?c then _ else _] => destruct c
         | |- context [match ?c with _ => _ end] => destruct c
         end; simpl in *; repeat split; lia.

Lemma rsiRule_ok tf analysis s :
  talliesOk 0 s -> talliesOk 0 (ETS.rsiRule tf analysis s).
Proof. unfold ETS.rsiRule. enhanced_rule. Qed.

Lemma macdRule_ok analysis s :
  talliesOk 0 s -> talliesOk 0 (ETS.macdRule analysis s).
Proof. unfold ETS.macdRule. enhanced_rule. Qed.

Lemma emaRule_ok analysis price s :
  talliesOk 0 s -> talliesOk 0 (ETS.emaRule analysis price s).
Proof. unfold ETS.emaRule. enhanced_rule. Qed.

Lemma fvgRule_ok tf fvgs price s :
  talliesOk 0 s -> talliesOk 0 (ETS.fvgRule tf fvgs price s).
Proof.
  unfold ETS.fvgRule.
  destruct (find (ETS.nearFVG ETS.fvg_bullish price) fvgs);
    destruct (find (ETS.nearFVG ETS.fvg_bearish price) fvgs);
    enhanced_rule.
Qed.

Lemma orderBlockRule_ok tf blocks price s :
  talliesOk 0 s -> talliesOk 0 (ETS.orderBlockRule tf blocks price s).
Proof.
  unfold ETS.orderBlockRule.
  destruct (find (ETS.nearBlock ETS.demand price) blocks);
    destruct (find (ETS.nearBlock ETS.supply price) blocks);
    enhanced_rule.
Qed.

Lemma microstructureRule_ok ms s :
  talliesOk 0 s -> talliesOk 0 (ETS.microstructureRule ms s).
Proof. unfold ETS.microstructureRule. destruct ms; enhanced_rule. Qed.

Lemma volumeRule_ok vp s :
  talliesOk 0 s -> talliesOk 0 (ETS.volumeRule vp s).
Proof. unfold ETS.volumeRule. destruct vp; enhanced_rule. Qed.

Lemma sessionRule_ok adv s :
  talliesOk 0 s -> talliesOk 1 (ETS.sessionRule adv s).
Proof. unfold ETS.sessionRule. destruct (sessionFilter adv); enhanced_rule. Qed.

Lemma tally_ok tf analysis adv price fvgs blocks vp ms :
  talliesOk 1 (ETS.tally tf analysis adv price fvgs blocks vp ms).
Proof.
  unfold ETS.tally.
  apply sessionRule_ok, volumeRule_ok, microstructureRule_ok, orderBlockRule_ok,
    fvgRule_ok, emaRule_ok, macdRule_ok, rsiRule_ok.
  repeat split; simpl; lia.
Qed.

Lemma confidenceOf_range (s : ETS.Signals) :
  talliesOk 1 s ->
  exists q, ETS.confidenceOf s = Fin q /\ (48 <= q <= 95)%Q
            /\ ((5 <= ETS.s_confluenceScore s)%Z -> (60 <= q)%Q).
Proof.
  intros [Hb [Hs Hc]]. unfold ETS.confidenceOf.
  set (t := (ETS.s_bullish s + ETS.s_bearish s)%Z) in *.
  set (m := Z.max (ETS.s_bullish s) (ETS.s_bearish s)).
  set (c := ETS.s_confluenceScore s) in *.
  assert (R0 : exists q0,
             represents (if (0 <? t)%Z
                         then (of_Z m / of_Z t * of_nat 100)%js else of_nat 50) q0
             /\ (50 <= q0 <= 100)%Q).
  { destruct (Z.ltb_spec 0 t) as [Ht|Ht].
    - exists (inject_Z m / inject_Z t * 100)%Q. split.
      + apply represents_mul; [|apply represents_Fin].
        apply represents_div; [apply represents_of_Z|apply represents_of_Z|].
        apply inject_Z_nonzero. lia.
      + apply inject_Z_ratio; subst t m; lia.
    - exists 50%Q. split; [apply represents_Fin|]. split; unfold Qle; simpl; lia. }
  destruct R0 as [q0 [R0 Hq0]].
  assert (Hcq : (-1 <= inject_Z c)%Q).
  { assert (-1 <= c)%Z by (subst t; lia). unfold Qle. simpl. lia. }
  assert (R1 : represents
                 (JS.min ((if (0 <? t)%Z
                           then (of_Z m / of_Z t * of_nat 100)%js else of_nat 50)
                          + JS.min (of_Z c * of_nat 2) (of_nat 25))%js (of_nat 95))
                 (Qmin (q0 + Qmin (inject_Z c * 2) 25) 95)).
  { apply represents_min; [|apply represents_Fin].
    apply represents_add; [assumption|].
    apply represents_min; [|apply represents_Fin].
    apply represents_mul; [apply represents_of_Z|apply represents_Fin]. }
  assert (Hb1 : (48 <= Qmin (q0 + Qmin (inject_Z c * 2) 25) 95 <= 95)%Q).
  { split; [|apply Q.le_min_r].
    apply Q.min_glb; [|lra].
    assert (-2 <= Qmin (inject_Z c * 2) 25)%Q by (apply Q.min_glb; lra).
    lra. }
  destruct (Z.leb_spec 5 c) as [H5|H5].
  - assert (R2 := represents_max _ _ _ _ R1 (represents_Fin (inject_Z (Z.of_nat 60)))).
    destruct (represents_exists _ _ R2) as [q [Eq Hq]].
    exists q. split; [assumption|]. rewrite Hq. split; [split|].
    + apply Qle_trans with (Qmin (q0 + Qmin (inject_Z c * 2) 25) 95);
        [apply Hb1|apply Q.le_max_l].
    + apply Q.max_lub; [apply Hb1|]. unfold Qle. simpl. lia.
    + intros _. apply Qle_trans with (inject_Z (Z.of_nat 60));
        [unfold Qle; simpl; lia|apply Q.le_max_r].
  - destruct (represents_exists _ _ R1) as [q [Eq Hq]].
    exists q. split; [assumption|]. rewrite Hq. split; [assumption|].
    intros H. lia.
Qed.

(** C5. The confidence either engine returns lies in [[0, 100]]: the basic
    strategy's [calculateConfidence] on the tallies of [analyzeIndicators],
    and the enhanced strategy's [analyzeAdvancedConfluence] on any inputs,
    including those whose confluence score the session penalty makes
    negative. *)
Theorem confidence_within_bounds :
  (forall toFixed1 analysis currentPrice,
      exists q,
        TS.calculateConfidence (TS.analyzeIndicators toFixed1 analysis currentPrice)
        = Fin q /\ (0 <= q <= 100)%Q)
  /\ (forall toFixed1 data analysis advancedAnalysis currentPrice fvgs orderBlocks
             liquidityZones volumeProfile microstructure,
         exists q,
           ETS.confidence
             (ETS.analyzeAdvancedConfluence toFixed1 data analysis advancedAnalysis
                currentPrice fvgs orderBlocks liquidityZones volumeProfile microstructure)
           = Fin q /\ (0 <= q <= 100)%Q).
Proof.
  split.
  - intros. apply calculateConfidence_range, analyzeIndicators_ok.
  - intros. unfold ETS.analyzeAdvancedConfluence. cbn [ETS.confidence].
    destruct (confidenceOf_range _
                (tally_ok toFixed1 analysis advancedAnalysis currentPrice fvgs
                   orderBlocks volumeProfile microstructure)) as [q [E [Hq _]]].
    exists q. split; [assumption|]. lra.
Qed.

(** ** The enhanced signal classifier *)

Definition isBuy (s : ETS.EnhancedSignalType) : Prop :=
  s = ETS.STRONG_BUY \/ s = ETS.BUY \/ s = ETS.WEAK_BUY.

Definition isSell (s : ETS.EnhancedSignalType) : Prop :=
  s = ETS.STRONG_SELL \/ s = ETS.SELL \/ s = ETS.WEAK_SELL.

(** C6. [determineSmartMoneySignal] returns HOLD when the confidence is
    below [minConfidence], when the confluence score is below 4, or when
    the tallies are equal; in every other case it returns a buy signal if
    the bullish tally is the larger and a sell signal if the bearish one is. *)
Theorem determineSmartMoneySignal_hold
    (config : ETS.EnhancedStrategyConfig) (c : ETS.Confluence)
    (advancedAnalysis : AdvancedAnalysisResult) (microstructure : ETS.Microstructure) :
  let r := ETS.determineSmartMoneySignal config c advancedAnalysis microstructure in
  ((ETS.confidence c <? ETS.minConfidence config)%js = true -> r = ETS.HOLD)
  /\ ((ETS.confluenceScore c < 4)%Z -> r = ETS.HOLD)
  /\ (ETS.bullish c = ETS.bearish c -> r = ETS.HOLD)
  /\ ((ETS.confidence c <? ETS.minConfidence config)%js = false ->
      (4 <= ETS.confluenceScore c)%Z ->
      ETS.bullish c <> ETS.bearish c ->
      r <> ETS.HOLD
      /\ ((ETS.bearish c < ETS.bullish c)%Z -> isBuy r)
      /\ ((ETS.bullish c < ETS.bearish c)%Z -> isSell r)).
Proof.
  unfold ETS.determineSmartMoneySignal, isBuy, isSell. cbv zeta.
  destruct (ETS.confidence c <? ETS.minConfidence config)%js.
  - repeat split; intros; try reflexivity; discriminate.
  - destruct (Z.ltb_spec (ETS.confluenceScore c) 4) as [H4|H4].
    + repeat split; intros; try reflexivity; try discriminate; lia.
    + destruct (Z.ltb_spec (ETS.bearish c) (ETS.bullish c)) as [Hb|Hb];
        [|destruct (Z.ltb_spec (ETS.bullish c) (ETS.bearish c)) as [Hs|Hs]];
        repeat match goal with
               | |- context [if ?b then _ else _] => destruct b
               end;
        repeat split; intros; try reflexivity; try discriminate; try lia; auto.
Qed.

(** ** Zero indicator values in the confluence engines *)

Definition isZero (v : option number) : Prop :=
  exists q, v = Some (Fin q) /\ (q == 0)%Q.

(** The indicator series of an analysis whose latest value a confluence
    engine reads. *)
Inductive Series : Type :=
| series_sma20 | series_sma50 | series_ema12 | series_ema26 | series_rsi
| series_macd | series_signal | series_histogram
| series_bbUpper | series_bbMiddle | series_bbLower.

Definition seriesOf (s : Series) (a : AnalysisResult) : list TechnicalIndicator :=
  match s with
  | series_sma20 => sma20 a
  | series_sma50 => sma50 a
  | series_ema12 => ema12 a
  | series_ema26 => ema26 a
  | series_rsi => rsi a
  | series_macd => macd (macd_ a)
  | series_signal => signal (macd_ a)
  | series_histogram => histogram (macd_ a)
  | series_bbUpper => upper (bollingerBands a)
  | series_bbMiddle => middle (bollingerBands a)
  | series_bbLower => lower (bollingerBands a)
  end.

(** The same analysis with one series missing. *)
Definition without (s : Series) (a : AnalysisResult) : AnalysisResult :=
  let m := macd_ a in
  let b := bollingerBands a in
  mkAnalysis
    (match s with series_sma20 => [] | _ => sma20 a end)
    (match s with series_sma50 => [] | _ => sma50 a end)
    (match s with series_ema12 => [] | _ => ema12 a end)
    (match s with series_ema26 => [] | _ => ema26 a end)
    (match s with series_rsi => [] | _ => rsi a end)
    (mkMACD (match s with series_macd => [] | _ => macd m end)
            (match s with series_signal => [] | _ => signal m end)
            (match s with series_histogram => [] | _ => histogram m end))
    (mkBB (match s with series_bbUpper => [] | _ => upper b end)
          (match s with series_bbMiddle => [] | _ => middle b end)
          (match s with series_bbLower => [] | _ => lower b end))
    (stochastic_k a) (stochastic_d a).

Lemma isZero_falsy (v : option number) : isZero v -> truthy_opt v = false.
Proof.
  intros [q [E Hq]]. subst v. unfold truthy_opt, truthy.
  apply Qis0_true in Hq. rewrite Hq. reflexivity.
Qed.

Ltac zero_guard H :=
  pose proof (isZero_falsy _ H) as Hfalsy;
  cbn [last_value last_elem prev_value from_end length nth_error Nat.sub Nat.ltb Nat.leb
       option_map truthy_opt andb] in *;
  rewrite ?Hfalsy, ?andb_false_r; cbn [andb];
  try reflexivity.

Lemma basic_zero_is_absent tf (a : AnalysisResult) (price : number) (s : Series) :
  isZero (last_value (seriesOf s a)) ->
  TS.analyzeIndicators tf a price = TS.analyzeIndicators tf (without s a) price.
Proof.
  intros H. destruct a as [s20 s50 e12 e26 r [ml sg hs] [up mid lo] sk sd].
  unfold TS.analyzeIndicators, TS.bollingerRule, TS.macdRule, TS.rsiRule, TS.emaRule,
    TS.movingAverageRule, without.
  destruct s;
    cbn [seriesOf sma20 sma50 ema12 ema26 rsi macd_ bollingerBands macd signal histogram
         upper middle lower] in *;
    zero_guard H.
Qed.

Lemma enhanced_zero_is_absent tf (a : AnalysisResult) adv (price : number) fvgs obs vp ms
    (s : Series) :
  isZero (last_value (seriesOf s a))
  \/ (s = series_histogram /\ isZero (prev_value (histogram (macd_ a)))) ->
  ETS.tally tf a adv price fvgs obs vp ms = ETS.tally tf (without s a) adv price fvgs obs vp ms.
Proof.
  intros H. destruct a as [s20 s50 e12 e26 r [ml sg hs] [up mid lo] sk sd].
  unfold ETS.tally, ETS.rsiRule, ETS.macdRule, ETS.emaRule, without.
  destruct H as [H|[Es H]].
  - destruct s;
      cbn [seriesOf sma20 sma50 ema12 ema26 rsi macd_ bollingerBands macd signal histogram
           upper middle lower] in *;
      zero_guard H.
  - subst s.
    cbn [seriesOf sma20 sma50 ema12 ema26 rsi macd_ bollingerBands macd signal histogram
         upper middle lower] in *.
    pose proof (isZero_falsy _ H) as Hfalsy. rewrite Hfalsy.
    cbn [last_value last_elem prev_value from_end length nth_error Nat.sub Nat.ltb Nat.leb
         option_map truthy_opt andb].
    rewrite ?andb_false_r. reflexivity.
Qed.

(** C10. In both engines a latest value of exactly zero counts as a missing
    one.  Whichever series an engine reads -- SMA20, SMA50, EMA12, EMA26,
    RSI, the MACD line, its signal line and histogram, the three Bollinger
    bands in the basic engine; RSI, the histogram and the two EMAs in the
    enhanced one -- an analysis whose series ends in 0 is scored like the
    same analysis without that series; so is, in the enhanced engine, one
    whose previous histogram value is 0. *)
Theorem zero_value_is_absent_evidence :
  (forall toFixed1 data a advancedAnalysis currentPrice fvgs orderBlocks
          liquidityZones volumeProfile microstructure (s : Series),
      isZero (last_value (seriesOf s a))
      \/ (s = series_histogram /\ isZero (prev_value (histogram (macd_ a)))) ->
      ETS.analyzeAdvancedConfluence toFixed1 data a advancedAnalysis currentPrice
        fvgs orderBlocks liquidityZones volumeProfile microstructure
      = ETS.analyzeAdvancedConfluence toFixed1 data (without s a) advancedAnalysis
          currentPrice fvgs orderBlocks liquidityZones volumeProfile microstructure)
  /\ (forall toFixed1 a currentPrice (s : Series),
         isZero (last_value (seriesOf s a)) ->
         TS.analyzeIndicators toFixed1 a currentPrice
         = TS.analyzeIndicators toFixed1 (without s a) currentPrice).
Proof.
  split.
  - intros. unfold ETS.analyzeAdvancedConfluence.
    rewrite (enhanced_zero_is_absent toFixed1 a advancedAnalysis currentPrice fvgs
               orderBlocks volumeProfile microstructure s H).
    reflexivity.
  - intros. apply basic_zero_is_absent. assumption.
Qed.

(** ** Detection loops and the cap on their results *)

Lemma StronglySorted_app_le (l1 l2 : list nat) :
  StronglySorted le l1 -> StronglySorted le l2 ->
  (forall x y, In x l1 -> In y l2 -> x <= y) ->
  StronglySorted le (l1 ++ l2).
Proof.
  induction l1 as [|a l1 IH]; intros H1 H2 H; simpl; [assumption|].
  apply StronglySorted_inv in H1. destruct H1 as [H1 Ha].
  constructor.
  - apply IH; [assumption|assumption|]. intros x y Hx Hy. apply H; simpl; auto.
  - apply Forall_app. split; [assumption|].
    apply Forall_forall. intros y Hy. apply H; simpl; auto.
Qed.

Lemma StronglySorted_app_inv (l1 l2 : list nat) :
  StronglySorted le (l1 ++ l2) ->
  StronglySorted le l2 /\ forall x y, In x l1 -> In y l2 -> x <= y.
Proof.
  induction l1 as [|a l1 IH]; simpl; intros H.
  - split; [assumption|]. intros x y [].
  - apply StronglySorted_inv in H. destruct H as [H Ha].
    destruct (IH H) as [H2 Hle]. split; [assumption|].
    intros x y [Hx|Hx] Hy.
    + subst x. rewrite Forall_forall in Ha. apply Ha. apply in_or_app. auto.
    + apply Hle; assumption.
Qed.

Lemma StronglySorted_constant (i : nat) (l : list nat) :
  Forall (fun x => x = i) l -> StronglySorted le l.
Proof.
  induction 1 as [|x l Hx Hl IH]; constructor; [assumption|].
  subst x. apply Forall_forall. intros y Hy.
  rewrite Forall_forall in Hl. rewrite (Hl y Hy). apply le_n.
Qed.

(** A loop whose iteration [i] appends elements of origin index [i], each
    satisfying [Q], collects elements satisfying [Q] in origin order. *)
Lemma for_range_collect {A : Type} (idx : A -> nat) (Q : A -> Prop)
    (body : nat -> list A -> result (list A)) (a b : nat) :
  (forall i res, a <= i < b ->
                 exists new, body i res = Ok (res ++ new)
                             /\ Forall (fun x => Q x /\ idx x = i) new) ->
  exists out,
    for_range a b body [] = Ok out
    /\ Forall (fun x => Q x /\ a <= idx x < b) out
    /\ StronglySorted le (map idx out).
Proof.
  intros Hbody.
  destruct (Nat.le_gt_cases a b) as [Hab|Hab].
  - destruct (@for_range_inv _
                (fun i res => Forall (fun x => Q x /\ a <= idx x < i) res
                              /\ StronglySorted le (map idx res))
                body a b [] Hab) as [out [E [H1 H2]]].
    + split; constructor.
    + intros j res Hj [H1 H2].
      destruct (Hbody j res Hj) as [new [E Hnew]].
      exists (res ++ new). split; [assumption|]. split.
      * apply Forall_app. split.
        -- eapply Forall_impl; [|exact H1]. simpl. intros x [Hq Hx]. split; [assumption|lia].
        -- eapply Forall_impl; [|exact Hnew]. simpl. intros x [Hq Hx]. split; [assumption|lia].
      * rewrite map_app. apply StronglySorted_app_le; [assumption| |].
        -- apply (StronglySorted_constant j). apply Forall_map.
           eapply Forall_impl; [|exact Hnew]. simpl. tauto.
        -- intros x y Hx Hy. apply in_map_iff in Hx. apply in_map_iff in Hy.
           destruct Hx as [x' [Ex Hx]]. destruct Hy as [y' [Ey Hy]].
           rewrite Forall_forall in H1, Hnew.
           destruct (H1 x' Hx) as [_ Hx']. destruct (Hnew y' Hy) as [_ Hy']. lia.
    + exists out. auto.
  - exists []. rewrite for_range_none by lia.
    split; [reflexivity|]. split; constructor.
Qed.

(** [capped n idx all result]: [result] is what [all.slice(-n)] keeps of the
    detection list [all]: its last [n] elements, in order, every dropped
    element having been detected at an origin index no later than any kept
    one. *)
Definition capped {A : Type} (n : nat) (idx : A -> nat) (all result : list A) : Prop :=
  length result = Nat.min n (length all)
  /\ length result <= n
  /\ StronglySorted le (map idx result)
  /\ exists dropped,
       all = dropped ++ result
       /\ forall d r, In d dropped -> In r result -> idx d <= idx r.

Lemma slice_last_capped {A : Type} (n : nat) (idx : A -> nat) (all : list A) :
  StronglySorted le (map idx all) -> capped n idx all (slice_last n all).
Proof.
  intros Hs. unfold capped.
  destruct (slice_last_suffix n all) as [dropped [E Hd]].
  rewrite slice_last_length.
  split; [reflexivity|]. split; [lia|].
  rewrite E, map_app in Hs. apply StronglySorted_app_inv in Hs.
  destruct Hs as [Hs Hle]. split; [assumption|].
  exists dropped. split; [assumption|].
  intros d r Hd' Hr. apply Hle; apply in_map; assumption.
Qed.

(** *** Fair value gaps *)

(** The gap the detector pushes at [i] for direction [t]. *)
Definition gapAt (config : ETS.EnhancedStrategyConfig) (data : list CandlestickData)
    (g : ETS.FairValueGap) : Prop :=
  exists prev next,
    nth_error data (ETS.fvg_index g - 1) = Some prev
    /\ nth_error data (ETS.fvg_index g + 1) = Some next
    /\ ETS.filled g = false
    /\ match ETS.fvg_type g with
       | ETS.fvg_bullish =>
           ETS.fvg_high g = Fin (low prev) /\ ETS.fvg_low g = Fin (high next)
           /\ (Fin (low prev) >? Fin (high next))%js = true
           /\ ((Fin (low prev) - Fin (high next)) >=? ETS.fvgMinSize config)%js = true
           /\ ETS.fvg_strength g
              = ((Fin (low prev) - Fin (high next)) / Fin (close prev) * Fin 10000)%js
       | ETS.fvg_bearish =>
           ETS.fvg_high g = Fin (low next) /\ ETS.fvg_low g = Fin (high prev)
           /\ (Fin (high prev) <? Fin (low next))%js = true
           /\ ((Fin (low next) - Fin (high prev)) >=? ETS.fvgMinSize config)%js = true
           /\ ETS.fvg_strength g
              = ((Fin (low next) - Fin (high prev)) / Fin (close prev) * Fin 10000)%js
       end.

Lemma detectFairValueGaps_spec (config : ETS.EnhancedStrategyConfig)
    (data : list CandlestickData) :
  exists gaps,
    ETS.detectFairValueGaps config data = Ok gaps
    /\ Forall (fun g => gapAt config data g
                        /\ 2 <= ETS.fvg_index g < length data - 1) gaps
    /\ StronglySorted le (map ETS.fvg_index gaps).
Proof.
  unfold ETS.detectFairValueGaps. apply for_range_collect.
  intros i res Hi.
  destruct (@get_ok _ data (i - 1)) as [prev [Ep Np]]; [lia|].
  destruct (@get_ok _ data i) as [cur [Ec Nc]]; [lia|].
  destruct (@get_ok _ data (i + 1)) as [next [En Nn]]; [lia|].
  rewrite Ep, Ec, En. cbn [JS.bind].
  assert (Hbull :
             (Fin (low prev) >? Fin (high next))%js = true ->
             ((Fin (low prev) - Fin (high next)) >=? ETS.fvgMinSize config)%js = true ->
             gapAt config data
               (ETS.mkFVG ETS.fvg_bullish (Fin (low prev)) (Fin (high next)) i false
                  ((Fin (low prev) - Fin (high next)) / Fin (close prev) * Fin 10000)%js)).
  { intros H1 H2. exists prev, next. cbn. repeat split; assumption. }
  assert (Hbear :
             (Fin (high prev) <? Fin (low next))%js = true ->
             ((Fin (low next) - Fin (high prev)) >=? ETS.fvgMinSize config)%js = true ->
             gapAt config data
               (ETS.mkFVG ETS.fvg_bearish (Fin (low next)) (Fin (high prev)) i false
                  ((Fin (low next) - Fin (high prev)) / Fin (close prev) * Fin 10000)%js)).
  { intros H1 H2. exists prev, next. cbn. repeat split; assumption. }
  destruct (Fin (low prev) >? Fin (high next))%js eqn:B1;
    [destruct ((Fin (low prev) - Fin (high next)) >=? ETS.fvgMinSize config)%js eqn:B2|];
    (destruct (Fin (high prev) <? Fin (low next))%js eqn:S1;
     [destruct ((Fin (low next) - Fin (high prev)) >=? ETS.fvgMinSize config)%js eqn:S2|]).
  all: try (exists []; rewrite app_nil_r; split; [reflexivity|constructor]).
  all: try (rewrite <- app_assoc; cbn [app]).
  all: eexists; (split; [reflexivity|]).
  all: repeat (constructor; [split; [auto|reflexivity]|]).
  all: constructor.
Qed.

(** *** Order blocks *)

Definition blockAt (data : list CandlestickData) (b : ETS.OrderBlock) : Prop :=
  exists candle,
    nth_error data (ETS.ob_index b) = Some candle
    /\ ETS.ob_high b = Fin (high candle)
    /\ ETS.ob_low b = Fin (low candle)
    /\ ETS.ob_volume b = ETS.volumeOr1 candle
    /\ match ETS.ob_type b with
       | ETS.demand =>
           (Fin (close candle) >? Fin (open candle))%js = true
           /\ ETS.tested b
              = existsb (fun d => (Fin (low d) <=? Fin (high candle))%js
                                  && (Fin (low d) >=? Fin (low candle))%js)
                        (skipn (ETS.ob_index b + 1) data)
       | ETS.supply =>
           (Fin (close candle) <? Fin (open candle))%js = true
           /\ ETS.tested b
              = existsb (fun d => (Fin (high d) >=? Fin (low candle))%js
                                  && (Fin (high d) <=? Fin (high candle))%js)
                        (skipn (ETS.ob_index b + 1) data)
       end.

Lemma detectOrderBlocks_spec (config : ETS.EnhancedStrategyConfig)
    (data : list CandlestickData) :
  exists blocks,
    ETS.detectOrderBlocks config data = Ok blocks
    /\ Forall (fun b => blockAt data b
                        /\ 3 <= ETS.ob_index b < length data - 3) blocks
    /\ StronglySorted le (map ETS.ob_index blocks).
Proof.
  unfold ETS.detectOrderBlocks. apply for_range_collect.
  intros i res Hi.
  destruct (@get_ok _ data i) as [candle [Ec Nc]]; [lia|].
  rewrite Ec. cbn [JS.bind].
  destruct (ETS.volumeOr1 candle
            >? ETS.avgVolumeBefore data i * ETS.orderBlockMinVolume config)%js;
    [|exists []; rewrite app_nil_r; split; [reflexivity|constructor]].
  destruct (Fin (close candle) >? Fin (open candle))%js eqn:D1;
    destruct (Fin (close candle) <? Fin (open candle))%js eqn:S1;
    destruct (JS.abs (Fin (close candle) - Fin (open candle))
              >? (Fin (high candle) - Fin (low candle)) * Fin 0.5)%js;
    cbn [andb].
  all: try (exists []; rewrite app_nil_r; split; [reflexivity|constructor]).
  all: try (rewrite <- app_assoc; cbn [app]).
  all: eexists; (split; [reflexivity|]).
  all: repeat (constructor;
               [split; [exists candle; cbn; repeat split; assumption|reflexivity]|]).
  all: constructor.
Qed.

(** *** Liquidity zones *)

Lemma calculateLiquidityStrength_ok (data : list CandlestickData) (index : nat)
    (type : ETS.Extreme) :
  index < length data ->
  exists v, ETS.calculateLiquidityStrength data index type = Ok v.
Proof.
  intros H. unfold ETS.calculateLiquidityStrength.
  destruct (@get_ok _ data index) as [candle [Ec _]]; [assumption|].
  rewrite Ec. cbn [JS.bind].
  match goal with |- context [for_range ?a ?b ?body ?s] =>
    destruct (@for_range_inv _ (fun _ _ => True) body a b s) as [n [E _]]
  end.
  - lia.
  - exact I.
  - intros j n Hj _. destruct (j =? index); [eexists; split; [reflexivity|exact I]|].
    destruct (@get_ok _ data j) as [d [Ed _]]; [lia|].
    rewrite Ed. cbn [JS.bind].
    match goal with |- context [if ?c then _ else _] => destruct c end;
      eexists; split; try reflexivity; exact I.
  - rewrite E. cbn [JS.bind]. eexists. reflexivity.
Qed.

Definition zoneAt (data : list CandlestickData) (z : ETS.LiquidityZone) : Prop :=
  exists candle,
    nth_error data (ETS.lz_index z) = Some candle
    /\ ETS.calculateLiquidityStrength data (ETS.lz_index z)
         match ETS.lz_type z with
         | ETS.sell_liquidity => ETS.ext_high
         | ETS.buy_liquidity => ETS.ext_low
         end = Ok (ETS.lz_strength z)
    /\ match ETS.lz_type z with
       | ETS.sell_liquidity =>
           ETS.lz_price z = Fin (high candle)
           /\ ETS.swept z
              = existsb (fun d => (Fin (high d) >? Fin (high candle))%js)
                        (skipn (ETS.lz_index z + 1) data)
       | ETS.buy_liquidity =>
           ETS.lz_price z = Fin (low candle)
           /\ ETS.swept z
              = existsb (fun d => (Fin (low d) <? Fin (low candle))%js)
                        (skipn (ETS.lz_index z + 1) data)
       end.

Lemma detectLiquidityZones_spec (data : list CandlestickData) :
  exists zones,
    ETS.detectLiquidityZones data = Ok zones
    /\ Forall (fun z => zoneAt data z
                        /\ 3 <= ETS.lz_index z < length data - 3) zones
    /\ StronglySorted le (map ETS.lz_index zones).
Proof.
  unfold ETS.detectLiquidityZones. apply for_range_collect.
  intros i res Hi.
  destruct (@get_ok _ data i) as [candle [Ec Nc]]; [lia|].
  rewrite Ec. cbn [JS.bind].
  destruct (calculateLiquidityStrength_ok data i ETS.ext_high) as [vh Eh]; [lia|].
  destruct (calculateLiquidityStrength_ok data i ETS.ext_low) as [vl El]; [lia|].
  rewrite Eh, El.
  match goal with |- context [if ?c then _ else Ok res] => destruct c end;
    cbn [JS.bind];
    match goal with |- context [if ?c then _ else _] => destruct c end;
    cbn [JS.bind].
  all: try (exists []; rewrite app_nil_r; split; [reflexivity|constructor]).
  all: try (rewrite <- app_assoc; cbn [app]).
  all: eexists; (split; [reflexivity|]).
  all: repeat (constructor;
               [split; [exists candle; cbn; repeat split; assumption|reflexivity]|]).
  all: constructor.
Qed.

(** C8. The three detectors cap what they return: at most 8 gaps, 6 blocks
    and 8 zones, namely the last-detected ones, listed in origin order, with
    every dropped element detected no later than any kept one. *)
Theorem detectors_keep_most_recent (config : ETS.EnhancedStrategyConfig)
    (data : list CandlestickData) :
  (exists all gaps,
      ETS.detectFairValueGaps config data = Ok all
      /\ ETS.identifyFairValueGaps config data = Ok gaps
      /\ capped 8 ETS.fvg_index (map (ETS.markFilled data) all) gaps)
  /\ (exists all blocks,
         ETS.detectOrderBlocks config data = Ok all
         /\ ETS.identifyOrderBlocks config data = Ok blocks
         /\ capped 6 ETS.ob_index all blocks)
  /\ (exists all zones,
         ETS.detectLiquidityZones data = Ok all
         /\ ETS.identifyLiquidityZones data = Ok zones
         /\ capped 8 ETS.lz_index all zones).
Proof.
  split; [|split].
  - destruct (detectFairValueGaps_spec config data) as [all [E [_ Hs]]].
    exists all, (slice_last 8 (map (ETS.markFilled data) all)).
    split; [assumption|]. unfold ETS.identifyFairValueGaps. rewrite E.
    split; [reflexivity|]. apply slice_last_capped.
    rewrite map_map.
    replace (map (fun x => ETS.fvg_index (ETS.markFilled data x)) all)
      with (map ETS.fvg_index all); [assumption|].
    apply map_ext. intros g. unfold ETS.markFilled.
    destruct (existsb _ _); reflexivity.
  - destruct (detectOrderBlocks_spec config data) as [all [E [_ Hs]]].
    exists all, (slice_last 6 all).
    split; [assumption|]. unfold ETS.identifyOrderBlocks. rewrite E.
    split; [reflexivity|]. apply slice_last_capped. assumption.
  - destruct (detectLiquidityZones_spec data) as [all [E [_ Hs]]].
    exists all, (slice_last 8 all).
    split; [assumption|]. unfold ETS.identifyLiquidityZones. rewrite E.
    split; [reflexivity|]. apply slice_last_capped. assumption.
Qed.

(** ** Fill flags under extension of the data *)

Lemma In_skipn {A : Type} (x : A) (n : nat) (l : list A) :
  In x (skipn n l) -> In x l.
Proof.
  intros H. rewrite <- (firstn_skipn n l). apply in_or_app. right. assumption.
Qed.

Lemma markFilled_fields (data : list CandlestickData) (g : ETS.FairValueGap) :
  ETS.fvg_type (ETS.markFilled data g) = ETS.fvg_type g
  /\ ETS.fvg_index (ETS.markFilled data g) = ETS.fvg_index g
  /\ ETS.fvg_high (ETS.markFilled data g) = ETS.fvg_high g
  /\ ETS.fvg_low (ETS.markFilled data g) = ETS.fvg_low g
  /\ ETS.fvg_strength (ETS.markFilled data g) = ETS.fvg_strength g.
Proof. unfold ETS.markFilled. destruct (existsb _ _); cbn; auto. Qed.

Lemma markFilled_filled (data : list CandlestickData) (g : ETS.FairValueGap) :
  ETS.filled g = false ->
  ETS.filled (ETS.markFilled data g)
  = existsb (ETS.fillsGap g) (skipn (ETS.fvg_index g + 1) data).
Proof.
  intros H. unfold ETS.markFilled.
  destruct (existsb _ _); cbn; [reflexivity|assumption].
Qed.

(** What [identifyFairValueGaps] returns, gap by gap. *)
Lemma identifyFairValueGaps_spec (config : ETS.EnhancedStrategyConfig)
    (data : list CandlestickData) :
  exists gaps,
    ETS.identifyFairValueGaps config data = Ok gaps
    /\ forall g, In g gaps ->
         exists g0,
           g = ETS.markFilled data g0
           /\ gapAt config data g0
           /\ 2 <= ETS.fvg_index g0 < length data - 1.
Proof.
  destruct (detectFairValueGaps_spec config data) as [all [E [Hall _]]].
  unfold ETS.identifyFairValueGaps. rewrite E. cbn [JS.bind].
  eexists. split; [reflexivity|].
  intros g Hg. unfold slice_last in Hg. apply In_skipn in Hg.
  apply in_map_iff in Hg. destruct Hg as [g0 [Eg Hg0]].
  rewrite Forall_forall in Hall. exists g0. split; [auto|]. apply Hall. assumption.
Qed.

Lemma gapAt_extend (config : ETS.EnhancedStrategyConfig) (d e : list CandlestickData)
    (g0 g1 : ETS.FairValueGap) :
  gapAt config d g0 -> gapAt config (d ++ e) g1 ->
  ETS.fvg_index g0 + 1 < length d ->
  ETS.fvg_type g1 = ETS.fvg_type g0 ->
  ETS.fvg_index g1 = ETS.fvg_index g0 ->
  ETS.fvg_high g1 = ETS.fvg_high g0 /\ ETS.fvg_low g1 = ETS.fvg_low g0.
Proof.
  intros [p0 [n0 [Hp0 [Hn0 [_ H0]]]]] [p1 [n1 [Hp1 [Hn1 [_ H1]]]]] Hlt Ht Hi.
  rewrite Hi in Hp1, Hn1.
  rewrite nth_error_app1 in Hp1 by lia. rewrite nth_error_app1 in Hn1 by lia.
  assert (p1 = p0) by congruence. assert (n1 = n0) by congruence. subst p1 n1.
  rewrite Ht in H1. destruct (ETS.fvg_type g0).
  - destruct H0 as [A0 [B0 _]]. destruct H1 as [A1 [B1 _]]. split; congruence.
  - destruct H0 as [A0 [B0 _]]. destruct H1 as [A1 [B1 _]]. split; congruence.
Qed.

(** C9. A gap reported as filled stays filled when later candles are
    appended: if [identifyFairValueGaps] marks a gap filled on [d], the gap
    of the same direction and origin index it reports on [d ++ e] is marked
    filled as well. *)
Theorem fvg_fill_is_monotone (config : ETS.EnhancedStrategyConfig)
    (d e : list CandlestickData) :
  exists gaps gaps',
    ETS.identifyFairValueGaps config d = Ok gaps
    /\ ETS.identifyFairValueGaps config (d ++ e) = Ok gaps'
    /\ forall g g',
         In g gaps -> In g' gaps' ->
         ETS.fvg_type g' = ETS.fvg_type g ->
         ETS.fvg_index g' = ETS.fvg_index g ->
         ETS.filled g = true ->
         ETS.filled g' = true
         /\ ETS.fvg_high g' = ETS.fvg_high g
         /\ ETS.fvg_low g' = ETS.fvg_low g.
Proof.
  destruct (identifyFairValueGaps_spec config d) as [gaps [E Hg]].
  destruct (identifyFairValueGaps_spec config (d ++ e)) as [gaps' [E' Hg']].
  exists gaps, gaps'. split; [assumption|]. split; [assumption|].
  intros g g' Hin Hin' Ht Hi Hf.
  destruct (Hg g Hin) as [g0 [Eg [A0 R0]]].
  destruct (Hg' g' Hin') as [g1 [Eg' [A1 R1]]].
  destruct (markFilled_fields d g0) as [T0 [I0 [H0 [L0 _]]]].
  destruct (markFilled_fields (d ++ e) g1) as [T1 [I1 [H1 [L1 _]]]].
  rewrite <- Eg in T0, I0, H0, L0. rewrite <- Eg' in T1, I1, H1, L1.
  assert (Ht01 : ETS.fvg_type g1 = ETS.fvg_type g0) by congruence.
  assert (Hi01 : ETS.fvg_index g1 = ETS.fvg_index g0) by congruence.
  destruct (gapAt_extend config d e g0 g1 A0 A1 ltac:(lia) Ht01 Hi01) as [HH HL].
  split; [|split; congruence].
  assert (F0 : ETS.filled g0 = false) by (destruct A0 as [? [? [? [? [F _]]]]]; exact F).
  assert (F1 : ETS.filled g1 = false) by (destruct A1 as [? [? [? [? [F _]]]]]; exact F).
  rewrite Eg, (markFilled_filled d g0 F0) in Hf.
  rewrite Eg', (markFilled_filled (d ++ e) g1 F1), Hi01.
  rewrite skipn_app, existsb_app.
  apply orb_true_iff. left.
  rewrite <- Hf.
  assert (Hext : forall c, ETS.fillsGap g1 c = ETS.fillsGap g0 c).
  { intros c. unfold ETS.fillsGap. rewrite Ht01, HH, HL. reflexivity. }
  clear - Hext. induction (skipn (ETS.fvg_index g0 + 1) d) as [|c l IH]; simpl;
    [reflexivity|]. rewrite Hext, IH. reflexivity.
Qed.

(** ** Concrete scenarios *)

(** A two-digit label standing for the timestamp of candle [i]. *)
Definition stamp (i : nat) : string :=
  String (Ascii.ascii_of_nat (48 + i / 10))
    (String (Ascii.ascii_of_nat (48 + i mod 10)) EmptyString).

(** *** MACD on a steadily rising series *)

(** Candle [i] of a series whose close rises by one per candle. *)
Definition rampCandle (i : nat) : CandlestickData :=
  let c := inject_Z (Z.of_nat (i + 1)) in
  mkCandle (stamp i) c c c c 1000.

Definition rampMarket : list CandlestickData := map rampCandle (seq 0 40).

(** The EMA([period]) value belonging to candle [j]: element
    [j - (period - 1)] of the EMA series. *)
Definition emaAtCandle (data : list CandlestickData) (period : positive) (j : nat)
  : option TechnicalIndicator :=
  match calculateEMA data period with
  | Ok l => nth_error l (j - (Pos.to_nat period - 1))
  | TypeError => None
  end.

(** C3. On the 40-candle rising series the MACD line has one point,
    stamped with candle 39.  Its value 4 is the EMA12 of candle 36 (31.5)
    minus the EMA26 of candle 39 (27.5); the EMA12 of candle 39 itself is
    34.5, so EMA12 - EMA26 on that candle would be 7. *)
Theorem macd_line_pairs_different_candles :
  calculateMACD rampMarket = Ok (mkMACD [mkPoint (stamp 39) (Fin 4)] [] [])
  /\ emaAtCandle rampMarket 26 39 = Some (mkPoint (stamp 39) (Fin (55 # 2)))
  /\ emaAtCandle rampMarket 12 39 = Some (mkPoint (stamp 39) (Fin (69 # 2)))
  /\ emaAtCandle rampMarket 12 36 = Some (mkPoint (stamp 36) (Fin (63 # 2)))
  /\ (Fin (63 # 2) - Fin (55 # 2))%js = Fin 4
  /\ (Fin (69 # 2) - Fin (55 # 2))%js = Fin 7.
Proof. vm_compute. repeat split. Qed.

(** *** The flat market *)

Definition flatCandle (t : string) : CandlestickData :=
  mkCandle t 1.1 1.1 1.1 1.1 1000.

(** Thirty identical candles, told apart by their timestamps only. *)
Definition flatMarket (ts : nat -> string) : list CandlestickData :=
  map (fun i => flatCandle (ts i)) (seq 0 30).

(** C4, as the code behaves.  On thirty identical candles the RSI series
    is not empty: it has sixteen points, each [100 - 100/101] from the
    [avgLoss === 0] branch, and nothing raises.  That value reads as
    overbought, so the enhanced engine tallies bearish 4 against bullish 0
    with confidence 95; the confluence score is 5 inside a trading session
    and 3 outside, and the signal is WEAK_SELL inside a session and HOLD
    only outside. *)
Theorem flat_market_signal (sqrt : number -> number) (toFixed1 : number -> string)
    (ts : nat -> string) (hour : nat) :
  calculateRSI (flatMarket ts) 14
  = Ok (map (fun i => mkPoint (ts i) rsiNoLoss) (seq 14 16))
  /\ exists s,
       Hooks.enhancedSignalOf sqrt toFixed1 (flatMarket ts) hour = Ok s
       /\ ETS.es_confidence s = Fin 95
       /\ ETS.es_reasons s
          = [("RSI overbought: " ++ toFixed1 rsiNoLoss)%string;
             if isSessionActive hour
             then "Active trading session"%string
             else "Outside major sessions"%string]
       /\ ETS.es_confluenceScore s = (if isSessionActive hour then 5 else 3)%Z
       /\ ETS.signal s = (if isSessionActive hour then ETS.WEAK_SELL else ETS.HOLD).
Proof.
  split; [vm_compute; reflexivity|].
  unfold Hooks.enhancedSignalOf, Hooks.advancedAnalysisOf.
  generalize (isSessionActive hour). intros b.
  destruct b; vm_compute; eexists; repeat split.
Qed.

(** On the flat market, at noon UTC, the RSI series is not empty and the
    signal is not HOLD. *)
Lemma flat_market_not_hold :
  calculateRSI (flatMarket stamp) 14 <> Ok []
  /\ forall sqrt toFixed1,
       ~ exists s, Hooks.enhancedSignalOf sqrt toFixed1 (flatMarket stamp) 12 = Ok s
                   /\ ETS.signal s = ETS.HOLD.
Proof.
  split.
  - vm_compute. discriminate.
  - intros sqrt toFixed1 [s [E H]].
    vm_compute in E. inversion E. subst s. discriminate H.
Qed.

(** * Further properties of the indicator library *)

(** ** Sums of finite numbers *)

Definition Qsum (l : list Q) : Q := fold_left Qplus l 0%Q.

Lemma fold_add_represents (l : list Q) :
  forall a qa, represents a qa ->
               represents (fold_left JS.add (map Fin l) a) (fold_left Qplus l qa).
Proof.
  induction l as [|x l IH]; intros a qa Ha; simpl; [assumption|].
  apply IH. apply represents_add; [assumption|apply represents_Fin].
Qed.

Lemma sum_closes_represents (l : list CandlestickData) :
  represents (JS.sum (closes l)) (Qsum (map close l)).
Proof.
  unfold JS.sum, closes, Qsum.
  rewrite <- (map_map close Fin). apply fold_add_represents. apply represents_Fin.
Qed.

Lemma slice_length {A : Type} (l : list A) (lo hi : nat) :
  length (slice l lo hi) = Nat.min (hi - lo) (length l - lo).
Proof. unfold slice. rewrite length_firstn, length_skipn. reflexivity. Qed.

Lemma pos_nonzero (p : positive) : ~ (inject_Z (Zpos p) == 0)%Q.
Proof.
  intros H. pose proof (inject_pos_gt0 p) as Hp. rewrite H in Hp.
  apply (Qlt_irrefl _ Hp).
Qed.

(** ** Simple moving average *)

(** The arithmetic mean of [close] over the [period] candles ending at [i]. *)
Definition windowMean (data : list CandlestickData) (period : positive) (i : nat) : Q :=
  (Qsum (map close (slice data (i + 1 - Pos.to_nat period) (i + 1)))
   / inject_Z (Zpos period))%Q.

Lemma calculateSMA_spec (data : list CandlestickData) (period : positive) :
  exists res,
    calculateSMA data period = Ok res
    /\ length res = length data - (Pos.to_nat period - 1)
    /\ forall k, k < length res ->
         exists c v,
           nth_error data (k + Pos.to_nat period - 1) = Some c
           /\ nth_error res k = Some (mkPoint (timestamp c) v)
           /\ represents v (windowMean data period (k + Pos.to_nat period - 1)).
Proof.
  pose proof (Pos2Nat.is_pos period) as Hp.
  unfold calculateSMA.
  set (avg := fun i =>
                (JS.sum (closes (slice data (i + 1 - Pos.to_nat period) (i + 1)))
                 / of_pos period)%js).
  assert (Havg : forall i, represents (avg i) (windowMean data period i)).
  { intros i. unfold avg, windowMean.
    apply represents_div;
      [apply sum_closes_represents|apply represents_of_pos|apply pos_nonzero]. }
  destruct (Nat.le_gt_cases (Pos.to_nat period - 1) (length data)) as [Hle|Hgt].
  - set (pt := fun i =>
                 match nth_error data i with
                 | Some c => mkPoint (timestamp c) (avg i)
                 | None => mkPoint EmptyString NaN
                 end).
    rewrite (@for_range_push _ pt _ (Pos.to_nat period - 1) (length data) [] Hle).
    + eexists. split; [reflexivity|]. cbn [app].
      rewrite length_map, length_seq. split; [reflexivity|].
      intros k Hk.
      destruct (@get_ok _ data (k + Pos.to_nat period - 1)) as [c [_ Nc]]; [lia|].
      exists c, (avg (k + Pos.to_nat period - 1)).
      split; [assumption|]. split; [|apply Havg].
      rewrite nth_error_map_seq by assumption. unfold pt.
      replace (Pos.to_nat period - 1 + k) with (k + Pos.to_nat period - 1) by lia.
      rewrite Nc. reflexivity.
    + intros i res Hi. unfold pt.
      destruct (@get_ok _ data i) as [c [Ec Nc]]; [lia|].
      rewrite Ec, Nc. reflexivity.
  - rewrite for_range_none by lia.
    exists []. split; [reflexivity|]. split; [simpl; lia|].
    intros k Hk. simpl in Hk. lia.
Qed.

(** X1. [calculateSMA] never raises; it returns one point per candle from
    index [period - 1] on (none when there are fewer candles), in candle
    order, each stamped with the candle that ends its window. *)
Theorem sma_points_follow_candles (data : list CandlestickData) (period : positive) :
  exists res,
    calculateSMA data period = Ok res
    /\ length res = length data - (Pos.to_nat period - 1)
    /\ forall k, k < length res ->
         exists c v,
           nth_error data (k + Pos.to_nat period - 1) = Some c
           /\ nth_error res k = Some (mkPoint (timestamp c) v).
Proof.
  destruct (calculateSMA_spec data period) as [res [E [L H]]].
  exists res. split; [assumption|]. split; [assumption|].
  intros k Hk. destruct (H k Hk) as [c [v [Hc [Hv _]]]]. eauto.
Qed.

(** ** Exponential moving average *)

Definition closeAt (data : list CandlestickData) (j : nat) : Q :=
  match nth_error data j with
  | Some c => close c
  | None => 0%Q
  end.

Definition emaMultiplier (period : positive) : Q :=
  (2 / (inject_Z (Zpos period) + 1))%Q.

(** The textbook recurrence: the mean of the first [period] closes, then
    [ema = (close - ema) * multiplier + ema] candle by candle.  [emaQ k]
    belongs to candle [k + period - 1]. *)
Fixpoint emaQ (data : list CandlestickData) (period : positive) (k : nat) : Q :=
  match k with
  | O => windowMean data period (Pos.to_nat period - 1)
  | S k' =>
      ((closeAt data (Pos.to_nat period + k') - emaQ data period k')
       * emaMultiplier period + emaQ data period k')%Q
  end.

Lemma emaMultiplier_represents (period : positive) :
  represents (of_nat 2 / (of_pos period + of_nat 1))%js (emaMultiplier period).
Proof.
  unfold emaMultiplier.
  apply represents_div.
  - apply represents_Fin.
  - apply represents_add; [apply represents_of_pos|apply represents_Fin].
  - pose proof (inject_pos_gt0 period). lra.
Qed.

Lemma calculateEMA_spec (data : list CandlestickData) (period : positive) :
  Pos.to_nat period <= length data ->
  exists res,
    calculateEMA data period = Ok res
    /\ length res = length data - Pos.to_nat period + 1
    /\ forall k, k < length res ->
         exists c v,
           nth_error data (k + Pos.to_nat period - 1) = Some c
           /\ nth_error res k = Some (mkPoint (timestamp c) v)
           /\ represents v (emaQ data period k).
Proof.
  intros H. pose proof (Pos2Nat.is_pos period) as Hp.
  unfold calculateEMA.
  destruct (Nat.eqb_spec (length data) 0); [lia|].
  destruct (@get_ok _ data (Pos.to_nat period - 1)) as [c0 [Ec0 Nc0]]; [lia|].
  rewrite Ec0. cbn [JS.bind].
  assert (Hseed : represents
                    (JS.sum (closes (slice data 0 (Pos.to_nat period))) / of_pos period)%js
                    (emaQ data period 0)).
  { cbn [emaQ]. unfold windowMean.
    replace (Pos.to_nat period - 1 + 1 - Pos.to_nat period) with 0 by lia.
    replace (Pos.to_nat period - 1 + 1) with (Pos.to_nat period) by lia.
    apply represents_div;
      [apply sum_closes_represents|apply represents_of_pos|apply pos_nonzero]. }
  match goal with |- context [for_range _ _ ?b ?s] =>
    destruct (@for_range_inv _
      (fun i st =>
         represents (fst st) (emaQ data period (i - Pos.to_nat period))
         /\ length (snd st) = i - Pos.to_nat period + 1
         /\ forall k, k < length (snd st) ->
              exists c v,
                nth_error data (k + Pos.to_nat period - 1) = Some c
                /\ nth_error (snd st) k = Some (mkPoint (timestamp c) v)
                /\ represents v (emaQ data period k))
      b (Pos.to_nat period) (length data) s H) as [[e r] [E [He [Hlen Hnth]]]]
  end.
  - cbn [fst snd]. rewrite Nat.sub_diag. split; [assumption|].
    split; [reflexivity|]. intros k Hk. cbn [length] in Hk.
    assert (k = 0) by lia. subst k. exists c0. eexists.
    split; [exact Nc0|]. split; [reflexivity|assumption].
  - intros j [e r] Hj [He [Hlen Hnth]]. cbn [fst snd] in *.
    destruct (@get_ok _ data j) as [cj [Ej Nj]]; [lia|].
    rewrite Ej. cbn [JS.bind]. eexists. split; [reflexivity|]. cbn [fst snd].
    assert (Hnew : represents
                     ((Fin (close cj) - e) * (of_nat 2 / (of_pos period + of_nat 1)) + e)%js
                     (emaQ data period (S j - Pos.to_nat period))).
    { replace (S j - Pos.to_nat period) with (S (j - Pos.to_nat period)) by lia.
      cbn [emaQ]. unfold closeAt.
      replace (Pos.to_nat period + (j - Pos.to_nat period)) with j by lia.
      rewrite Nj.
      apply represents_add; [|assumption].
      apply represents_mul; [|apply emaMultiplier_represents].
      apply represents_sub; [apply represents_Fin|assumption]. }
    split; [assumption|]. rewrite length_app. cbn [length]. split; [lia|].
    intros k Hk.
    destruct (Nat.eq_dec k (length r)) as [Ek|Ek].
    + subst k. exists cj. eexists.
      split; [replace (length r + Pos.to_nat period - 1) with j by lia; exact Nj|].
      rewrite nth_error_app2 by lia. rewrite Nat.sub_diag. cbn [nth_error].
      split; [reflexivity|].
      replace (length r) with (S j - Pos.to_nat period) by lia. assumption.
    + rewrite nth_error_app1 by lia. apply Hnth. lia.
  - rewrite E. cbn [JS.bind snd]. cbn [fst snd] in *.
    exists r. split; [reflexivity|]. split; [lia|assumption].
Qed.

(** X2. On at least [period] candles [calculateEMA] does not raise; it
    returns one point per candle from index [period - 1] on, in candle
    order, each stamped with its candle. *)
Theorem ema_points_follow_candles (data : list CandlestickData) (period : positive) :
  Pos.to_nat period <= length data ->
  exists res,
    calculateEMA data period = Ok res
    /\ length res = length data - Pos.to_nat period + 1
    /\ forall k, k < length res ->
         exists c v,
           nth_error data (k + Pos.to_nat period - 1) = Some c
           /\ nth_error res k = Some (mkPoint (timestamp c) v).
Proof.
  intros Hn. destruct (calculateEMA_spec data period Hn) as [res [E [L H]]].
  exists res. split; [assumption|]. split; [assumption|].
  intros k Hk. destruct (H k Hk) as [c [v [Hc [Hv _]]]]. eauto.
Qed.

Lemma ema_points_follow_candles_witness :
  exists res,
    calculateEMA rampMarket 12 = Ok res
    /\ length res = length rampMarket - Pos.to_nat 12 + 1
    /\ forall k, k < length res ->
         exists c v,
           nth_error rampMarket (k + Pos.to_nat 12 - 1) = Some c
           /\ nth_error res k = Some (mkPoint (timestamp c) v).
Proof.
  apply (ema_points_follow_candles rampMarket 12). vm_compute. lia.
Defined.

(** The first point of each series. *)
Lemma calculateSMA_first (data : list CandlestickData) (period : positive)
    (c : CandlestickData) :
  nth_error data (Pos.to_nat period - 1) = Some c ->
  exists res,
    calculateSMA data period = Ok res
    /\ nth_error res 0
       = Some (mkPoint (timestamp c)
                 (JS.sum (closes (slice data 0 (Pos.to_nat period))) / of_pos period)%js).
Proof.
  intros Hc. pose proof (Pos2Nat.is_pos period) as Hp.
  assert (Hlt : Pos.to_nat period - 1 < length data)
    by (apply nth_error_Some; congruence).
  unfold calculateSMA.
  set (pt := fun i =>
               match nth_error data i with
               | Some d =>
                   mkPoint (timestamp d)
                     (JS.sum (closes (slice data (i + 1 - Pos.to_nat period) (i + 1)))
                      / of_pos period)%js
               | None => mkPoint EmptyString NaN
               end).
  rewrite (@for_range_push _ pt _ (Pos.to_nat period - 1) (length data) []);
    [|lia|].
  - eexists. split; [reflexivity|]. cbn [app].
    rewrite nth_error_map_seq by lia. rewrite Nat.add_0_r. unfold pt. rewrite Hc.
    replace (Pos.to_nat period - 1 + 1 - Pos.to_nat period) with 0 by lia.
    replace (Pos.to_nat period - 1 + 1) with (Pos.to_nat period) by lia.
    reflexivity.
  - intros i res Hi. unfold pt.
    destruct (@get_ok _ data i) as [d [Ed Nd]]; [lia|].
    rewrite Ed, Nd. reflexivity.
Qed.

Lemma calculateEMA_first (data : list CandlestickData) (period : positive)
    (c : CandlestickData) :
  nth_error data (Pos.to_nat period - 1) = Some c ->
  exists res,
    calculateEMA data period = Ok res
    /\ nth_error res 0
       = Some (mkPoint (timestamp c)
                 (JS.sum (closes (slice data 0 (Pos.to_nat period))) / of_pos period)%js).
Proof.
  intros Hc. pose proof (Pos2Nat.is_pos period) as Hp.
  assert (Hlt : Pos.to_nat period - 1 < length data)
    by (apply nth_error_Some; congruence).
  unfold calculateEMA.
  destruct (Nat.eqb_spec (length data) 0); [lia|].
  unfold get at 1. rewrite Hc. cbn [JS.bind].
  match goal with |- context [for_range _ _ ?b ?s] =>
    destruct (@for_range_inv _
      (fun _ st => nth_error (snd st) 0 = nth_error (snd s) 0)
      b (Pos.to_nat period) (length data) s) as [[e r] [E Hfirst]]
  end.
  - lia.
  - reflexivity.
  - intros j [e r] Hj Hfirst. cbn [snd] in *.
    destruct (@get_ok _ data j) as [cj [Ej Nj]]; [lia|].
    rewrite Ej. cbn [JS.bind]. eexists. split; [reflexivity|]. cbn [snd].
    destruct r as [|x r]; [discriminate|]. exact Hfirst.
  - rewrite E. cbn [JS.bind snd] in *. exists r. split; [reflexivity|exact Hfirst].
Qed.

(** X3. The EMA series starts at the SMA: on at least [period] candles the
    two series begin with the same point, stamped with candle [period - 1]
    and valued by the same computation, the sum of the first [period]
    closes, taken in order from 0, divided by [period]. *)
Theorem ema_starts_at_first_sma (data : list CandlestickData) (period : positive) :
  Pos.to_nat period <= length data ->
  exists sma ema c v,
    calculateSMA data period = Ok sma
    /\ calculateEMA data period = Ok ema
    /\ nth_error data (Pos.to_nat period - 1) = Some c
    /\ nth_error sma 0 = Some (mkPoint (timestamp c) v)
    /\ nth_error ema 0 = Some (mkPoint (timestamp c) v).
Proof.
  intros Hn. pose proof (Pos2Nat.is_pos period) as Hp.
  destruct (@get_ok _ data (Pos.to_nat period - 1)) as [c [_ Nc]]; [lia|].
  destruct (calculateSMA_first data period c Nc) as [sma [Es Hs]].
  destruct (calculateEMA_first data period c Nc) as [ema [Ee He]].
  exists sma, ema, c. eexists.
  split; [exact Es|]. split; [exact Ee|]. split; [exact Nc|].
  split; [exact Hs|exact He].
Qed.

Lemma ema_starts_at_first_sma_witness :
  exists sma ema c v,
    calculateSMA rampMarket 12 = Ok sma
    /\ calculateEMA rampMarket 12 = Ok ema
    /\ nth_error rampMarket (Pos.to_nat 12 - 1) = Some c
    /\ nth_error sma 0 = Some (mkPoint (timestamp c) v)
    /\ nth_error ema 0 = Some (mkPoint (timestamp c) v).
Proof.
  apply (ema_starts_at_first_sma rampMarket 12). vm_compute. lia.
Defined.

(** ** MACD *)

Lemma value_at_spec (l : list TechnicalIndicator) (i : nat) (t : string) (v : number) :
  nth_error l i = Some (mkPoint t v) -> to_num (value_at l i) = v.
Proof. intros H. unfold value_at. rewrite H. reflexivity. Qed.

Lemma represents_not_NaN (a : number) (q : Q) : represents a q -> isNaN a = false.
Proof. destruct a; simpl; try tauto. Qed.

(** The MACD line, on at least 26 candles. *)
Lemma macdLine_spec (data : list CandlestickData) (e12 e26 : list TechnicalIndicator) :
  26 <= length data ->
  calculateEMA data 12 = Ok e12 ->
  calculateEMA data 26 = Ok e26 ->
  exists line,
    macdLineOf e12 e26 = Ok line
    /\ length line = length data - 39
    /\ forall j, j < length line ->
         exists c v,
           nth_error data (j + 39) = Some c
           /\ nth_error line j = Some (mkPoint (timestamp c) v)
           /\ represents v (emaQ data 12 (j + 25) - emaQ data 26 (j + 14))
           /\ exists p12 p26,
                nth_error e12 (j + 25) = Some p12
                /\ nth_error e26 (j + 14) = Some p26
                /\ v = (value p12 - value p26)%js.
Proof.
  intros Hn E12 E26.
  destruct (calculateEMA_spec data 12) as [r12 [E12' [L12 H12]]];
    [change (Pos.to_nat 12) with 12; lia|].
  destruct (calculateEMA_spec data 26) as [r26 [E26' [L26 H26]]];
    [change (Pos.to_nat 26) with 26; lia|].
  rewrite E12 in E12'. rewrite E26 in E26'.
  inversion E12'. inversion E26'. subst r12 r26. clear E12' E26'.
  change (Pos.to_nat 12) with 12 in *. change (Pos.to_nat 26) with 26 in *.
  unfold macdLineOf. change (Nat.max 0 (26 - 12)) with 14.
  replace (Nat.min (length e12) (length e26)) with (length data - 25) by lia.
  set (pt := fun i =>
               mkPoint
                 match nth_error e26 i with
                 | Some e => ti_timestamp e
                 | None => EmptyString
                 end
                 (to_num (value_at e12 (i + 12 - 1)) - to_num (value_at e26 i))%js).
  assert (Hpt : forall i, 14 <= i < length data - 25 ->
             exists c v,
               nth_error data (i + 25) = Some c
               /\ pt i = mkPoint (timestamp c) v
               /\ nth_error e26 i = Some (mkPoint (timestamp c) (to_num (value_at e26 i)))
               /\ represents v (emaQ data 12 (i + 12 - 1) - emaQ data 26 i)
               /\ exists p12 p26,
                    nth_error e12 (i + 12 - 1) = Some p12
                    /\ nth_error e26 i = Some p26
                    /\ v = (value p12 - value p26)%js).
  { intros i Hi.
    destruct (H12 (i + 12 - 1)) as [c12 [v12 [_ [N12 R12]]]]; [lia|].
    destruct (H26 i) as [c26 [v26 [D26 [N26 R26]]]]; [lia|].
    replace (i + 26 - 1) with (i + 25) in D26 by lia.
    exists c26. eexists. split; [assumption|].
    unfold pt. rewrite N26. cbn [ti_timestamp].
    rewrite (value_at_spec _ _ _ _ N12), (value_at_spec _ _ _ _ N26).
    split; [reflexivity|]. split; [reflexivity|].
    split; [apply represents_sub; assumption|].
    do 2 eexists. split; [exact N12|]. split; reflexivity. }
  destruct (Nat.le_gt_cases 14 (length data - 25)) as [Hle|Hgt].
  - rewrite (@for_range_push _ pt _ 14 (length data - 25) [] Hle).
    + eexists. split; [reflexivity|]. cbn [app].
      rewrite length_map, length_seq. split; [lia|].
      intros j Hj.
      destruct (Hpt (14 + j)) as [c [v [Dc [Ept [_ [Rv [p12 [p26 [P12 [P26 Ev]]]]]]]]]];
        [lia|].
      exists c, v.
      split; [replace (j + 39) with (14 + j + 25) by lia; assumption|].
      rewrite nth_error_map_seq by assumption. rewrite Ept.
      split; [reflexivity|].
      replace (j + 25) with (14 + j + 12 - 1) by lia.
      replace (j + 14) with (14 + j) by lia.
      split; [assumption|]. exists p12, p26. auto.
    + intros i res Hi.
      destruct (Hpt i Hi) as [c [v [Dc [Ept [N26 [Rv _]]]]]].
      assert (Hv : (to_num (value_at e12 (i + 12 - 1)) - to_num (value_at e26 i))%js = v).
      { unfold pt in Ept. inversion Ept. reflexivity. }
      cbv zeta. rewrite Hv. rewrite (represents_not_NaN _ _ Rv). cbn [negb].
      unfold get. rewrite N26. cbn [JS.bind ti_timestamp].
      rewrite <- Ept. unfold pt. rewrite N26. cbn [ti_timestamp]. rewrite Hv.
      reflexivity.
  - rewrite for_range_none by lia. exists [].
    split; [reflexivity|]. split; [simpl; lia|].
    intros j Hj. simpl in Hj. lia.
Qed.

Lemma signalLineOf_spec (macdLine : list TechnicalIndicator) :
  exists sig,
    signalLineOf macdLine = Ok sig
    /\ length sig = (if 9 <=? length macdLine then length macdLine - 8 else 0)
    /\ forall k, k < length sig ->
         exists mp sp,
           nth_error macdLine (k + 8) = Some mp
           /\ nth_error sig k = Some sp
           /\ ti_timestamp sp = ti_timestamp mp.
Proof.
  unfold signalLineOf.
  destruct (Nat.leb_spec 9 (length macdLine)) as [H9|H9].
  - destruct (@get_ok _ macdLine 8) as [m8 [E8 N8]]; [lia|].
    rewrite E8. cbn [JS.bind].
    match goal with |- context [for_range _ _ ?b ?s] =>
      destruct (@for_range_inv _
        (fun i st =>
           length (snd st) = i - 8
           /\ forall k, k < length (snd st) ->
                exists mp sp,
                  nth_error macdLine (k + 8) = Some mp
                  /\ nth_error (snd st) k = Some sp
                  /\ ti_timestamp sp = ti_timestamp mp)
        b 9 (length macdLine) s H9) as [[sg r] [E [Hlen Hnth]]]
    end.
    + cbn [snd length]. split; [reflexivity|].
      intros k Hk. assert (k = 0) by lia. subst k.
      exists m8. eexists. split; [exact N8|]. split; reflexivity.
    + intros j [sg r] Hj [Hlen Hnth]. cbn [snd] in *.
      destruct (@get_ok _ macdLine j) as [mj [Ej Nj]]; [lia|].
      rewrite Ej. cbn [JS.bind]. eexists. split; [reflexivity|].
      cbn [snd]. rewrite length_app. cbn [length]. split; [lia|].
      intros k Hk. destruct (Nat.eq_dec k (length r)) as [Ek|Ek].
      * subst k. exists mj. eexists.
        split; [replace (length r + 8) with j by lia; exact Nj|].
        rewrite nth_error_app2 by lia. rewrite Nat.sub_diag.
        split; reflexivity.
      * rewrite nth_error_app1 by lia. apply Hnth. lia.
    + rewrite E. cbn [JS.bind snd] in *. exists r.
      split; [reflexivity|]. split; assumption.
  - exists []. split; [reflexivity|]. split; [reflexivity|].
    intros k Hk. simpl in Hk. lia.
Qed.

Lemma histogramOf_spec (macdLine sig : list TechnicalIndicator) :
  length sig <= length macdLine ->
  exists hist,
    histogramOf macdLine sig = Ok hist
    /\ length hist = length sig
    /\ forall k, k < length hist ->
         exists mp sp,
           nth_error macdLine (k + (length macdLine - length sig)) = Some mp
           /\ nth_error sig k = Some sp
           /\ nth_error hist k
              = Some (mkPoint (ti_timestamp mp) (value mp - value sp)%js).
Proof.
  intros Hle. unfold histogramOf.
  replace (Nat.min (length macdLine) (length sig)) with (length sig) by lia.
  set (off := length macdLine - length sig).
  set (pt := fun i =>
               match nth_error macdLine (i + off), nth_error sig i with
               | Some m, Some sg => mkPoint (ti_timestamp m) (value m - value sg)%js
               | _, _ => mkPoint EmptyString NaN
               end).
  rewrite (@for_range_push _ pt _ 0 (length sig) [] (Nat.le_0_l _)).
  - eexists. split; [reflexivity|]. cbn [app].
    rewrite length_map, length_seq, Nat.sub_0_r. split; [reflexivity|].
    intros k Hk.
    destruct (@get_ok _ macdLine (k + off)) as [mp [_ Nm]]; [subst off; lia|].
    destruct (@get_ok _ sig k) as [sp [_ Ns]]; [lia|].
    exists mp, sp. split; [assumption|]. split; [assumption|].
    rewrite nth_error_map_seq by assumption. cbn [Nat.add].
    unfold pt. rewrite Nm, Ns. reflexivity.
  - intros i res Hi.
    destruct (@get_ok _ macdLine (i + off)) as [mp [Em Nm]]; [subst off; lia|].
    destruct (@get_ok _ sig i) as [sp [Es Ns]]; [lia|].
    rewrite Em, Es. cbn [JS.bind]. unfold pt. rewrite Nm, Ns. reflexivity.
Qed.

Lemma calculateMACD_spec (data : list CandlestickData) :
  26 <= length data ->
  exists e12 e26 m,
    calculateEMA data 12 = Ok e12
    /\ calculateEMA data 26 = Ok e26
    /\ calculateMACD data = Ok m
    /\ length (macd m) = length data - 39
    /\ length (signal m) = length data - 47
    /\ length (histogram m) = length data - 47
    /\ (forall j, j < length (macd m) ->
          exists c36 c39 p12 p26,
            nth_error data (j + 36) = Some c36
            /\ nth_error data (j + 39) = Some c39
            /\ nth_error e12 (j + 25) = Some p12
            /\ nth_error e26 (j + 14) = Some p26
            /\ ti_timestamp p12 = timestamp c36
            /\ ti_timestamp p26 = timestamp c39
            /\ nth_error (macd m) j
               = Some (mkPoint (timestamp c39) (value p12 - value p26)%js))
    /\ (forall j, j < length (histogram m) ->
          exists mp sp,
            nth_error (macd m) (j + 8) = Some mp
            /\ nth_error (signal m) j = Some sp
            /\ ti_timestamp sp = ti_timestamp mp
            /\ nth_error (histogram m) j
               = Some (mkPoint (ti_timestamp mp) (value mp - value sp)%js)).
Proof.
  intros Hn. unfold calculateMACD.
  destruct (calculateEMA_spec data 12) as [e12 [E12 [L12 H12]]];
    [change (Pos.to_nat 12) with 12; lia|].
  destruct (calculateEMA_spec data 26) as [e26 [E26 [L26 H26]]];
    [change (Pos.to_nat 26) with 26; lia|].
  change (Pos.to_nat 12) with 12 in *. change (Pos.to_nat 26) with 26 in *.
  exists e12, e26.
  rewrite E12, E26. cbn [JS.bind].
  destruct (macdLine_spec data e12 e26 Hn E12 E26) as [line [El [Ll Hl]]].
  rewrite El. cbn [JS.bind].
  destruct (signalLineOf_spec line) as [sig [Es [Ls Hs]]].
  rewrite Es. cbn [JS.bind].
  assert (Lsig : length sig = length data - 47).
  { rewrite Ls. destruct (Nat.leb_spec 9 (length line)); lia. }
  destruct (histogramOf_spec line sig) as [hist [Eh [Lh Hh]]]; [lia|].
  rewrite Eh. cbn [JS.bind].
  eexists. split; [reflexivity|]. split; [reflexivity|]. split; [reflexivity|].
  cbn [macd signal histogram].
  split; [assumption|]. split; [assumption|]. split; [lia|].
  split.
  - intros j Hj.
    destruct (Hl j Hj) as [c [v [Dc [Nl [_ [p12 [p26 [P12 [P26 Ev]]]]]]]]].
    destruct (H12 (j + 25)) as [c36 [v12 [D36 [N12 _]]]]; [lia|].
    destruct (H26 (j + 14)) as [c39 [v26 [D39 [N26 _]]]]; [lia|].
    replace (j + 25 + 12 - 1) with (j + 36) in D36 by lia.
    replace (j + 14 + 26 - 1) with (j + 39) in D39 by lia.
    assert (c39 = c) by congruence. subst c39.
    exists c36, c, p12, p26.
    rewrite P12 in N12. rewrite P26 in N26. inversion N12. inversion N26.
    cbn [ti_timestamp value] in *. subst v.
    repeat split; try assumption; try reflexivity.
    + congruence.
    + congruence.
    + rewrite Nl. subst p12 p26. reflexivity.
  - intros j Hj. destruct (Hh j Hj) as [mp [sp [Nm [Ns Nh]]]].
    assert (Hoff : length line - length sig = 8).
    { rewrite Ls. destruct (Nat.leb_spec 9 (length line)); lia. }
    rewrite Hoff in Nm.
    exists mp, sp. split; [assumption|]. split; [assumption|]. split; [|assumption].
    destruct (Hs j) as [mp' [sp' [Nm' [Ns' Ht]]]]; [lia|].
    congruence.
Qed.

(** Fifty candles whose close rises by one per candle. *)
Definition longRamp : list CandlestickData := map rampCandle (seq 0 50).

(** X4. On at least 26 candles of moderate magnitude [calculateMACD] does
    not raise.  Its line has [n - 39] points, so the first one needs 40
    candles; point [j] is stamped with candle [j + 39], and its value is
    point [j + 25] of the EMA12 series, which belongs to candle [j + 36],
    minus point [j + 14] of the EMA26 series, which belongs to candle
    [j + 39].  The signal line and the histogram both have [n - 47] points,
    the histogram's point [j] being the line's point [j + 8] minus the
    signal's point [j], under the same timestamp. *)
Theorem macd_shape (data : list CandlestickData) :
  26 <= length data -> moderateCloses data ->
  exists e12 e26 m,
    calculateEMA data 12 = Ok e12
    /\ calculateEMA data 26 = Ok e26
    /\ calculateMACD data = Ok m
    /\ length (macd m) = length data - 39
    /\ length (signal m) = length data - 47
    /\ length (histogram m) = length data - 47
    /\ (forall j, j < length (macd m) ->
          exists c36 c39 p12 p26,
            nth_error data (j + 36) = Some c36
            /\ nth_error data (j + 39) = Some c39
            /\ nth_error e12 (j + 25) = Some p12
            /\ nth_error e26 (j + 14) = Some p26
            /\ ti_timestamp p12 = timestamp c36
            /\ ti_timestamp p26 = timestamp c39
            /\ nth_error (macd m) j
               = Some (mkPoint (timestamp c39) (value p12 - value p26)%js))
    /\ (forall j, j < length (histogram m) ->
          exists mp sp,
            nth_error (macd m) (j + 8) = Some mp
            /\ nth_error (signal m) j = Some sp
            /\ ti_timestamp sp = ti_timestamp mp
            /\ nth_error (histogram m) j
               = Some (mkPoint (ti_timestamp mp) (value mp - value sp)%js)).
Proof. intros Hn _. exact (calculateMACD_spec data Hn). Qed.

Lemma macd_shape_witness :
  exists e12 e26 m,
    calculateEMA longRamp 12 = Ok e12
    /\ calculateEMA longRamp 26 = Ok e26
    /\ calculateMACD longRamp = Ok m
    /\ length (macd m) = length longRamp - 39
    /\ length (signal m) = length longRamp - 47
    /\ length (histogram m) = length longRamp - 47
    /\ (forall j, j < length (macd m) ->
          exists c36 c39 p12 p26,
            nth_error longRamp (j + 36) = Some c36
            /\ nth_error longRamp (j + 39) = Some c39
            /\ nth_error e12 (j + 25) = Some p12
            /\ nth_error e26 (j + 14) = Some p26
            /\ ti_timestamp p12 = timestamp c36
            /\ ti_timestamp p26 = timestamp c39
            /\ nth_error (macd m) j
               = Some (mkPoint (timestamp c39) (value p12 - value p26)%js))
    /\ (forall j, j < length (histogram m) ->
          exists mp sp,
            nth_error (macd m) (j + 8) = Some mp
            /\ nth_error (signal m) j = Some sp
            /\ ti_timestamp sp = ti_timestamp mp
            /\ nth_error (histogram m) j
               = Some (mkPoint (ti_timestamp mp) (value mp - value sp)%js)).
Proof.
  apply (macd_shape longRamp).
  - vm_compute. lia.
  - split; vm_compute; reflexivity.
Defined.

(** ** Bollinger bands *)

Lemma pow2_nonneg (a : number) (q : Q) : represents a q -> nonneg_fin (pow2 a).
Proof.
  destruct a; simpl; try tauto. intros _.
  unfold pow2, JS.mul, fin. eexists. split; [reflexivity|].
  rewrite Qred_correct. nra.
Qed.

Lemma variance_nonneg (prices : list number) (mean : number) (period : positive) (m : Q) :
  represents mean m ->
  Forall (fun x => exists q, x = Fin q) prices ->
  nonneg_fin
    (fold_left (fun acc price => acc + pow2 (price - mean)) prices (Fin 0)
     / of_pos period)%js.
Proof.
  intros Hm Hp.
  assert (Hsum : forall a, nonneg_fin a ->
             nonneg_fin (fold_left (fun acc price => acc + pow2 (price - mean))%js
                                   prices a)).
  { induction Hp as [|x l [q Hx] Hl IH]; intros a Ha; cbn [fold_left]; [assumption|].
    apply IH. apply add_nonneg; [assumption|].
    subst x. apply (pow2_nonneg _ (q - m)).
    apply represents_sub; [apply represents_Fin|assumption]. }
  destruct (Hsum (Fin 0)) as [s [Es Hs]].
  { exists 0%Q. split; [reflexivity|apply Qle_refl]. }
  rewrite Es. apply nonneg_fin_represents.
  exists (s / inject_Z (Zpos period))%Q. split.
  - apply represents_div; [apply represents_Fin|apply represents_of_pos|apply pos_nonzero].
  - apply Qle_shift_div_l; [apply inject_pos_gt0|]. lra.
Qed.

Lemma closes_finite (l : list CandlestickData) :
  Forall (fun x => exists q, x = Fin q) (closes l).
Proof. unfold closes. apply Forall_map. apply Forall_forall. intros c _. eauto. Qed.

Lemma calculateBollingerBands_spec (sqrt : number -> number)
    (data : list CandlestickData) (period : positive) (stdDev : number) (mult : Q) :
  (forall x, nonneg_fin x -> nonneg_fin (sqrt x)) ->
  stdDev = Fin mult -> (0 <= mult)%Q ->
  exists bb,
    calculateBollingerBands sqrt data period stdDev = Ok bb
    /\ calculateSMA data period = Ok (middle bb)
    /\ length (upper bb) = length (middle bb)
    /\ length (lower bb) = length (middle bb)
    /\ forall k m, nth_error (middle bb) k = Some m ->
         exists lo mid up,
           nth_error (lower bb) k = Some (mkPoint (ti_timestamp m) (Fin lo))
           /\ value m = Fin mid
           /\ nth_error (upper bb) k = Some (mkPoint (ti_timestamp m) (Fin up))
           /\ (lo <= mid <= up)%Q.
Proof.
  intros Hsqrt Hstd Hmult. subst stdDev.
  unfold calculateBollingerBands.
  destruct (calculateSMA_spec data period) as [sma [Es [Ls Hs]]].
  rewrite Es. cbn [JS.bind].
  match goal with |- context [for_range 0 _ ?b ?s] =>
    destruct (@for_range_inv _
      (fun i bb =>
         middle bb = firstn i sma
         /\ length (upper bb) = i /\ length (lower bb) = i
         /\ forall k m, nth_error (middle bb) k = Some m ->
              exists lo mid up,
                nth_error (lower bb) k = Some (mkPoint (ti_timestamp m) (Fin lo))
                /\ value m = Fin mid
                /\ nth_error (upper bb) k = Some (mkPoint (ti_timestamp m) (Fin up))
                /\ (lo <= mid <= up)%Q)
      b 0 (length sma) s (Nat.le_0_l _)) as [bb [E [Hm [Hu [Hl Hord]]]]]
  end.
  - cbn. repeat split; try reflexivity. intros k m Hk. destruct k; discriminate.
  - intros j bb Hj [Hm [Hu [Hl Hord]]].
    destruct (@get_ok _ sma j) as [s [Esj Nsj]]; [lia|].
    rewrite Esj. cbn [JS.bind]. eexists. split; [reflexivity|].
    cbn [middle upper lower]. rewrite !length_app. cbn [length].
    split; [|split; [lia|split; [lia|]]].
    + rewrite Hm. symmetry.
      rewrite <- (firstn_skipn j sma) at 1.
      rewrite firstn_app, firstn_firstn, length_firstn.
      replace (Nat.min (S j) j) with j by lia.
      replace (S j - Nat.min j (length sma)) with 1 by lia.
      f_equal.
      assert (Hsk : nth_error (skipn j sma) 0 = Some s)
        by (rewrite nth_error_skipn, Nat.add_0_r; assumption).
      destruct (skipn j sma); [discriminate|]. simpl in Hsk. inversion Hsk.
      reflexivity.
    + intros k m Hk.
      assert (Lmid : length (middle bb) = j) by (rewrite Hm, length_firstn; lia).
      destruct (Nat.eq_dec k j) as [Ek|Ek].
      * subst k. rewrite nth_error_app2 in Hk by lia.
        rewrite Lmid, Nat.sub_diag in Hk. cbn in Hk. inversion Hk. subst m.
        destruct (Hs j (proj2 Hj)) as [c [v [_ [Nv Rv]]]].
        rewrite Nsj in Nv. inversion Nv. subst s. cbn [value ti_timestamp].
        destruct (represents_exists _ _ Rv) as [mid [Ev Hmid]]. subst v.
        match goal with |- context [sqrt ?x] =>
          destruct (Hsqrt x) as [sd [Esd Hsd]]
        end.
        { apply (variance_nonneg _ _ _ mid);
            [apply represents_Fin|apply closes_finite]. }
        rewrite Esd.
        rewrite !nth_error_app2 by lia. rewrite Hu, Hl, Nat.sub_diag. cbn [nth_error].
        unfold JS.sub, JS.neg, JS.mul, JS.add, fin.
        do 3 eexists. split; [reflexivity|]. split; [reflexivity|].
        split; [reflexivity|].
        rewrite !Qred_correct. split; nra.
      * assert (Hklt : k < j).
        { assert (k < length (middle bb ++ [s]))
            by (apply nth_error_Some; congruence).
          rewrite length_app in *. cbn [length] in *. lia. }
        rewrite nth_error_app1 in Hk by lia.
        rewrite !nth_error_app1 by lia. apply Hord. assumption.
  - exists bb. split; [assumption|].
    rewrite Hm, firstn_all. split; [reflexivity|].
    split; [assumption|]. split; [assumption|].
    rewrite Hm, firstn_all in Hord. assumption.
Qed.

(** X5. [calculateBollingerBands] never raises; its middle band is the SMA
    series and the three bands have the same length and timestamps.  For
    closes of moderate magnitude, a non-negative multiplier, and a square
    root that maps non-negative numbers to non-negative numbers, no point
    has its lower band above its middle band or its middle band above its
    upper band. *)
Theorem bollinger_bands_ordered (sqrt : number -> number)
    (data : list CandlestickData) (period : positive) (stdDev : number) (mult : Q) :
  (forall x, nonneg_fin x -> nonneg_fin (sqrt x)) ->
  stdDev = Fin mult -> (0 <= mult)%Q ->
  moderateCloses data ->
  exists bb,
    calculateBollingerBands sqrt data period stdDev = Ok bb
    /\ calculateSMA data period = Ok (middle bb)
    /\ length (upper bb) = length (middle bb)
    /\ length (lower bb) = length (middle bb)
    /\ forall k m, nth_error (middle bb) k = Some m ->
         exists lo up,
           nth_error (lower bb) k = Some (mkPoint (ti_timestamp m) lo)
           /\ nth_error (upper bb) k = Some (mkPoint (ti_timestamp m) up)
           /\ (lo <=? value m)%js = true
           /\ (value m <=? up)%js = true.
Proof.
  intros Hsqrt Hstd Hmult _.
  destruct (calculateBollingerBands_spec sqrt data period stdDev mult Hsqrt Hstd Hmult)
    as [bb [E [Hm [Lu [Ll Hord]]]]].
  exists bb. split; [assumption|]. split; [assumption|].
  split; [assumption|]. split; [assumption|].
  intros k m Hk. destruct (Hord k m Hk) as [lo [mid [up [Nl [Em [Nu [H1 H2]]]]]]].
  exists (Fin lo), (Fin up). split; [assumption|]. split; [assumption|].
  rewrite Em. split; apply Qle_leb; assumption.
Qed.

Lemma bollinger_bands_ordered_witness :
  exists bb,
    calculateBollingerBands (fun x => x) rampMarket 20 (Fin 2) = Ok bb
    /\ calculateSMA rampMarket 20 = Ok (middle bb)
    /\ length (upper bb) = length (middle bb)
    /\ length (lower bb) = length (middle bb)
    /\ forall k m, nth_error (middle bb) k = Some m ->
         exists lo up,
           nth_error (lower bb) k = Some (mkPoint (ti_timestamp m) lo)
           /\ nth_error (upper bb) k = Some (mkPoint (ti_timestamp m) up)
           /\ (lo <=? value m)%js = true
           /\ (value m <=? up)%js = true.
Proof.
  apply (bollinger_bands_ordered (fun x => x) rampMarket 20 (Fin 2) 2).
  - intros x Hx. exact Hx.
  - reflexivity.
  - unfold Qle. simpl. lia.
  - split; vm_compute; reflexivity.
Defined.

(** ** Average true range *)

Lemma trueRange_nonneg (c : CandlestickData) (prevClose : Q) :
  nonneg_fin (trueRange c prevClose).
Proof.
  apply nonneg_fin_represents. unfold trueRange.
  exists (Qmax (Qmax (high c - low c) (Qabs (high c - prevClose)))
               (Qabs (low c - prevClose))).
  split.
  - apply represents_max; [apply represents_max|].
    + apply represents_sub; apply represents_Fin.
    + apply represents_abs. apply represents_sub; apply represents_Fin.
    + apply represents_abs. apply represents_sub; apply represents_Fin.
  - apply Qle_trans with (Qabs (low c - prevClose));
      [apply Qabs_nonneg|apply Q.le_max_r].
Qed.

Lemma calculateATR_spec (data : list CandlestickData) (period : positive) :
  exists res,
    calculateATR data period = Ok res
    /\ length res = length data - Pos.to_nat period
    /\ forall k, k < length res ->
         exists c q,
           nth_error data (k + Pos.to_nat period) = Some c
           /\ nth_error res k = Some (mkPoint (timestamp c) (Fin q))
           /\ (0 <= q)%Q.
Proof.
  pose proof (Pos2Nat.is_pos period) as Hp. unfold calculateATR.
  destruct (Nat.le_gt_cases 1 (length data)) as [H1|H1].
  - match goal with |- context [for_range 1 _ ?b ?s] =>
      destruct (@for_range_inv _
        (fun i st =>
           Forall nonneg_fin (fst st)
           /\ length (snd st) = i - Pos.to_nat period
           /\ forall k, k < length (snd st) ->
                exists c q,
                  nth_error data (k + Pos.to_nat period) = Some c
                  /\ nth_error (snd st) k = Some (mkPoint (timestamp c) (Fin q))
                  /\ (0 <= q)%Q)
        b 1 (length data) s H1) as [[t r] [E [Ht [Hlen Hnth]]]]
    end.
    + cbn [fst snd length]. split; [constructor|]. split; [lia|].
      intros k Hk. lia.
    + intros j [t r] Hj [Ht [Hlen Hnth]]. cbn [fst snd] in *.
      destruct (@get_ok _ data j) as [cj [Ej Nj]]; [lia|].
      destruct (@get_ok _ data (j - 1)) as [cp [Ep _]]; [lia|].
      rewrite Ej, Ep. cbn [JS.bind].
      assert (Ht' : Forall nonneg_fin (t ++ [trueRange cj (close cp)])).
      { apply Forall_app. split; [assumption|].
        constructor; [apply trueRange_nonneg|constructor]. }
      destruct (Nat.leb_spec (Pos.to_nat period) j) as [Hpj|Hpj].
      * destruct (windowAvg_nonneg (t ++ [trueRange cj (close cp)]) period (j - 1) Ht')
          as [q [Eq Hq]].
        unfold windowAvg in Eq.
        replace (j - 1 + 1 - Pos.to_nat period) with (j - Pos.to_nat period) in Eq by lia.
        replace (j - 1 + 1) with j in Eq by lia.
        rewrite Eq. eexists. split; [reflexivity|]. cbn [fst snd].
        split; [assumption|]. rewrite length_app. cbn [length].
        split; [lia|]. intros k Hk.
        destruct (Nat.eq_dec k (length r)) as [Ek|Ek].
        -- subst k. exists cj, q.
           split; [replace (length r + Pos.to_nat period) with j by lia; exact Nj|].
           rewrite nth_error_app2 by lia. rewrite Nat.sub_diag.
           split; [reflexivity|assumption].
        -- rewrite nth_error_app1 by lia. apply Hnth. lia.
      * eexists. split; [reflexivity|]. cbn [fst snd].
        split; [assumption|]. split; [lia|]. assumption.
    + rewrite E. cbn [JS.bind fst snd] in *. exists r.
      split; [reflexivity|]. split; assumption.
  - rewrite for_range_none by lia. exists [].
    split; [reflexivity|]. split; [simpl; lia|].
    intros k Hk. simpl in Hk. lia.
Qed.

(** X6. [calculateATR] never raises; it returns one point per candle from
    index [period] on, stamped with that candle, and no value is negative
    or [NaN]: each satisfies [0 <= value]. *)
Theorem atr_is_non_negative (data : list CandlestickData) (period : positive) :
  exists res,
    calculateATR data period = Ok res
    /\ length res = length data - Pos.to_nat period
    /\ forall k, k < length res ->
         exists c v,
           nth_error data (k + Pos.to_nat period) = Some c
           /\ nth_error res k = Some (mkPoint (timestamp c) v)
           /\ (Fin 0 <=? v)%js = true.
Proof.
  destruct (calculateATR_spec data period) as [res [E [L H]]].
  exists res. split; [assumption|]. split; [assumption|].
  intros k Hk. destruct (H k Hk) as [c [q [Hc [Hv Hq]]]].
  exists c, (Fin q). split; [assumption|]. split; [assumption|].
  apply Qle_leb. assumption.
Qed.

(** ** Average directional index *)

Lemma calculateADX_spec (data : list CandlestickData) (period : positive) :
  exists res,
    calculateADX data period = Ok res
    /\ length res = length data - Pos.to_nat period
    /\ forall k, k < length res ->
         exists c v,
           nth_error data (k + Pos.to_nat period) = Some c
           /\ nth_error res k = Some (mkPoint (timestamp c) v).
Proof.
  pose proof (Pos2Nat.is_pos period) as Hp. unfold calculateADX.
  destruct (directionalMovements_ok data) as [t [pd [md [E [Ht _]]]]].
  rewrite E. cbn [JS.bind].
  destruct (Nat.le_gt_cases (Pos.to_nat period - 1) (length t)) as [Hle|Hgt].
  - match goal with |- context [for_range _ _ ?b ?s] =>
      destruct (@for_range_inv _
        (fun i res =>
           length res = i - (Pos.to_nat period - 1)
           /\ forall k, k < length res ->
                exists c v,
                  nth_error data (k + Pos.to_nat period) = Some c
                  /\ nth_error res k = Some (mkPoint (timestamp c) v))
        b (Pos.to_nat period - 1) (length t) s Hle) as [res [Er [Hlen Hnth]]]
    end.
    + cbn [length]. split; [lia|]. intros k Hk. lia.
    + intros j res Hj [Hlen Hnth].
      destruct (@get_ok _ data (j + 1)) as [c [Ec Nc]]; [lia|].
      rewrite Ec. cbn [JS.bind].
      assert (Hpush : forall v,
                 length (res ++ [mkPoint (timestamp c) v]) = S j - (Pos.to_nat period - 1)
                 /\ forall k, k < length (res ++ [mkPoint (timestamp c) v]) ->
                      exists c' v',
                        nth_error data (k + Pos.to_nat period) = Some c'
                        /\ nth_error (res ++ [mkPoint (timestamp c) v]) k
                           = Some (mkPoint (timestamp c') v')).
      { intros v. rewrite length_app. cbn [length]. split; [lia|].
        intros k Hk. destruct (Nat.eq_dec k (length res)) as [Ek|Ek].
        - subst k. exists c, v.
          split; [replace (length res + Pos.to_nat period) with (j + 1) by lia; exact Nc|].
          rewrite nth_error_app2 by lia. rewrite Nat.sub_diag. reflexivity.
        - rewrite nth_error_app1 by lia. apply Hnth. lia. }
      destruct (Pos.to_nat period * 2 - 2 <=? j);
        eexists; (split; [reflexivity|apply Hpush]).
    + exists res. split; [assumption|]. split; [lia|assumption].
  - rewrite for_range_none by lia. exists [].
    split; [reflexivity|]. split; [simpl; lia|].
    intros k Hk. simpl in Hk. lia.
Qed.

(** X7. [calculateADX] never raises and returns one point per candle from
    index [period] on, stamped with that candle. *)
Theorem adx_never_raises (data : list CandlestickData) (period : positive) :
  exists res,
    calculateADX data period = Ok res
    /\ length res = length data - Pos.to_nat period
    /\ forall k, k < length res ->
         exists c v,
           nth_error data (k + Pos.to_nat period) = Some c
           /\ nth_error res k = Some (mkPoint (timestamp c) v).
Proof. exact (calculateADX_spec data period). Qed.

Lemma fin_zero (q : Q) : (q == 0)%Q -> fin q = Fin 0.
Proof.
  intros H. unfold fin. f_equal. change 0%Q with (Qred 0).
  apply Qred_complete. assumption.
Qed.

Lemma sub_zero (x y : Q) : (x == y)%Q -> (Fin x - Fin y)%js = Fin 0.
Proof.
  intros H. unfold JS.sub, JS.neg, JS.add. apply fin_zero. rewrite H. lra.
Qed.

Lemma sum_zeros (l : list number) : Forall (eq (Fin 0)) l -> JS.sum l = Fin 0.
Proof.
  unfold JS.sum. induction 1 as [|x l Hx Hl IH]; [reflexivity|].
  subst x. cbn [fold_left]. exact IH.
Qed.

Lemma windowAvg_zeros (xs : list number) (period : positive) (i : nat) :
  Forall (eq (Fin 0)) xs -> windowAvg xs period i = Fin 0.
Proof.
  intros H. unfold windowAvg. rewrite sum_zeros by (apply Forall_slice; assumption).
  unfold JS.div, of_pos.
  assert (Hq : Qis0 (inject_Z (Zpos period)) = false)
    by (apply Qis0_false, pos_nonzero).
  rewrite Hq. apply fin_zero. field. apply pos_nonzero.
Qed.

(** A candle whose high, low and close all equal [c]. *)
Definition flatAt (c : Q) (d : CandlestickData) : Prop :=
  (high d == c)%Q /\ (low d == c)%Q /\ (close d == c)%Q.

Lemma directionalMovements_flat (data : list CandlestickData) (c : Q) :
  Forall (flatAt c) data ->
  exists trs pdm mdm,
    directionalMovements data = Ok (trs, pdm, mdm)
    /\ length trs = length data - 1
    /\ Forall (eq (Fin 0)) trs /\ Forall (eq (Fin 0)) pdm /\ Forall (eq (Fin 0)) mdm.
Proof.
  intros Hflat. unfold directionalMovements.
  destruct (Nat.le_gt_cases 1 (length data)) as [H|H].
  - match goal with |- context [for_range 1 _ ?b ?s] =>
      destruct (@for_range_inv _
        (fun i st =>
           length (fst (fst st)) = i - 1
           /\ Forall (eq (Fin 0)) (fst (fst st))
           /\ Forall (eq (Fin 0)) (snd (fst st))
           /\ Forall (eq (Fin 0)) (snd st))
        b 1 (length data) s H) as [[[t pd] md] [E [Hl [Ht [Hp Hm]]]]]
    end.
    + cbn. repeat split; constructor.
    + intros j [[t pd] md] Hj [Hl [Ht [Hp Hm]]]. cbn [fst snd] in *.
      destruct (@get_ok _ data j) as [cj [Ej Nj]]; [lia|].
      destruct (@get_ok _ data (j - 1)) as [cp [Ep Np]]; [lia|].
      rewrite Ej, Ep. cbn [JS.bind].
      rewrite Forall_forall in Hflat.
      destruct (Hflat cj (nth_error_In _ _ Nj)) as [Hh [Hlo Hc]].
      destruct (Hflat cp (nth_error_In _ _ Np)) as [Hh' [Hlo' Hc']].
      assert (Etr : trueRange cj (close cp) = Fin 0).
      { unfold trueRange.
        rewrite !sub_zero by (rewrite ?Hh, ?Hlo, ?Hc'; reflexivity). reflexivity. }
      rewrite Etr.
      rewrite !sub_zero by (rewrite ?Hh, ?Hlo, ?Hh', ?Hlo'; reflexivity).
      eexists. split; [reflexivity|]. cbn [fst snd].
      rewrite length_app. cbn [length]. split; [lia|].
      repeat split; apply Forall_app; (split; [assumption|]);
        constructor; try constructor; reflexivity.
    + exists t, pd, md. cbn [fst snd] in *. auto.
  - exists [], [], []. rewrite for_range_none by lia.
    split; [reflexivity|]. split; [simpl; lia|]. repeat split; constructor.
Qed.

Lemma sum_ends_NaN (l : list number) : JS.sum (l ++ [NaN]) = NaN.
Proof.
  unfold JS.sum. rewrite fold_left_app. cbn [fold_left].
  destruct (fold_left JS.add l (Fin 0)); reflexivity.
Qed.

(** X8. On a flat market -- every candle's high, low and close equal to one
    price -- the average true range is zero and [calculateADX] divides by
    it: every ADX value is [NaN], and [determineMarketRegime] then reports
    a ranging market of weak strength. *)
Theorem adx_of_flat_market (data : list CandlestickData) (period : positive) (c : Q) :
  Forall (flatAt c) data ->
  exists res,
    calculateADX data period = Ok res
    /\ length res = length data - Pos.to_nat period
    /\ Forall (fun p => value p = NaN) res
    /\ determineMarketRegime res = (ranging, weak).
Proof.
  intros Hflat. pose proof (Pos2Nat.is_pos period) as Hp. unfold calculateADX.
  destruct (directionalMovements_flat data c Hflat)
    as [t [pd [md [E [Hl [Ht [Hpd Hmd]]]]]]].
  rewrite E. cbn [JS.bind].
  assert (Hregime : forall res, Forall (fun p => value p = NaN) res ->
                                determineMarketRegime res = (ranging, weak)).
  { intros res Hres. unfold determineMarketRegime, last_value, last_elem.
    destruct (nth_error res (length res - 1)) as [p|] eqn:En; [|reflexivity].
    rewrite Forall_forall in Hres. cbn [option_map].
    rewrite (Hres p (nth_error_In _ _ En)). reflexivity. }
  destruct (Nat.le_gt_cases (Pos.to_nat period - 1) (length t)) as [Hle|Hgt].
  - match goal with |- context [for_range _ _ ?b ?s] =>
      destruct (@for_range_inv _
        (fun i res =>
           length res = i - (Pos.to_nat period - 1)
           /\ Forall (fun p => value p = NaN) res)
        b (Pos.to_nat period - 1) (length t) s Hle) as [res [Er [Hlen Hnan]]]
    end.
    + cbn [length]. split; [lia|constructor].
    + intros j res Hj [Hlen Hnan].
      destruct (@get_ok _ data (j + 1)) as [cj [Ec _]]; [lia|].
      rewrite Ec. cbn [JS.bind].
      change (JS.sum (slice t (j + 1 - Pos.to_nat period) (j + 1)) / of_pos period)%js
        with (windowAvg t period j).
      change (JS.sum (slice pd (j + 1 - Pos.to_nat period) (j + 1)) / of_pos period)%js
        with (windowAvg pd period j).
      change (JS.sum (slice md (j + 1 - Pos.to_nat period) (j + 1)) / of_pos period)%js
        with (windowAvg md period j).
      rewrite !windowAvg_zeros by assumption.
      change (Fin 0 / Fin 0 * of_nat 100)%js with NaN.
      change (JS.abs (NaN - NaN) / (NaN + NaN) * of_nat 100)%js with NaN.
      destruct (Pos.to_nat period * 2 - 2 <=? j).
      * rewrite sum_ends_NaN. cbn [JS.div].
        eexists. split; [reflexivity|]. rewrite length_app. cbn [length].
        split; [lia|]. apply Forall_app. split; [assumption|].
        constructor; [reflexivity|constructor].
      * eexists. split; [reflexivity|]. rewrite length_app. cbn [length].
        split; [lia|]. apply Forall_app. split; [assumption|].
        constructor; [reflexivity|constructor].
    + exists res. split; [assumption|]. split; [lia|].
      split; [assumption|apply Hregime; assumption].
  - rewrite for_range_none by lia. exists [].
    split; [reflexivity|]. split; [simpl; lia|].
    split; [constructor|reflexivity].
Qed.

Lemma adx_of_flat_market_witness :
  exists res,
    calculateADX (flatMarket stamp) 14 = Ok res
    /\ length res = length (flatMarket stamp) - Pos.to_nat 14
    /\ Forall (fun p => value p = NaN) res
    /\ determineMarketRegime res = (ranging, weak).
Proof.
  apply (adx_of_flat_market (flatMarket stamp) 14 1.1).
  unfold flatMarket. apply Forall_map. apply Forall_forall. intros i _.
  unfold flatAt. simpl. repeat split; reflexivity.
Defined.

(** ** Pivot points and the session filter *)

Definition moderateCandle (c : CandlestickData) : bool :=
  moderate (high c) && moderate (low c) && moderate (close c).

(** X9. [calculatePivotPoints] raises on an empty sequence.  Otherwise it
    reads the last candle only, and when that candle has [low <= high] and
    moderate magnitudes, the second levels lie on either side of the pivot,
    [support2 <= pivot <= resistance2], and the first support is not above
    the first resistance. *)
Theorem pivot_levels_ordered (data : list CandlestickData) (lastCandle : CandlestickData) :
  last_elem data = Some lastCandle ->
  (low lastCandle <= high lastCandle)%Q ->
  moderateCandle lastCandle = true ->
  calculatePivotPoints [] = TypeError
  /\ exists levels,
       calculatePivotPoints data = Ok levels
       /\ (support2 levels <=? pivot levels)%js = true
       /\ (pivot levels <=? resistance2 levels)%js = true
       /\ (support1 levels <=? resistance1 levels)%js = true.
Proof.
  intros Hlast Hlh _. split; [reflexivity|].
  unfold calculatePivotPoints, get. unfold last_elem in Hlast. rewrite Hlast.
  cbn [JS.bind].
  set (h := high lastCandle) in *. set (l := low lastCandle) in *.
  set (c := close lastCandle) in *.
  set (P := ((h + l + c) / 3)%Q).
  assert (RP : represents ((Fin h + Fin l + Fin c) / of_nat 3)%js P).
  { apply represents_div; [|apply represents_Fin|].
    - repeat apply represents_add; apply represents_Fin.
    - intros H. unfold Qeq in H. simpl in H. lia. }
  destruct (represents_exists _ _ RP) as [p [Ep Hp]]. rewrite Ep.
  assert (R1 : represents (of_nat 2 * Fin p - Fin l)%js (2 * p - l)).
  { apply represents_sub; [|apply represents_Fin].
    apply represents_mul; apply represents_Fin. }
  assert (S1 : represents (of_nat 2 * Fin p - Fin h)%js (2 * p - h)).
  { apply represents_sub; [|apply represents_Fin].
    apply represents_mul; apply represents_Fin. }
  assert (R2 : represents (Fin p + (Fin h - Fin l))%js (p + (h - l))).
  { apply represents_add; [apply represents_Fin|].
    apply represents_sub; apply represents_Fin. }
  assert (S2 : represents (Fin p - (Fin h - Fin l))%js (p - (h - l))).
  { apply represents_sub; [apply represents_Fin|].
    apply represents_sub; apply represents_Fin. }
  eexists. split; [reflexivity|].
  cbn [support2 pivot resistance2 support1 resistance1].
  split; [|split].
  - apply (represents_leb _ _ _ _ S2 (represents_Fin p)). lra.
  - apply (represents_leb _ _ _ _ (represents_Fin p) R2). lra.
  - apply (represents_leb _ _ _ _ S1 R1). lra.
Qed.

Definition pivotCandle : CandlestickData :=
  mkCandle "2024-01-01 00:00:00" 1.1010 1.1050 1.1000 1.1030 1000.

Lemma pivot_levels_ordered_witness :
  calculatePivotPoints [] = TypeError
  /\ exists levels,
       calculatePivotPoints [pivotCandle] = Ok levels
       /\ (support2 levels <=? pivot levels)%js = true
       /\ (pivot levels <=? resistance2 levels)%js = true
       /\ (support1 levels <=? resistance1 levels)%js = true.
Proof.
  apply (pivot_levels_ordered [pivotCandle] pivotCandle).
  - reflexivity.
  - unfold Qle. simpl. lia.
  - vm_compute. reflexivity.
Defined.

(** X10. The three session windows of [isSessionActive] together cover
    every hour from 0 to 22: the filter is off at 23:00 UTC only. *)
Theorem session_active_except_23 (hour : nat) :
  isSessionActive hour = (hour <=? 22).
Proof.
  unfold isSessionActive.
  destruct (Nat.leb_spec 8 hour), (Nat.leb_spec hour 17), (Nat.leb_spec 13 hour),
    (Nat.leb_spec hour 22), (Nat.leb_spec hour 9); cbn; try reflexivity; lia.
Qed.

(** ** RSI on one-directional markets *)

Definition nonDecreasing (data : list CandlestickData) : Prop :=
  forall k cp ci,
    nth_error data k = Some cp -> nth_error data (S k) = Some ci ->
    (close cp <= close ci)%Q.

Definition strictlyDecreasing (data : list CandlestickData) : Prop :=
  forall k cp ci,
    nth_error data k = Some cp -> nth_error data (S k) = Some ci ->
    (close ci < close cp)%Q.

Definition pos_fin (a : number) : Prop := exists q, a = Fin q /\ (0 < q)%Q.

Lemma lossOf_rising (cp ci : Q) : (cp <= ci)%Q -> lossOf (Fin ci - Fin cp)%js = Fin 0.
Proof.
  intros H. unfold lossOf, JS.sub, JS.neg, JS.add, JS.ltb, fin.
  assert (E : Qltb (Qred (ci + - cp)) 0 = false).
  { apply Qltb_false. rewrite Qred_correct. lra. }
  rewrite E. reflexivity.
Qed.

Lemma gainOf_falling (cp ci : Q) : (ci <= cp)%Q -> gainOf (Fin ci - Fin cp)%js = Fin 0.
Proof.
  intros H. unfold gainOf, JS.gtb, JS.sub, JS.neg, JS.add, JS.ltb, fin.
  assert (E : Qltb 0 (Qred (ci + - cp)) = false).
  { apply Qltb_false. rewrite Qred_correct. lra. }
  rewrite E. reflexivity.
Qed.

Lemma lossOf_falling (cp ci : Q) : (ci < cp)%Q -> pos_fin (lossOf (Fin ci - Fin cp)%js).
Proof.
  intros H. unfold lossOf, JS.sub, JS.neg, JS.add, JS.ltb, fin, JS.abs.
  assert (E : Qltb (Qred (ci + - cp)) 0 = true).
  { apply Qltb_true. rewrite Qred_correct. lra. }
  rewrite E. eexists. split; [reflexivity|].
  apply Qltb_true in E. rewrite Qabs_neg by (apply Qlt_le_weak; assumption). lra.
Qed.

(** Every element of [gains] and [losses] comes from two adjacent candles. *)
Lemma gainsAndLosses_elements (data : list CandlestickData)
    (gains losses : list number) (P Q : number -> Prop) :
  gainsAndLosses data = Ok (gains, losses) ->
  (forall k cp ci,
      nth_error data k = Some cp -> nth_error data (S k) = Some ci ->
      P (gainOf (Fin (close ci) - Fin (close cp))%js)
      /\ Q (lossOf (Fin (close ci) - Fin (close cp))%js)) ->
  Forall P gains /\ Forall Q losses.
Proof.
  intros E HPQ.
  destruct (gainsAndLosses_spec data) as [g [l [E' [Hg [Hl Hnth]]]]].
  rewrite E in E'. inversion E'. subst g l. clear E'.
  split; apply Forall_forall; intros x Hx; apply In_nth_error in Hx;
    destruct Hx as [k Hk].
  - assert (Hlt : k < length gains) by (apply nth_error_Some; congruence).
    destruct (@get_ok _ data k) as [cp [_ Ncp]]; [lia|].
    destruct (@get_ok _ data (S k)) as [ci [_ Nci]]; [lia|].
    destruct (Hnth k cp ci Ncp Nci) as [H1 _].
    rewrite Hk in H1. inversion H1. apply (HPQ k cp ci Ncp Nci).
  - assert (Hlt : k < length losses) by (apply nth_error_Some; congruence).
    destruct (@get_ok _ data k) as [cp [_ Ncp]]; [lia|].
    destruct (@get_ok _ data (S k)) as [ci [_ Nci]]; [lia|].
    destruct (Hnth k cp ci Ncp Nci) as [_ H2].
    rewrite Hk in H2. inversion H2. apply (HPQ k cp ci Ncp Nci).
Qed.

(** X11. When no close is lower than the one before it, every point of the
    RSI series takes the [avgLoss === 0] branch and equals [100 - 100/101],
    a flat market included. *)
Theorem rsi_of_rising_market (data : list CandlestickData) (period : positive) :
  nonDecreasing data ->
  exists res,
    calculateRSI data period = Ok res
    /\ length res = length data - Pos.to_nat period
    /\ Forall (fun p => value p = rsiNoLoss) res.
Proof.
  intros Hup.
  destruct (calculateRSI_spec data period) as [g [l [res [E [Er [Hlen Hnth]]]]]].
  exists res. split; [assumption|]. split; [assumption|].
  destruct (gainsAndLosses_elements data g l (fun _ => True) (eq (Fin 0)) E) as [_ Hl].
  { intros k cp ci Hcp Hci. split; [exact I|].
    symmetry. apply lossOf_rising. apply (Hup k cp ci Hcp Hci). }
  apply Forall_forall. intros p Hin. apply In_nth_error in Hin.
  destruct Hin as [k Hk].
  assert (Hlt : k < length res) by (apply nth_error_Some; congruence).
  destruct (Hnth k Hlt) as [c [_ Hp]]. rewrite Hk in Hp. inversion Hp.
  cbn [value]. apply rsiAt_no_loss.
  rewrite windowAvg_zeros by assumption. reflexivity.
Qed.

Lemma rsi_of_rising_market_witness :
  exists res,
    calculateRSI rampMarket 14 = Ok res
    /\ length res = length rampMarket - Pos.to_nat 14
    /\ Forall (fun p => value p = rsiNoLoss) res.
Proof.
  apply (rsi_of_rising_market rampMarket 14).
  intros k cp ci Hcp Hci.
  assert (Hk : S k < 40).
  { change 40 with (length rampMarket). apply nth_error_Some. congruence. }
  unfold rampMarket in Hcp, Hci.
  rewrite nth_error_map, nth_error_seq in Hcp, Hci.
  destruct (Nat.ltb_spec k 40); [|lia]. destruct (Nat.ltb_spec (S k) 40); [|lia].
  cbn [option_map] in Hcp, Hci. inversion Hcp. inversion Hci.
  cbn [close rampCandle Nat.add]. rewrite <- Zle_Qle. lia.
Defined.

Lemma fold_add_pos (l : list number) :
  Forall pos_fin l -> forall a, pos_fin a -> pos_fin (fold_left JS.add l a).
Proof.
  induction 1 as [|x l [q [Ex Hq]] Hl IH]; intros a [qa [Ea Ha]]; cbn [fold_left].
  - exists qa. auto.
  - apply IH. subst a x. exists (Qred (qa + q)). split; [reflexivity|].
    rewrite Qred_correct. lra.
Qed.

Lemma sum_pos (l : list number) : l <> [] -> Forall pos_fin l -> pos_fin (JS.sum l).
Proof.
  intros Hne Hl. destruct l as [|x l]; [congruence|].
  inversion Hl as [|? ? [q [Ex Hq]] Hl']. subst.
  unfold JS.sum. cbn [fold_left]. apply fold_add_pos; [assumption|].
  exists (Qred (0 + q)). split; [reflexivity|]. rewrite Qred_correct. lra.
Qed.

Lemma windowAvg_pos (xs : list number) (period : positive) (i : nat) :
  Forall pos_fin xs -> i < length xs -> pos_fin (windowAvg xs period i).
Proof.
  intros H Hi. unfold windowAvg. pose proof (Pos2Nat.is_pos period) as Hp.
  destruct (sum_pos (slice xs (i + 1 - Pos.to_nat period) (i + 1))) as [q [E Hq]].
  - intros Hnil. apply (f_equal (@length number)) in Hnil.
    rewrite slice_length in Hnil. simpl in Hnil. lia.
  - apply Forall_slice. assumption.
  - rewrite E. unfold JS.div, of_pos.
    assert (Hz : Qis0 (inject_Z (Zpos period)) = false)
      by (apply Qis0_false, pos_nonzero).
    rewrite Hz. exists (Qred (q / inject_Z (Zpos period))).
    split; [reflexivity|]. rewrite Qred_correct.
    apply Qlt_shift_div_l; [apply inject_pos_gt0|]. lra.
Qed.

Lemma rsiAt_no_gain (gains losses : list number) (period : positive) (i : nat) :
  Forall (eq (Fin 0)) gains -> Forall pos_fin losses -> i < length losses ->
  rsiAt gains losses period i = Fin 0.
Proof.
  intros Hg Hl Hi. unfold rsiAt.
  rewrite (windowAvg_zeros gains period i Hg).
  destruct (windowAvg_pos losses period i Hl Hi) as [q [E Hq]]. rewrite E.
  assert (Hz : Qeq_bool q 0 = false).
  { destruct (Qeq_bool q 0) eqn:B; [|reflexivity].
    apply Qeq_bool_iff in B. rewrite B in Hq. exfalso. apply (Qlt_irrefl _ Hq). }
  unfold JS.eqb. rewrite Hz.
  assert (Hrs : (Fin 0 / Fin q)%js = Fin 0).
  { unfold JS.div, Qis0. rewrite Hz. apply fin_zero. unfold Qdiv. apply Qmult_0_l. }
  rewrite Hrs. reflexivity.
Qed.

Lemma all_zero_falsy (res : list TechnicalIndicator) :
  Forall (fun p => value p = Fin 0) res -> truthy_opt (last_value res) = false.
Proof.
  intros H. unfold last_value, last_elem.
  destruct (nth_error res (length res - 1)) as [p|] eqn:E; [|reflexivity].
  rewrite Forall_forall in H. cbn [option_map truthy_opt].
  rewrite (H p (nth_error_In _ _ E)). reflexivity.
Qed.

(** X12. When every close is lower than the one before it, every RSI value
    is exactly 0 -- and since both confluence engines test the latest RSI
    for truthiness, their RSI rule then contributes nothing. *)
Theorem rsi_of_falling_market (data : list CandlestickData) (period : positive) :
  strictlyDecreasing data ->
  exists res,
    calculateRSI data period = Ok res
    /\ length res = length data - Pos.to_nat period
    /\ Forall (fun p => value p = Fin 0) res
    /\ forall toFixed1 a,
         rsi a = res ->
         (forall s, ETS.rsiRule toFixed1 a s = s)
         /\ (forall s, TS.rsiRule toFixed1 a s = s).
Proof.
  intros Hdown.
  destruct (calculateRSI_spec data period) as [g [l [res [E [Er [Hlen Hnth]]]]]].
  exists res. split; [assumption|]. split; [assumption|].
  destruct (gainsAndLosses_elements data g l (eq (Fin 0)) pos_fin E) as [Hg Hl].
  { intros k cp ci Hcp Hci. pose proof (Hdown k cp ci Hcp Hci) as Hlt. split.
    - symmetry. apply gainOf_falling. apply Qlt_le_weak. assumption.
    - apply lossOf_falling. assumption. }
  assert (Hzero : Forall (fun p => value p = Fin 0) res).
  { apply Forall_forall. intros p Hin. apply In_nth_error in Hin.
    destruct Hin as [k Hk].
    assert (Hlt : k < length res) by (apply nth_error_Some; congruence).
    destruct (Hnth k Hlt) as [c [Hc Hp]]. rewrite Hk in Hp. inversion Hp.
    cbn [value]. apply rsiAt_no_gain; try assumption.
    destruct (gainsAndLosses_spec data) as [g' [l' [E' [_ [Hl' _]]]]].
    rewrite E in E'. inversion E'. subst g' l'.
    pose proof (Pos2Nat.is_pos period). lia. }
  split; [assumption|].
  intros toFixed1 a Ha. subst res.
  pose proof (all_zero_falsy _ Hzero) as Hf.
  split; intros s; [unfold ETS.rsiRule|unfold TS.rsiRule]; rewrite Hf; reflexivity.
Qed.

(** Candle [i] of a series whose close falls by one per candle. *)
Definition slideCandle (i : nat) : CandlestickData :=
  let c := inject_Z (100 - Z.of_nat i) in
  mkCandle (stamp i) c c c c 1000.

Definition slideMarket : list CandlestickData := map slideCandle (seq 0 40).

Lemma rsi_of_falling_market_witness :
  exists res,
    calculateRSI slideMarket 14 = Ok res
    /\ length res = length slideMarket - Pos.to_nat 14
    /\ Forall (fun p => value p = Fin 0) res
    /\ forall toFixed1 a,
         rsi a = res ->
         (forall s, ETS.rsiRule toFixed1 a s = s)
         /\ (forall s, TS.rsiRule toFixed1 a s = s).
Proof.
  apply (rsi_of_falling_market slideMarket 14).
  intros k cp ci Hcp Hci.
  assert (Hk : S k < 40).
  { change 40 with (length slideMarket). apply nth_error_Some. congruence. }
  unfold slideMarket in Hcp, Hci.
  rewrite nth_error_map, nth_error_seq in Hcp, Hci.
  destruct (Nat.ltb_spec k 40); [|lia]. destruct (Nat.ltb_spec (S k) 40); [|lia].
  cbn [option_map] in Hcp, Hci. inversion Hcp. inversion Hci.
  cbn [close slideCandle Nat.add]. rewrite <- Zlt_Qlt. lia.
Defined.

(** * Further properties of the strategies *)

(** ** The basic strategy *)

(** After some of the rule blocks: tallies are non-negative and sum to at
    most [w], at most [n] reasons were pushed, and a positive tally comes
    with a reason. *)
Definition basicInv (n : nat) (w : Z) (s : TS.Signals) : Prop :=
  (0 <= TS.bullish s)%Z /\ (0 <= TS.bearish s)%Z
  /\ (TS.bullish s + TS.bearish s <= w)%Z
  /\ length (TS.reasons s) <= n
  /\ ((0 < TS.bullish s + TS.bearish s)%Z -> 1 <= length (TS.reasons s)).

Ltac basic_inv_rule :=
  intros [Hb [Hs [Hw [Hn Hr]]]];
  unfold basicInv, TS.addBullish, TS.addBearish in *;
  repeat match goal with
         | |- context [if ?c then _ else _] => destruct c
         end;
  cbn [TS.bullish TS.bearish TS.reasons];
  rewrite ?length_app; cbn [length];
  repeat split; try lia; intros; try lia; auto.

Lemma movingAverageRule_inv analysis price n w s :
  basicInv n w s -> basicInv (S n) (w + 2) (TS.movingAverageRule analysis price s).
Proof. unfold TS.movingAverageRule. basic_inv_rule. Qed.

Lemma basic_emaRule_inv analysis n w s :
  basicInv n w s -> basicInv (S n) (w + 1) (TS.emaRule analysis s).
Proof. unfold TS.emaRule. basic_inv_rule. Qed.

Lemma basic_rsiRule_inv tf analysis n w s :
  basicInv n w s -> basicInv (S n) (w + 2) (TS.rsiRule tf analysis s).
Proof. unfold TS.rsiRule. basic_inv_rule. Qed.

Lemma basic_macdRule_inv analysis n w s :
  basicInv n w s -> basicInv (S n) (w + 1) (TS.macdRule analysis s).
Proof. unfold TS.macdRule. basic_inv_rule. Qed.

Lemma bollingerRule_inv analysis price n w s :
  basicInv n w s -> basicInv (S n) (w + 2) (TS.bollingerRule analysis price s).
Proof. unfold TS.bollingerRule. basic_inv_rule. Qed.

Lemma analyzeIndicators_inv tf analysis price :
  basicInv 5 8 (TS.analyzeIndicators tf analysis price).
Proof.
  unfold TS.analyzeIndicators.
  apply (bollingerRule_inv analysis price 4 6).
  apply (basic_macdRule_inv analysis 3 5).
  apply (basic_rsiRule_inv tf analysis 2 3).
  apply (basic_emaRule_inv analysis 1 2).
  apply (movingAverageRule_inv analysis price 0 0).
  unfold basicInv. cbn. repeat split; lia.
Qed.

(** X13. In the basic engine each of the five rule blocks fires at most
    once: at most five reasons, tallies that are non-negative and sum to at
    most 8.  The confidence is 0 exactly when no rule fired, and otherwise
    lies between 55 and 100. *)
Theorem basic_confidence_zero_or_high (toFixed1 : number -> string)
    (analysis : AnalysisResult) (currentPrice : number) :
  let s := TS.analyzeIndicators toFixed1 analysis currentPrice in
  length (TS.reasons s) <= 5
  /\ (0 <= TS.bullish s)%Z /\ (0 <= TS.bearish s)%Z
  /\ (TS.bullish s + TS.bearish s <= 8)%Z
  /\ exists q,
       TS.calculateConfidence s = Fin q
       /\ ((TS.bullish s = 0%Z /\ TS.bearish s = 0%Z /\ (q == 0)%Q)
           \/ ((0 < TS.bullish s + TS.bearish s)%Z /\ (55 <= q <= 100)%Q)).
Proof.
  cbv zeta.
  destruct (analyzeIndicators_inv toFixed1 analysis currentPrice)
    as [Hb [Hs [Hw [Hn Hr]]]].
  set (s := TS.analyzeIndicators toFixed1 analysis currentPrice) in *.
  split; [assumption|]. split; [assumption|]. split; [assumption|].
  split; [assumption|].
  unfold TS.calculateConfidence.
  destruct (Z.eqb_spec (TS.bullish s + TS.bearish s) 0) as [E|E].
  - exists 0%Q. split; [reflexivity|]. left.
    split; [lia|]. split; [lia|reflexivity].
  - set (t := (TS.bullish s + TS.bearish s)%Z) in *.
    set (m := Z.max (TS.bullish s) (TS.bearish s)).
    set (n := length (TS.reasons s)) in *.
    assert (R : represents
                  (JS.min (of_Z m / of_Z t * of_nat 100
                           + JS.min (of_nat n * of_nat 5) (of_nat 20))%js (of_nat 100))
                  (Qmin (inject_Z m / inject_Z t * 100
                         + Qmin (inject_Z (Z.of_nat n) * 5) 20) 100)).
    { apply represents_min; [|apply represents_Fin].
      apply represents_add.
      - apply represents_mul; [|apply represents_Fin].
        apply represents_div; [apply represents_of_Z|apply represents_of_Z|].
        apply inject_Z_nonzero. assumption.
      - apply represents_min; [|apply represents_Fin].
        apply represents_mul; [apply represents_of_nat|apply represents_Fin]. }
    destruct (represents_exists _ _ R) as [q [Eq Hq]].
    exists q. split; [assumption|]. right. split; [lia|]. rewrite Hq.
    assert (Hratio : (50 <= inject_Z m / inject_Z t * 100 <= 100)%Q)
      by (apply inject_Z_ratio; subst t m; lia).
    assert (Hn1 : (1 <= inject_Z (Z.of_nat n))%Q).
    { assert (1 <= n) by (apply Hr; lia).
      change 1%Q with (inject_Z 1). rewrite <- Zle_Qle. lia. }
    split.
    + apply Q.min_glb; [|lra].
      assert (5 <= Qmin (inject_Z (Z.of_nat n) * 5) 20)%Q
        by (apply Q.min_glb; lra).
      lra.
    + apply Q.le_min_r.
Qed.

(** X14. [generateSignal] raises on an empty sequence and on no other.  A
    HOLD signal carries neither stop-loss nor take-profit; for a
    configuration with positive [stopLossPoints] and [takeProfitRatio], a
    BUY never has its stop-loss above the price or its take-profit below
    it, [stopLoss <= price <= takeProfit], and a SELL the reverse. *)
Theorem basic_signal_targets (toFixed1 : number -> string) (config : TS.StrategyConfig)
    (data : list CandlestickData) (analysis : AnalysisResult)
    (lastCandle : CandlestickData) (points ratio : Q) :
  last_elem data = Some lastCandle ->
  TS.stopLossPoints config = Fin points -> (0 < points)%Q ->
  TS.takeProfitRatio config = Fin ratio -> (0 < ratio)%Q ->
  TS.generateSignal toFixed1 config [] analysis = TypeError
  /\ exists sig,
       TS.generateSignal toFixed1 config data analysis = Ok sig
       /\ TS.price sig = Fin (close lastCandle)
       /\ match TS.signal sig with
          | TS.HOLD => TS.stopLoss sig = None /\ TS.takeProfit sig = None
          | TS.BUY =>
              exists sl tp,
                TS.stopLoss sig = Some sl /\ TS.takeProfit sig = Some tp
                /\ (sl <=? TS.price sig)%js = true
                /\ (TS.price sig <=? tp)%js = true
          | TS.SELL =>
              exists sl tp,
                TS.stopLoss sig = Some sl /\ TS.takeProfit sig = Some tp
                /\ (tp <=? TS.price sig)%js = true
                /\ (TS.price sig <=? sl)%js = true
          end.
Proof.
  intros Hlast Hpts Hpos Hratio Hrpos. split; [reflexivity|].
  unfold TS.generateSignal, get. unfold last_elem in Hlast. rewrite Hlast.
  cbn [JS.bind]. eexists. split; [reflexivity|].
  cbn [TS.price TS.signal TS.stopLoss TS.takeProfit]. split; [reflexivity|].
  rewrite Hpts, Hratio.
  set (p := close lastCandle).
  destruct (TS.determineSignal _ _ _).
  - unfold JS.sub, JS.neg, JS.mul, JS.add, fin.
    do 2 eexists. split; [reflexivity|]. split; [reflexivity|].
    split; apply Qle_leb; rewrite !Qred_correct; nra.
  - unfold JS.sub, JS.neg, JS.mul, JS.add, fin.
    do 2 eexists. split; [reflexivity|]. split; [reflexivity|].
    split; apply Qle_leb; rewrite !Qred_correct; nra.
  - split; reflexivity.
Qed.

(** An analysis whose only evidence is an oversold RSI: the signal is BUY. *)
Definition oversoldAnalysis : AnalysisResult :=
  mkAnalysis [] [] [] [] [mkPoint "2024-01-01 00:00:00" (Fin 20)]
             (mkMACD [] [] []) (mkBB [] [] []) [] [].

Lemma basic_signal_targets_witness :
  TS.generateSignal (fun _ => EmptyString) TS.defaultConfig [] oversoldAnalysis = TypeError
  /\ exists sig,
       TS.generateSignal (fun _ => EmptyString) TS.defaultConfig [pivotCandle]
         oversoldAnalysis = Ok sig
       /\ TS.price sig = Fin (close pivotCandle)
       /\ match TS.signal sig with
          | TS.HOLD => TS.stopLoss sig = None /\ TS.takeProfit sig = None
          | TS.BUY =>
              exists sl tp,
                TS.stopLoss sig = Some sl /\ TS.takeProfit sig = Some tp
                /\ (sl <=? TS.price sig)%js = true
                /\ (TS.price sig <=? tp)%js = true
          | TS.SELL =>
              exists sl tp,
                TS.stopLoss sig = Some sl /\ TS.takeProfit sig = Some tp
                /\ (tp <=? TS.price sig)%js = true
                /\ (TS.price sig <=? sl)%js = true
          end.
Proof.
  apply (basic_signal_targets (fun _ => EmptyString) TS.defaultConfig [pivotCandle]
           oversoldAnalysis pivotCandle 50 2).
  - reflexivity.
  - reflexivity.
  - reflexivity.
  - reflexivity.
  - reflexivity.
Defined.

(** ** The enhanced strategy *)

(** X15. Whatever its inputs, [analyzeAdvancedConfluence] returns
    non-negative tallies, a confluence score of at least their sum minus 1,
    and a confidence between 48 and 95 that is at least 60 once the
    confluence score reaches 5. *)
Theorem enhanced_confidence_floor (toFixed1 : number -> string)
    (data : list CandlestickData) (analysis : AnalysisResult)
    (advancedAnalysis : AdvancedAnalysisResult) (currentPrice : number)
    (fvgs : list ETS.FairValueGap) (orderBlocks : list ETS.OrderBlock)
    (liquidityZones : list ETS.LiquidityZone) (volumeProfile : Level)
    (microstructure : ETS.Microstructure) :
  let c := ETS.analyzeAdvancedConfluence toFixed1 data analysis advancedAnalysis
             currentPrice fvgs orderBlocks liquidityZones volumeProfile microstructure in
  (0 <= ETS.bullish c)%Z /\ (0 <= ETS.bearish c)%Z
  /\ (ETS.bullish c + ETS.bearish c - 1 <= ETS.confluenceScore c)%Z
  /\ exists q,
       ETS.confidence c = Fin q /\ (48 <= q <= 95)%Q
       /\ ((5 <= ETS.confluenceScore c)%Z -> (60 <= q)%Q).
Proof.
  cbv zeta. unfold ETS.analyzeAdvancedConfluence.
  cbn [ETS.bullish ETS.bearish ETS.confluenceScore ETS.confidence].
  pose proof (tally_ok toFixed1 analysis advancedAnalysis currentPrice fvgs
                orderBlocks volumeProfile microstructure) as Hok.
  destruct Hok as [Hb [Hs Hc]].
  split; [assumption|]. split; [assumption|]. split; [assumption|].
  apply confidenceOf_range. repeat split; assumption.
Qed.

Ltac tiers :=
  repeat split; intros;
  repeat match goal with H : _ \/ _ |- _ => destruct H end;
  try discriminate; try congruence;
  repeat split; try reflexivity; try lia.

(** X16. The tiers of [determineSmartMoneySignal]: a STRONG signal is
    returned only with a confluence score of at least 12, tallies at least 6
    apart and a confidence of at least 85; a plain BUY or SELL only with a
    score of at least 8, tallies at least 4 apart and a confidence of at
    least 75; and every signal other than HOLD has a score of at least 4 and
    a confidence not below [minConfidence]. *)
Theorem signal_tiers (config : ETS.EnhancedStrategyConfig) (c : ETS.Confluence)
    (advancedAnalysis : AdvancedAnalysisResult) (microstructure : ETS.Microstructure) :
  let r := ETS.determineSmartMoneySignal config c advancedAnalysis microstructure in
  let apart := Z.abs (ETS.bullish c - ETS.bearish c) in
  (r = ETS.STRONG_BUY \/ r = ETS.STRONG_SELL ->
   (12 <= ETS.confluenceScore c)%Z /\ (6 <= apart)%Z
   /\ (ETS.confidence c >=? of_nat 85)%js = true)
  /\ (r = ETS.BUY \/ r = ETS.SELL ->
      (8 <= ETS.confluenceScore c)%Z /\ (4 <= apart)%Z
      /\ (ETS.confidence c >=? of_nat 75)%js = true)
  /\ (r <> ETS.HOLD ->
      (4 <= ETS.confluenceScore c)%Z
      /\ (ETS.confidence c <? ETS.minConfidence config)%js = false).
Proof.
  cbv zeta. unfold ETS.determineSmartMoneySignal.
  destruct (ETS.confidence c <? ETS.minConfidence config)%js; [tiers|].
  destruct (Z.ltb_spec (ETS.confluenceScore c) 4) as [H4|H4]; [tiers|].
  destruct (Z.leb_spec 12 (ETS.confluenceScore c)) as [H12|H12];
    destruct (Z.leb_spec 8 (ETS.confluenceScore c)) as [H8|H8];
    destruct (Z.leb_spec 6 (Z.abs (ETS.bullish c - ETS.bearish c))) as [A6|A6];
    destruct (Z.leb_spec 4 (Z.abs (ETS.bullish c - ETS.bearish c))) as [A4|A4];
    destruct (ETS.confidence c >=? of_nat 85)%js;
    destruct (ETS.confidence c >=? of_nat 75)%js;
    destruct (Z.ltb (ETS.bearish c) (ETS.bullish c));
    destruct (Z.ltb (ETS.bullish c) (ETS.bearish c));
    cbn [andb]; tiers.
Qed.

(** *** What the structure detectors report *)

Lemma skipn_nth_error {A : Type} (l : list A) (n : nat) (x : A) :
  nth_error l n = Some x -> exists rest, skipn n l = x :: rest.
Proof.
  revert l. induction n as [|n IH]; intros l H; destruct l as [|y l]; try discriminate.
  - simpl in H. inversion H. exists l. reflexivity.
  - simpl in H. simpl. apply IH. assumption.
Qed.

(** X17. On candles with [low <= high], every gap [identifyFairValueGaps]
    returns is already marked filled: the fill scan starts at the gap's own
    third candle, whose low (for a bullish gap) is at most its high, the
    gap's lower bound. *)
Theorem fvg_always_filled (config : ETS.EnhancedStrategyConfig)
    (data : list CandlestickData) :
  Forall (fun c => (low c <= high c)%Q) data ->
  exists gaps,
    ETS.identifyFairValueGaps config data = Ok gaps
    /\ Forall (fun g => ETS.filled g = true) gaps.
Proof.
  intros Hwf.
  destruct (identifyFairValueGaps_spec config data) as [gaps [E Hg]].
  exists gaps. split; [assumption|].
  apply Forall_forall. intros g Hin.
  destruct (Hg g Hin) as [g0 [Eg [A0 _]]]. subst g.
  destruct A0 as [prev [next [_ [Hn [F0 Hb]]]]].
  rewrite (markFilled_filled data g0 F0).
  destruct (skipn_nth_error data _ next Hn) as [rest Er]. rewrite Er.
  cbn [existsb]. apply orb_true_iff. left.
  rewrite Forall_forall in Hwf.
  pose proof (Hwf next (nth_error_In _ _ Hn)) as Hle.
  unfold ETS.fillsGap. destruct (ETS.fvg_type g0).
  - destruct Hb as [_ [Hlow _]]. rewrite Hlow. apply Qle_leb. assumption.
  - destruct Hb as [Hhigh _]. rewrite Hhigh. unfold JS.geb. apply Qle_leb. assumption.
Qed.

(** Five candles with a price void between the second and the fourth. *)
Definition gapMarket : list CandlestickData :=
  [ mkCandle "00" 1.1070 1.1080 1.1060 1.1070 1000;
    mkCandle "01" 1.1060 1.1070 1.1050 1.1055 1000;
    mkCandle "02" 1.1050 1.1050 1.1020 1.1025 1000;
    mkCandle "03" 1.1015 1.1020 1.1010 1.1012 1000;
    mkCandle "04" 1.1012 1.1015 1.1005 1.1010 1000 ].

Lemma fvg_always_filled_witness :
  exists gaps,
    ETS.identifyFairValueGaps ETS.defaultConfig gapMarket = Ok gaps
    /\ Forall (fun g => ETS.filled g = true) gaps.
Proof.
  apply (fvg_always_filled ETS.defaultConfig gapMarket).
  unfold gapMarket. repeat constructor; unfold Qle; simpl; lia.
Defined.

(** X18. Every gap [identifyFairValueGaps] returns has an origin index [i]
    with [2 <= i <= n - 2], takes its bounds from candles [i - 1] and
    [i + 1], has its lower bound strictly below its upper bound, and is at
    least [fvgMinSize] wide. *)
Theorem fvg_is_a_void (config : ETS.EnhancedStrategyConfig)
    (data : list CandlestickData) :
  exists gaps,
    ETS.identifyFairValueGaps config data = Ok gaps
    /\ forall g, In g gaps ->
         2 <= ETS.fvg_index g < length data - 1
         /\ (ETS.fvg_low g <? ETS.fvg_high g)%js = true
         /\ ((ETS.fvg_high g - ETS.fvg_low g) >=? ETS.fvgMinSize config)%js = true
         /\ exists prev next,
              nth_error data (ETS.fvg_index g - 1) = Some prev
              /\ nth_error data (ETS.fvg_index g + 1) = Some next
              /\ match ETS.fvg_type g with
                 | ETS.fvg_bullish =>
                     ETS.fvg_high g = Fin (low prev) /\ ETS.fvg_low g = Fin (high next)
                 | ETS.fvg_bearish =>
                     ETS.fvg_high g = Fin (low next) /\ ETS.fvg_low g = Fin (high prev)
                 end.
Proof.
  destruct (identifyFairValueGaps_spec config data) as [gaps [E Hg]].
  exists gaps. split; [assumption|].
  intros g Hin. destruct (Hg g Hin) as [g0 [Eg [A0 R0]]].
  destruct (markFilled_fields data g0) as [T [I [H [L _]]]].
  rewrite <- Eg in T, I, H, L. rewrite T, I, H, L.
  split; [assumption|].
  destruct A0 as [prev [next [Hp [Hn [_ Hb]]]]].
  destruct (ETS.fvg_type g0).
  - destruct Hb as [Hh [Hl [Hgt [Hsz _]]]]. rewrite Hh, Hl.
    split; [exact Hgt|]. split; [exact Hsz|].
    exists prev, next. auto.
  - destruct Hb as [Hh [Hl [Hlt [Hsz _]]]]. rewrite Hh, Hl.
    split; [exact Hlt|]. split; [exact Hsz|].
    exists prev, next. auto.
Qed.

(** A candle whose open and close lie between its low and its high. *)
Definition wellFormed (c : CandlestickData) : Prop :=
  (low c <= open c <= high c)%Q /\ (low c <= close c <= high c)%Q.

(** X19. On well-formed candles every block [identifyOrderBlocks] returns
    has its low strictly below its high, so the body fraction in its
    strength never divides by zero; its origin index [i] satisfies
    [3 <= i <= n - 4] and its bounds are those of candle [i]. *)
Theorem order_block_has_range (config : ETS.EnhancedStrategyConfig)
    (data : list CandlestickData) :
  Forall wellFormed data ->
  exists blocks,
    ETS.identifyOrderBlocks config data = Ok blocks
    /\ forall b, In b blocks ->
         3 <= ETS.ob_index b < length data - 3
         /\ exists candle,
              nth_error data (ETS.ob_index b) = Some candle
              /\ ETS.ob_low b = Fin (low candle)
              /\ ETS.ob_high b = Fin (high candle)
              /\ (low candle < high candle)%Q.
Proof.
  intros Hwf.
  destruct (detectOrderBlocks_spec config data) as [all [E [Hall _]]].
  unfold ETS.identifyOrderBlocks. rewrite E. cbn [JS.bind].
  eexists. split; [reflexivity|].
  intros b Hin. unfold slice_last in Hin. apply In_skipn in Hin.
  rewrite Forall_forall in Hall. destruct (Hall b Hin) as [[candle Hb] Hrange].
  split; [assumption|].
  destruct Hb as [Hc [Hh [Hl [_ Ht]]]].
  exists candle. split; [assumption|]. split; [assumption|]. split; [assumption|].
  rewrite Forall_forall in Hwf.
  destruct (Hwf candle (nth_error_In _ _ Hc)) as [[Ho1 Ho2] [Hc1 Hc2]].
  destruct (ETS.ob_type b); destruct Ht as [Hcmp _];
    unfold JS.gtb, JS.ltb in Hcmp; apply Qltb_true in Hcmp; lra.
Qed.

(** Ten candles of which the seventh has a large body on heavy volume. *)
Definition blockMarket : list CandlestickData :=
  map (fun i => mkCandle (stamp i) 1.1000 1.1010 1.0990 1.1005 1000) (seq 0 6)
  ++ [mkCandle "06" 1.1000 1.1042 1.0998 1.1040 5000]
  ++ map (fun i => mkCandle (stamp i) 1.1040 1.1050 1.1030 1.1045 1000) (seq 7 4).

Lemma order_block_has_range_witness :
  exists blocks,
    ETS.identifyOrderBlocks ETS.defaultConfig blockMarket = Ok blocks
    /\ forall b, In b blocks ->
         3 <= ETS.ob_index b < length blockMarket - 3
         /\ exists candle,
              nth_error blockMarket (ETS.ob_index b) = Some candle
              /\ ETS.ob_low b = Fin (low candle)
              /\ ETS.ob_high b = Fin (high candle)
              /\ (low candle < high candle)%Q.
Proof.
  apply (order_block_has_range ETS.defaultConfig blockMarket).
  unfold blockMarket. cbn [map seq app].
  repeat constructor; unfold Qle; simpl; lia.
Defined.

(** ** The pipelines never raise on enough data *)

Lemma calculateBollingerBands_ok (sqrt : number -> number)
    (data : list CandlestickData) (period : positive) (stdDev : number) :
  exists bb, calculateBollingerBands sqrt data period stdDev = Ok bb.
Proof.
  unfold calculateBollingerBands.
  destruct (calculateSMA_spec data period) as [sma [Es _]].
  rewrite Es. cbn [JS.bind].
  match goal with |- context [for_range 0 _ ?b ?s] =>
    destruct (@for_range_inv _ (fun _ _ => True) b 0 (length sma) s (Nat.le_0_l _))
      as [bb [E _]]
  end.
  - exact I.
  - intros j bb Hj _. destruct (@get_ok _ sma j) as [x [Ex _]]; [lia|].
    rewrite Ex. cbn [JS.bind]. eexists. split; [reflexivity|exact I].
  - exists bb. assumption.
Qed.

Lemma analyzeAll_ok (sqrt : number -> number) (data : list CandlestickData) :
  26 <= length data -> exists a, analyzeAll sqrt data = Ok a.
Proof.
  intros Hn. unfold analyzeAll.
  destruct (calculateSMA_spec data 20) as [s20 [E20 _]].
  destruct (calculateSMA_spec data 50) as [s50 [E50 _]].
  destruct (calculateEMA_ok data 12) as [e12 [E12 _]];
    [change (Pos.to_nat 12) with 12; lia|].
  destruct (calculateEMA_ok data 26) as [e26 [E26 _]];
    [change (Pos.to_nat 26) with 26; lia|].
  destruct (calculateRSI_spec data 14) as [g [l [r [_ [Er _]]]]].
  destruct (calculateMACD_spec data Hn) as [e12' [e26' [m [_ [_ [Em _]]]]]].
  destruct (calculateBollingerBands_ok sqrt data 20 (of_nat 2)) as [bb Eb].
  rewrite E20, E50, E12, E26, Er, Em, Eb. cbn [JS.bind]. eexists. reflexivity.
Qed.

Lemma last_candle_ok (data : list CandlestickData) :
  1 <= length data -> exists c, get data (length data - 1) = Ok c.
Proof.
  intros H. destruct (@get_ok _ data (length data - 1)) as [c [E _]]; [lia|].
  exists c. assumption.
Qed.

Lemma advancedAnalysisOf_ok (data : list CandlestickData) (hour : nat) :
  1 <= length data ->
  exists adv, Hooks.advancedAnalysisOf data hour = Ok adv
              /\ sessionFilter adv = isSessionActive hour.
Proof.
  intros Hn. unfold Hooks.advancedAnalysisOf.
  destruct (calculateADX_spec data 14) as [adx [Ea _]].
  destruct (calculateATR_spec data 14) as [atr [Et _]].
  destruct (last_candle_ok data Hn) as [c Ec].
  rewrite Ea, Et. cbn [JS.bind]. unfold calculatePivotPoints.
  rewrite Ec. cbn [JS.bind]. eexists. split; reflexivity.
Qed.

Lemma countHigherHighs_ok (data : list CandlestickData) :
  exists n, ETS.countHigherHighs data = Ok n /\ n <= length data - 1.
Proof.
  unfold ETS.countHigherHighs.
  destruct (Nat.le_gt_cases 1 (length data)) as [H|H].
  - match goal with |- context [for_range 1 _ ?b ?s] =>
      destruct (@for_range_inv _ (fun i n => n <= i - 1) b 1 (length data) s H)
        as [n [E Hn]]
    end.
    + lia.
    + intros j n Hj Hn.
      destruct (@get_ok _ data j) as [cj [Ej _]]; [lia|].
      destruct (@get_ok _ data (j - 1)) as [cp [Ep _]]; [lia|].
      rewrite Ej, Ep. cbn [JS.bind]. eexists. split; [reflexivity|].
      destruct (_ >? _)%js; lia.
    + exists n. auto.
  - rewrite for_range_none by lia. exists 0. split; [reflexivity|lia].
Qed.

Lemma countLowerLows_ok (data : list CandlestickData) :
  exists n, ETS.countLowerLows data = Ok n /\ n <= length data - 1.
Proof.
  unfold ETS.countLowerLows.
  destruct (Nat.le_gt_cases 1 (length data)) as [H|H].
  - match goal with |- context [for_range 1 _ ?b ?s] =>
      destruct (@for_range_inv _ (fun i n => n <= i - 1) b 1 (length data) s H)
        as [n [E Hn]]
    end.
    + lia.
    + intros j n Hj Hn.
      destruct (@get_ok _ data j) as [cj [Ej _]]; [lia|].
      destruct (@get_ok _ data (j - 1)) as [cp [Ep _]]; [lia|].
      rewrite Ej, Ep. cbn [JS.bind]. eexists. split; [reflexivity|].
      destruct (_ <? _)%js; lia.
    + exists n. auto.
  - rewrite for_range_none by lia. exists 0. split; [reflexivity|lia].
Qed.

Lemma analyzeMarketMicrostructure_ok (data : list CandlestickData)
    (fvgs : list ETS.FairValueGap) (blocks : list ETS.OrderBlock) :
  1 <= length data ->
  exists ms, ETS.analyzeMarketMicrostructure data fvgs blocks = Ok ms.
Proof.
  intros Hn. unfold ETS.analyzeMarketMicrostructure.
  destruct (last_candle_ok data Hn) as [c Ec]. rewrite Ec. cbn [JS.bind].
  destruct (countHigherHighs_ok (slice_last 5 data)) as [hh [Eh _]].
  destruct (countLowerLows_ok (slice_last 5 data)) as [ll [El _]].
  rewrite Eh, El. cbn [JS.bind].
  repeat match goal with |- context [if ?b then _ else _] => destruct b end;
    eexists; reflexivity.
Qed.

Lemma generateEnhancedSignal_ok (toFixed1 : number -> string)
    (config : ETS.EnhancedStrategyConfig) (data : list CandlestickData)
    (analysis : AnalysisResult) (adv : AdvancedAnalysisResult) :
  1 <= length data ->
  exists s,
    ETS.generateEnhancedSignal toFixed1 config data analysis adv = Ok s
    /\ (exists q, ETS.es_confidence s = Fin q /\ (48 <= q <= 95)%Q)
    /\ length (ETS.fairValueGaps s) <= 8
    /\ length (ETS.orderBlocks s) <= 6
    /\ length (ETS.liquidityZones s) <= 8
    /\ ETS.sessionActive s = sessionFilter adv.
Proof.
  intros Hn. unfold ETS.generateEnhancedSignal.
  destruct (last_candle_ok data Hn) as [c Ec]. rewrite Ec. cbn [JS.bind].
  destruct (detectFairValueGaps_spec config data) as [gaps [Eg _]].
  destruct (detectOrderBlocks_spec config data) as [blocks [Eb _]].
  destruct (detectLiquidityZones_spec data) as [zones [Ez _]].
  unfold ETS.identifyFairValueGaps, ETS.identifyOrderBlocks, ETS.identifyLiquidityZones.
  rewrite Eg, Eb, Ez. cbn [JS.bind].
  match goal with |- context [ETS.analyzeMarketMicrostructure data ?f ?b] =>
    destruct (analyzeMarketMicrostructure_ok data f b Hn) as [ms Em]
  end.
  rewrite Em. cbn [JS.bind]. eexists. split; [reflexivity|].
  cbn [ETS.es_confidence ETS.fairValueGaps ETS.orderBlocks ETS.liquidityZones
       ETS.sessionActive].
  split.
  - unfold ETS.analyzeAdvancedConfluence. cbn [ETS.confidence].
    match goal with |- context [ETS.confidenceOf ?t] =>
      destruct (confidenceOf_range t) as [q [Eq [Hq _]]]
    end.
    + apply tally_ok.
    + exists q. auto.
  - rewrite !slice_last_length. repeat split; try lia.
Qed.

(** X20. [generateEnhancedSignal] raises on an empty candle sequence and on
    no other, whatever analyses it is handed; the signal it returns carries
    a confidence between 48 and 95, at most 8 gaps, 6 blocks and 8 zones,
    and the session flag of the analysis. *)
Theorem enhanced_signal_is_total (toFixed1 : number -> string)
    (config : ETS.EnhancedStrategyConfig) (analysis : AnalysisResult)
    (adv : AdvancedAnalysisResult) :
  ETS.generateEnhancedSignal toFixed1 config [] analysis adv = TypeError
  /\ forall c rest,
       exists s,
         ETS.generateEnhancedSignal toFixed1 config (c :: rest) analysis adv = Ok s
         /\ (exists q, ETS.es_confidence s = Fin q /\ (48 <= q <= 95)%Q)
         /\ length (ETS.fairValueGaps s) <= 8
         /\ length (ETS.orderBlocks s) <= 6
         /\ length (ETS.liquidityZones s) <= 8
         /\ ETS.sessionActive s = sessionFilter adv.
Proof.
  split; [reflexivity|].
  intros c rest. apply generateEnhancedSignal_ok. simpl. lia.
Qed.

(** X21. The hooks hand back nothing below their minimum lengths (100
    candles for the enhanced strategy, 50 for the basic one) and above them
    the whole pipeline runs without raising. *)
Theorem hooks_never_raise (sqrt : number -> number) (toFixed1 : number -> string)
    (data : list CandlestickData) (hour : nat) :
  (length data < 100 -> Hooks.useEnhancedTradingSignals sqrt toFixed1 data hour = None)
  /\ (100 <= length data ->
      exists s, Hooks.useEnhancedTradingSignals sqrt toFixed1 data hour = Some (Ok s)
                /\ ETS.sessionActive s = isSessionActive hour)
  /\ (length data < 50 -> Hooks.useTradingSignals sqrt toFixed1 data = None)
  /\ (50 <= length data ->
      exists s, Hooks.useTradingSignals sqrt toFixed1 data = Some (Ok s)).
Proof.
  split; [|split; [|split]].
  - intros H. unfold Hooks.useEnhancedTradingSignals.
    destruct (Nat.ltb_spec (length data) 100); [reflexivity|lia].
  - intros H. unfold Hooks.useEnhancedTradingSignals, Hooks.enhancedSignalOf.
    destruct (Nat.ltb_spec (length data) 100); [lia|].
    destruct (analyzeAll_ok sqrt data) as [a Ea]; [lia|].
    destruct (advancedAnalysisOf_ok data hour) as [adv [Eadv Hs]]; [lia|].
    rewrite Ea, Eadv. cbn [JS.bind].
    destruct (generateEnhancedSignal_ok toFixed1 ETS.defaultConfig data a adv)
      as [s [Es [_ [_ [_ [_ Hsess]]]]]]; [lia|].
    exists s. rewrite Es. split; [reflexivity|]. congruence.
  - intros H. unfold Hooks.useTradingSignals.
    destruct (Nat.ltb_spec (length data) 50); [reflexivity|lia].
  - intros H. unfold Hooks.useTradingSignals, Hooks.signalOf.
    destruct (Nat.ltb_spec (length data) 50); [lia|].
    destruct (analyzeAll_ok sqrt data) as [a Ea]; [lia|].
    rewrite Ea. cbn [JS.bind]. unfold TS.generateSignal.
    destruct (last_candle_ok data) as [c Ec]; [lia|].
    rewrite Ec. cbn [JS.bind]. eexists. reflexivity.
Qed.

(** ** Stop-loss and take-profit of the enhanced strategy *)

Lemma insertBy_In {A : Type} (cmp : A -> A -> number) (x z : A) (l : list A) :
  In z (insertBy cmp x l) -> z = x \/ In z l.
Proof.
  induction l as [|y l IH]; simpl.
  - intros [H|[]]. auto.
  - destruct (JS.ltb (cmp x y) (Fin 0)); simpl.
    + intros [H|[H|H]]; auto.
    + intros [H|H]; auto. destruct (IH H); auto.
Qed.

Lemma sortBy_In {A : Type} (cmp : A -> A -> number) (z : A) (l : list A) :
  In z (sortBy cmp l) -> In z l.
Proof.
  unfold sortBy.
  assert (H : forall acc, In z (fold_left (fun acc x => insertBy cmp x acc) l acc) ->
                          In z acc \/ In z l).
  { induction l as [|x l IH]; intros acc Hin; simpl in *; [auto|].
    destruct (IH _ Hin) as [H|H]; [|auto].
    destruct (insertBy_In cmp x z acc H); auto. }
  intros Hin. destruct (H [] Hin) as [[]|Hl]. assumption.
Qed.

Lemma hd_sorted_filter {A : Type} (cmp : A -> A -> number) (f : A -> bool)
    (l : list A) (x : A) :
  hd_error (sortBy cmp (filter f l)) = Some x -> In x l /\ f x = true.
Proof.
  intros H. apply filter_In. apply (sortBy_In cmp).
  destruct (sortBy cmp (filter f l)); [discriminate|].
  simpl in H. inversion H. left. reflexivity.
Qed.

Definition blockFinite (b : ETS.OrderBlock) : Prop :=
  exists lo hi, ETS.ob_low b = Fin lo /\ ETS.ob_high b = Fin hi /\ (lo <= hi)%Q.

Definition gapFinite (g : ETS.FairValueGap) : Prop :=
  exists lo hi, ETS.fvg_low g = Fin lo /\ ETS.fvg_high g = Fin hi.

Definition zoneFinite (z : ETS.LiquidityZone) : Prop :=
  exists q, ETS.lz_price z = Fin q.

Lemma Fin_ltb (x y : Q) : (Fin x <? Fin y)%js = true -> (x < y)%Q.
Proof. unfold JS.ltb. apply Qltb_true. Qed.

Section Targets.

Variable config : ETS.EnhancedStrategyConfig.
Variables p a m : Q.
Hypothesis atr_pos : (0 < a)%Q.
Hypothesis multiplier : ETS.atrMultiplierSL config = Fin m.
Hypothesis multiplier_pos : (0 < m)%Q.

Lemma stopLoss_below (signal : ETS.EnhancedSignalType)
    (blocks : list ETS.OrderBlock) (zones : list ETS.LiquidityZone) :
  Forall blockFinite blocks -> ETS.includesBUY signal = true ->
  exists sl,
    ETS.calculateSmartStopLoss config (Fin p) (Fin a) signal blocks zones = Some (Fin sl)
    /\ (sl < p)%Q.
Proof.
  intros Hb Hbuy.
  assert (E : ETS.calculateSmartStopLoss config (Fin p) (Fin a) signal blocks zones
              = match hd_error
                        (sortBy (fun x y => (ETS.ob_high y - ETS.ob_high x)%js)
                           (filter (fun b => ETS.isDemand b
                                             && (ETS.ob_high b <? Fin p)%js) blocks)) with
                | Some b => Some (ETS.ob_low b - Fin a * Fin 0.3)%js
                | None => Some (Fin p - Fin a * ETS.atrMultiplierSL config)%js
                end)
    by (destruct signal; try discriminate; reflexivity).
  rewrite E. clear E.
  destruct (hd_error _) as [b|] eqn:Hd.
  - apply hd_sorted_filter in Hd. destruct Hd as [Hin Hf].
    rewrite Forall_forall in Hb. destruct (Hb b Hin) as [lo [hi [El [Eh Hle]]]].
    apply andb_true_iff in Hf. destruct Hf as [_ Hlt].
    rewrite Eh in Hlt. apply Fin_ltb in Hlt. rewrite El.
    unfold JS.sub, JS.neg, JS.mul, JS.add, fin.
    eexists. split; [reflexivity|]. rewrite !Qred_correct. nra.
  - rewrite multiplier. unfold JS.sub, JS.neg, JS.mul, JS.add, fin.
    eexists. split; [reflexivity|]. rewrite !Qred_correct. nra.
Qed.

Lemma stopLoss_above (signal : ETS.EnhancedSignalType)
    (blocks : list ETS.OrderBlock) (zones : list ETS.LiquidityZone) :
  Forall blockFinite blocks ->
  ETS.includesBUY signal = false -> signal <> ETS.HOLD ->
  exists sl,
    ETS.calculateSmartStopLoss config (Fin p) (Fin a) signal blocks zones = Some (Fin sl)
    /\ (p < sl)%Q.
Proof.
  intros Hb Hsell Hnh.
  assert (E : ETS.calculateSmartStopLoss config (Fin p) (Fin a) signal blocks zones
              = match hd_error
                        (sortBy (fun x y => (ETS.ob_low x - ETS.ob_low y)%js)
                           (filter (fun b => negb (ETS.isDemand b)
                                             && (ETS.ob_low b >? Fin p)%js) blocks)) with
                | Some b => Some (ETS.ob_high b + Fin a * Fin 0.3)%js
                | None => Some (Fin p + Fin a * ETS.atrMultiplierSL config)%js
                end)
    by (destruct signal; try discriminate; try reflexivity; congruence).
  rewrite E. clear E.
  destruct (hd_error _) as [b|] eqn:Hd.
  - apply hd_sorted_filter in Hd. destruct Hd as [Hin Hf].
    rewrite Forall_forall in Hb. destruct (Hb b Hin) as [lo [hi [El [Eh Hle]]]].
    apply andb_true_iff in Hf. destruct Hf as [_ Hgt].
    rewrite El in Hgt. unfold JS.gtb in Hgt. apply Fin_ltb in Hgt. rewrite Eh.
    unfold JS.mul, JS.add, fin.
    eexists. split; [reflexivity|]. rewrite !Qred_correct. nra.
  - rewrite multiplier. unfold JS.mul, JS.add, fin.
    eexists. split; [reflexivity|]. rewrite !Qred_correct. nra.
Qed.

Lemma takeProfit_above (signal : ETS.EnhancedSignalType)
    (fvgs : list ETS.FairValueGap) (zones : list ETS.LiquidityZone) :
  Forall gapFinite fvgs -> Forall zoneFinite zones ->
  ETS.includesBUY signal = true ->
  exists tp,
    ETS.calculateSmartTakeProfit (Fin p) (Fin a) signal fvgs zones = Some (Fin tp)
    /\ (p < tp)%Q.
Proof.
  intros Hg Hz Hbuy. rewrite Forall_forall in Hg, Hz.
  assert (Hmult : exists k, (if ETS.includesSTRONG signal then Fin 2.5 else Fin 2.0)
                            = Fin k /\ (0 < k)%Q).
  { destruct (ETS.includesSTRONG signal); eexists; (split; [reflexivity|]);
      unfold Qlt; simpl; lia. }
  destruct Hmult as [k [Ek Hk]].
  assert (E : ETS.calculateSmartTakeProfit (Fin p) (Fin a) signal fvgs zones
              = match
                  hd_error
                    (sortBy (fun x y => (ETS.fvg_low x - ETS.fvg_low y)%js)
                       (filter (fun g => negb (ETS.isBullishGap g) && negb (ETS.filled g)
                                         && (ETS.fvg_low g >? Fin p)%js) fvgs)),
                  hd_error
                    (sortBy (fun x y => (ETS.lz_price x - ETS.lz_price y)%js)
                       (filter (fun z => negb (ETS.isBuyLiquidity z) && negb (ETS.swept z)
                                         && (ETS.lz_price z >? Fin p)%js) zones))
                with
                | Some g, None => Some (ETS.fvg_low g)
                | Some g, Some z =>
                    if (ETS.fvg_low g <? ETS.lz_price z)%js
                    then Some (ETS.fvg_low g) else Some (ETS.lz_price z)
                | None, Some z => Some (ETS.lz_price z)
                | None, None =>
                    Some (Fin p + Fin a * (if ETS.includesSTRONG signal
                                           then Fin 2.5 else Fin 2.0))%js
                end)
    by (destruct signal; try discriminate; reflexivity).
  rewrite E. clear E.
  destruct (hd_error (sortBy _ (filter _ fvgs))) as [g|] eqn:Hdg;
    destruct (hd_error (sortBy _ (filter _ zones))) as [z|] eqn:Hdz.
  all: try (apply hd_sorted_filter in Hdg; destruct Hdg as [Hing Hfg];
            destruct (Hg g Hing) as [glo [ghi [Egl Egh]]];
            apply andb_true_iff in Hfg; destruct Hfg as [_ Hgp];
            rewrite Egl in Hgp; unfold JS.gtb in Hgp; apply Fin_ltb in Hgp).
  all: try (apply hd_sorted_filter in Hdz; destruct Hdz as [Hinz Hfz];
            destruct (Hz z Hinz) as [zq Ezq];
            apply andb_true_iff in Hfz; destruct Hfz as [_ Hzp];
            rewrite Ezq in Hzp; unfold JS.gtb in Hzp; apply Fin_ltb in Hzp).
  - rewrite Egl, Ezq. destruct (Fin glo <? Fin zq)%js; eexists; split;
      try reflexivity; assumption.
  - rewrite Egl. eexists; split; [reflexivity|assumption].
  - rewrite Ezq. eexists; split; [reflexivity|assumption].
  - rewrite Ek. unfold JS.mul, JS.add, fin.
    eexists. split; [reflexivity|]. rewrite !Qred_correct. nra.
Qed.

Lemma takeProfit_below (signal : ETS.EnhancedSignalType)
    (fvgs : list ETS.FairValueGap) (zones : list ETS.LiquidityZone) :
  Forall gapFinite fvgs -> Forall zoneFinite zones ->
  ETS.includesBUY signal = false -> signal <> ETS.HOLD ->
  exists tp,
    ETS.calculateSmartTakeProfit (Fin p) (Fin a) signal fvgs zones = Some (Fin tp)
    /\ (tp < p)%Q.
Proof.
  intros Hg Hz Hsell Hnh. rewrite Forall_forall in Hg, Hz.
  assert (Hmult : exists k, (if ETS.includesSTRONG signal then Fin 2.5 else Fin 2.0)
                            = Fin k /\ (0 < k)%Q).
  { destruct (ETS.includesSTRONG signal); eexists; (split; [reflexivity|]);
      unfold Qlt; simpl; lia. }
  destruct Hmult as [k [Ek Hk]].
  assert (E : ETS.calculateSmartTakeProfit (Fin p) (Fin a) signal fvgs zones
              = match
                  hd_error
                    (sortBy (fun x y => (ETS.fvg_high y - ETS.fvg_high x)%js)
                       (filter (fun g => ETS.isBullishGap g && negb (ETS.filled g)
                                         && (ETS.fvg_high g <? Fin p)%js) fvgs)),
                  hd_error
                    (sortBy (fun x y => (ETS.lz_price y - ETS.lz_price x)%js)
                       (filter (fun z => ETS.isBuyLiquidity z && negb (ETS.swept z)
                                         && (ETS.lz_price z <? Fin p)%js) zones))
                with
                | Some g, None => Some (ETS.fvg_high g)
                | Some g, Some z =>
                    if (ETS.fvg_high g >? ETS.lz_price z)%js
                    then Some (ETS.fvg_high g) else Some (ETS.lz_price z)
                | None, Some z => Some (ETS.lz_price z)
                | None, None =>
                    Some (Fin p - Fin a * (if ETS.includesSTRONG signal
                                           then Fin 2.5 else Fin 2.0))%js
                end)
    by (destruct signal; try discriminate; try reflexivity; congruence).
  rewrite E. clear E.
  destruct (hd_error (sortBy _ (filter _ fvgs))) as [g|] eqn:Hdg;
    destruct (hd_error (sortBy _ (filter _ zones))) as [z|] eqn:Hdz.
  all: try (apply hd_sorted_filter in Hdg; destruct Hdg as [Hing Hfg];
            destruct (Hg g Hing) as [glo [ghi [Egl Egh]]];
            apply andb_true_iff in Hfg; destruct Hfg as [_ Hgp];
            rewrite Egh in Hgp; apply Fin_ltb in Hgp).
  all: try (apply hd_sorted_filter in Hdz; destruct Hdz as [Hinz Hfz];
            destruct (Hz z Hinz) as [zq Ezq];
            apply andb_true_iff in Hfz; destruct Hfz as [_ Hzp];
            rewrite Ezq in Hzp; apply Fin_ltb in Hzp).
  - rewrite Egh, Ezq. destruct (Fin ghi >? Fin zq)%js; eexists; split;
      try reflexivity; assumption.
  - rewrite Egh. eexists; split; [reflexivity|assumption].
  - rewrite Ezq. eexists; split; [reflexivity|assumption].
  - rewrite Ek. unfold JS.sub, JS.neg, JS.mul, JS.add, fin.
    eexists. split; [reflexivity|]. rewrite !Qred_correct. nra.
Qed.

End Targets.

Lemma smartTargets_spec (config : ETS.EnhancedStrategyConfig)
    (p a m : Q) (signal : ETS.EnhancedSignalType)
    (blocks : list ETS.OrderBlock) (fvgs : list ETS.FairValueGap)
    (zones : list ETS.LiquidityZone) :
  (0 < a)%Q -> ETS.atrMultiplierSL config = Fin m -> (0 < m)%Q ->
  Forall blockFinite blocks -> Forall gapFinite fvgs -> Forall zoneFinite zones ->
  let sl := ETS.calculateSmartStopLoss config (Fin p) (Fin a) signal blocks zones in
  let tp := ETS.calculateSmartTakeProfit (Fin p) (Fin a) signal fvgs zones in
  match signal with
  | ETS.HOLD => sl = None /\ tp = None
  | ETS.STRONG_BUY | ETS.BUY | ETS.WEAK_BUY =>
      exists s t, sl = Some (Fin s) /\ tp = Some (Fin t) /\ (s < p < t)%Q
  | ETS.STRONG_SELL | ETS.SELL | ETS.WEAK_SELL =>
      exists s t, sl = Some (Fin s) /\ tp = Some (Fin t) /\ (t < p < s)%Q
  end.
Proof.
  intros Ha Hm Hmpos Hb Hg Hz. cbv zeta.
  destruct signal; try (split; reflexivity).
  all: match goal with |- context [ETS.calculateSmartStopLoss _ _ _ ?sg _ _] =>
         first
           [ destruct (stopLoss_below config p a m Ha Hm Hmpos sg blocks zones Hb eq_refl)
               as [s [Es Hs]];
             destruct (takeProfit_above p a Ha sg fvgs zones Hg Hz eq_refl)
               as [t [Et Ht]]
           | destruct (stopLoss_above config p a m Ha Hm Hmpos sg blocks zones Hb eq_refl
                         ltac:(discriminate)) as [s [Es Hs]];
             destruct (takeProfit_below p a Ha sg fvgs zones Hg Hz eq_refl
                         ltac:(discriminate)) as [t [Et Ht]] ];
         exists s, t; split; [exact Es|split; [exact Et|split; assumption]]
       end.
Qed.

(** X22. For a positive ATR and stop-loss multiplier, finite prices and
    blocks with [low <= high], the targets never lie on the wrong side of
    the price: a buy signal of any strength gets
    [stopLoss <= price <= takeProfit], a sell signal
    [takeProfit <= price <= stopLoss], and HOLD gets neither. *)
Theorem smart_targets_bracket_price (config : ETS.EnhancedStrategyConfig)
    (p a m : Q) (signal : ETS.EnhancedSignalType)
    (blocks : list ETS.OrderBlock) (fvgs : list ETS.FairValueGap)
    (zones : list ETS.LiquidityZone) :
  (0 < a)%Q -> ETS.atrMultiplierSL config = Fin m -> (0 < m)%Q ->
  Forall blockFinite blocks -> Forall gapFinite fvgs -> Forall zoneFinite zones ->
  let sl := ETS.calculateSmartStopLoss config (Fin p) (Fin a) signal blocks zones in
  let tp := ETS.calculateSmartTakeProfit (Fin p) (Fin a) signal fvgs zones in
  match signal with
  | ETS.HOLD => sl = None /\ tp = None
  | ETS.STRONG_BUY | ETS.BUY | ETS.WEAK_BUY =>
      exists s t, sl = Some s /\ tp = Some t
                  /\ (s <=? Fin p)%js = true /\ (Fin p <=? t)%js = true
  | ETS.STRONG_SELL | ETS.SELL | ETS.WEAK_SELL =>
      exists s t, sl = Some s /\ tp = Some t
                  /\ (t <=? Fin p)%js = true /\ (Fin p <=? s)%js = true
  end.
Proof.
  intros Ha Hm Hmpos Hb Hg Hz.
  pose proof (smartTargets_spec config p a m signal blocks fvgs zones
                Ha Hm Hmpos Hb Hg Hz) as H.
  cbv zeta in *.
  destruct signal; try exact H;
    destruct H as [s [t [Es [Et [H1 H2]]]]];
    exists (Fin s), (Fin t); (split; [exact Es|]); (split; [exact Et|]);
    split; apply Qle_leb; apply Qlt_le_weak; assumption.
Qed.

Lemma smart_targets_bracket_price_witness :
  exists s t,
    ETS.calculateSmartStopLoss ETS.defaultConfig (Fin 1.1) (Fin 0.001) ETS.BUY [] []
    = Some s
    /\ ETS.calculateSmartTakeProfit (Fin 1.1) (Fin 0.001) ETS.BUY [] [] = Some t
    /\ (s <=? Fin 1.1)%js = true /\ (Fin 1.1 <=? t)%js = true.
Proof.
  apply (smart_targets_bracket_price ETS.defaultConfig 1.1 0.001 1.2 ETS.BUY [] [] []).
  - reflexivity.
  - reflexivity.
  - reflexivity.
  - constructor.
  - constructor.
  - constructor.
Defined.

Lemma atr_or_default_positive (data : list CandlestickData) (atrSeries : list TechnicalIndicator) :
  calculateATR data 14 = Ok atrSeries ->
  exists a, or_else (last_value atrSeries) (Fin 0.001) = Fin a /\ (0 < a)%Q.
Proof.
  intros E.
  destruct (calculateATR_spec data 14) as [res [E' [_ Hnth]]].
  rewrite E in E'. inversion E'. subst res. clear E'.
  unfold last_value, last_elem.
  destruct (nth_error atrSeries (length atrSeries - 1)) as [pt|] eqn:En.
  - assert (Hlt : length atrSeries - 1 < length atrSeries)
      by (apply nth_error_Some; congruence).
    destruct (Hnth _ Hlt) as [c [q [_ [Hp Hq]]]].
    rewrite En in Hp. inversion Hp. cbn [option_map value or_else truthy].
    destruct (Qis0 q) eqn:Z; cbn [negb].
    + exists 0.001%Q. split; [reflexivity|]. unfold Qlt. simpl. lia.
    + exists q. split; [reflexivity|]. apply Qis0_false in Z.
      apply Qle_lteq in Hq. destruct Hq as [Hq|Hq]; [assumption|].
      exfalso. apply Z. symmetry. assumption.
  - exists 0.001%Q. split; [reflexivity|]. unfold Qlt. simpl. lia.
Qed.

Lemma identifyOrderBlocks_finite (config : ETS.EnhancedStrategyConfig)
    (data : list CandlestickData) :
  Forall wellFormed data ->
  exists blocks,
    ETS.identifyOrderBlocks config data = Ok blocks /\ Forall blockFinite blocks.
Proof.
  intros Hwf.
  destruct (detectOrderBlocks_spec config data) as [all [E [Hall _]]].
  unfold ETS.identifyOrderBlocks. rewrite E. cbn [JS.bind].
  eexists. split; [reflexivity|].
  apply Forall_forall. intros b Hin. unfold slice_last in Hin. apply In_skipn in Hin.
  rewrite Forall_forall in Hall. destruct (Hall b Hin) as [[candle Hb] _].
  destruct Hb as [Hc [Hh [Hl _]]].
  rewrite Forall_forall in Hwf.
  destruct (Hwf candle (nth_error_In _ _ Hc)) as [[Ho1 Ho2] _].
  exists (low candle), (high candle). split; [assumption|]. split; [assumption|]. lra.
Qed.

Lemma identifyFairValueGaps_finite (config : ETS.EnhancedStrategyConfig)
    (data : list CandlestickData) :
  exists gaps,
    ETS.identifyFairValueGaps config data = Ok gaps /\ Forall gapFinite gaps.
Proof.
  destruct (identifyFairValueGaps_spec config data) as [gaps [E Hg]].
  exists gaps. split; [assumption|].
  apply Forall_forall. intros g Hin. destruct (Hg g Hin) as [g0 [Eg [A0 _]]].
  destruct (markFilled_fields data g0) as [_ [_ [H [L _]]]].
  rewrite <- Eg in H, L. unfold gapFinite. rewrite H, L.
  destruct A0 as [prev [next [_ [_ [_ Hb]]]]].
  destruct (ETS.fvg_type g0); destruct Hb as [Hh [Hl _]]; rewrite Hh, Hl; eauto.
Qed.

Lemma identifyLiquidityZones_finite (data : list CandlestickData) :
  exists zones,
    ETS.identifyLiquidityZones data = Ok zones /\ Forall zoneFinite zones.
Proof.
  destruct (detectLiquidityZones_spec data) as [all [E [Hall _]]].
  unfold ETS.identifyLiquidityZones. rewrite E. cbn [JS.bind].
  eexists. split; [reflexivity|].
  apply Forall_forall. intros z Hin. unfold slice_last in Hin. apply In_skipn in Hin.
  rewrite Forall_forall in Hall. destruct (Hall z Hin) as [[candle Hz] _].
  destruct Hz as [_ [_ Ht]]. unfold zoneFinite.
  destruct (ETS.lz_type z); destruct Ht as [Hp _]; rewrite Hp; eauto.
Qed.

(** X23. In the enhanced pipeline, on at least 26 well-formed candles, the
    signal that comes out never has a target on the wrong side of the last
    close: [stopLoss <= price <= takeProfit] for a buy of any strength,
    [takeProfit <= price <= stopLoss] for a sell, and neither target for
    HOLD. *)
Theorem enhanced_pipeline_targets (sqrt : number -> number)
    (toFixed1 : number -> string) (data : list CandlestickData) (hour : nat)
    (lastCandle : CandlestickData) :
  Forall wellFormed data -> 26 <= length data ->
  last_elem data = Some lastCandle ->
  exists s,
    Hooks.enhancedSignalOf sqrt toFixed1 data hour = Ok s
    /\ ETS.price s = Fin (close lastCandle)
    /\ match ETS.signal s with
       | ETS.HOLD => ETS.stopLoss s = None /\ ETS.takeProfit s = None
       | ETS.STRONG_BUY | ETS.BUY | ETS.WEAK_BUY =>
           exists sl tp,
             ETS.stopLoss s = Some sl /\ ETS.takeProfit s = Some tp
             /\ (sl <=? ETS.price s)%js = true /\ (ETS.price s <=? tp)%js = true
       | ETS.STRONG_SELL | ETS.SELL | ETS.WEAK_SELL =>
           exists sl tp,
             ETS.stopLoss s = Some sl /\ ETS.takeProfit s = Some tp
             /\ (tp <=? ETS.price s)%js = true /\ (ETS.price s <=? sl)%js = true
       end.
Proof.
  intros Hwf Hn Hlast.
  unfold Hooks.enhancedSignalOf, Hooks.advancedAnalysisOf.
  destruct (analyzeAll_ok sqrt data Hn) as [an Ean]. rewrite Ean. cbn [JS.bind].
  destruct (calculateADX_spec data 14) as [adx [Ea _]].
  destruct (calculateATR_spec data 14) as [atrs [Et _]].
  assert (Hget : get data (length data - 1) = Ok lastCandle).
  { unfold get. unfold last_elem in Hlast. rewrite Hlast. reflexivity. }
  rewrite Ea, Et. cbn [JS.bind]. unfold calculatePivotPoints.
  rewrite Hget. cbn [JS.bind].
  unfold ETS.generateEnhancedSignal. rewrite Hget. cbn [JS.bind].
  cbn [AdvancedTechnicalAnalysis.atr].
  destruct (atr_or_default_positive data atrs Et) as [a [Eatr Ha]]. rewrite Eatr.
  destruct (identifyFairValueGaps_finite ETS.defaultConfig data) as [gaps [Eg Hg]].
  destruct (identifyOrderBlocks_finite ETS.defaultConfig data Hwf) as [blocks [Eb Hb]].
  destruct (identifyLiquidityZones_finite data) as [zones [Ez Hz]].
  rewrite Eg, Eb, Ez. cbn [JS.bind].
  destruct (analyzeMarketMicrostructure_ok data gaps blocks) as [ms Em]; [lia|].
  rewrite Em. cbn [JS.bind].
  eexists. split; [reflexivity|].
  cbn [ETS.price ETS.signal ETS.stopLoss ETS.takeProfit].
  split; [reflexivity|].
  match goal with |- match ?sg with _ => _ end =>
    pose proof (smartTargets_spec ETS.defaultConfig (close lastCandle) a 1.2 sg
                  blocks gaps zones Ha eq_refl eq_refl Hb Hg Hz) as H;
    cbv zeta in H; destruct sg; try exact H;
    destruct H as [sl [tp [Hsl [Htp [H1 H2]]]]];
    exists (Fin sl), (Fin tp); (split; [exact Hsl|]); (split; [exact Htp|]);
    split; apply Qle_leb; apply Qlt_le_weak; assumption
  end.
Qed.

Definition wideCandle (i : nat) : CandlestickData :=
  let c := inject_Z (Z.of_nat (i + 1)) in
  mkCandle (stamp i) c (c + 1) (c - 1) c 1000.

Definition wideMarket : list CandlestickData := map wideCandle (seq 0 30).

Lemma wideMarket_wellFormed : Forall wellFormed wideMarket.
Proof.
  unfold wideMarket. apply Forall_map. apply Forall_forall. intros i _.
  unfold wellFormed, wideCandle. cbn [open high low close]. repeat split; lra.
Qed.

Lemma enhanced_pipeline_targets_witness :
  exists s,
    Hooks.enhancedSignalOf (fun x => x) (fun _ => EmptyString) wideMarket 12 = Ok s
    /\ ETS.price s = Fin (close (wideCandle 29))
    /\ match ETS.signal s with
       | ETS.HOLD => ETS.stopLoss s = None /\ ETS.takeProfit s = None
       | ETS.STRONG_BUY | ETS.BUY | ETS.WEAK_BUY =>
           exists sl tp,
             ETS.stopLoss s = Some sl /\ ETS.takeProfit s = Some tp
             /\ (sl <=? ETS.price s)%js = true /\ (ETS.price s <=? tp)%js = true
       | ETS.STRONG_SELL | ETS.SELL | ETS.WEAK_SELL =>
           exists sl tp,
             ETS.stopLoss s = Some sl /\ ETS.takeProfit s = Some tp
             /\ (tp <=? ETS.price s)%js = true /\ (ETS.price s <=? sl)%js = true
       end.
Proof.
  apply (enhanced_pipeline_targets (fun x => x) (fun _ => EmptyString) wideMarket 12
           (wideCandle 29)).
  - exact wideMarket_wellFormed.
  - vm_compute. lia.
  - reflexivity.
Defined.

(** * Helpers, thresholds and swing detection *)

(** ** Comparisons of numbers *)

Lemma ltb_asym (a b : number) : (a <? b)%js = true -> (b <? a)%js = false.
Proof.
  destruct a as [x| | |], b as [y| | |]; cbn; try congruence.
  intros H. apply Qltb_true in H. apply Qltb_false. apply Qlt_le_weak. assumption.
Qed.

Lemma leb_not_gtb (a b : number) : (a <=? b)%js = true -> (a >? b)%js = false.
Proof.
  unfold JS.leb, JS.gtb. intros H. apply orb_true_iff in H. destruct H as [H|H].
  - apply ltb_asym. assumption.
  - destruct a as [x| | |], b as [y| | |]; cbn in *; try congruence.
    apply Qeq_bool_iff in H. apply Qltb_false. rewrite H. apply Qle_refl.
Qed.

Lemma ltb_NaN_l (a : number) : (NaN <? a)%js = false.
Proof. destruct a; reflexivity. Qed.

Lemma ltb_NaN_r (a : number) : (a <? NaN)%js = false.
Proof. destruct a; reflexivity. Qed.

Lemma leb_NaN_l (a : number) : (NaN <=? a)%js = false.
Proof. destruct a; reflexivity. Qed.

Lemma leb_NaN_r (a : number) : (a <=? NaN)%js = false.
Proof. destruct a; reflexivity. Qed.

(** ** Crossovers *)

(** The same pair of lines with the roles of fast and slow exchanged. *)
Definition swapLines (l : list number) : list number :=
  match l with
  | fast :: slow :: rest => slow :: fast :: rest
  | _ => l
  end.

Definition mirror (c : Crossover) : Crossover :=
  match c with
  | cross_bullish => cross_bearish
  | cross_bearish => cross_bullish
  | cross_none => cross_none
  end.

(** The four values [detectCrossover] compares. *)
Definition compared (current previous : list number) : list number :=
  firstn 2 current ++ firstn 2 previous.

(** X24. [detectCrossover] treats the two lines alike: exchanging fast and
    slow in both readings turns a bullish crossover into a bearish one and
    back.  It reports none when the reading has not changed, and none when
    one of the four values it compares is [NaN]. *)
Theorem crossover_is_symmetric (current previous : list number) :
  detectCrossover (swapLines current) (swapLines previous)
  = mirror (detectCrossover current previous)
  /\ detectCrossover current current = cross_none
  /\ (In NaN (compared current previous) ->
      detectCrossover current previous = cross_none).
Proof.
  unfold detectCrossover, compared, JS.geb, JS.gtb.
  split; [|split].
  - destruct current as [|cf [|cs crest]]; try reflexivity;
      destruct previous as [|pf [|ps prest]]; try reflexivity.
    cbn [swapLines length Nat.ltb Nat.leb orb].
    destruct (pf <=? ps)%js eqn:E1, (cs <? cf)%js eqn:E2,
             (ps <=? pf)%js eqn:E3, (cf <? cs)%js eqn:E4;
      cbn; try reflexivity.
    all: apply ltb_asym in E2; congruence.
  - destruct current as [|cf [|cs crest]]; try reflexivity.
    cbn [length Nat.ltb Nat.leb orb].
    destruct (cf <=? cs)%js eqn:E1.
    + pose proof (leb_not_gtb _ _ E1) as E2. unfold JS.gtb in E2. rewrite E2.
      cbn [andb]. destruct (cs <=? cf)%js eqn:E3; [|reflexivity].
      pose proof (leb_not_gtb _ _ E3) as E4. unfold JS.gtb in E4. rewrite E4.
      reflexivity.
    + cbn [andb]. destruct (cs <=? cf)%js eqn:E3; [|reflexivity].
      pose proof (leb_not_gtb _ _ E3) as E4. unfold JS.gtb in E4. rewrite E4.
      reflexivity.
  - destruct current as [|cf [|cs crest]]; try (intros; reflexivity);
      destruct previous as [|pf [|ps prest]]; try (intros; reflexivity).
    cbn [length Nat.ltb Nat.leb orb firstn app In].
    intros [H|[H|[H|[H|[]]]]]; subst;
      rewrite ?ltb_NaN_l, ?ltb_NaN_r, ?leb_NaN_l, ?leb_NaN_r, ?andb_false_r;
      reflexivity.
Qed.

(** ** Market regime and volatility *)

Lemma gtb_weaken (a : number) (x y : Q) :
  (y <= x)%Q -> (a >? Fin x)%js = true -> (a >? Fin y)%js = true.
Proof.
  unfold JS.gtb. destruct a as [q| | |]; cbn; try congruence.
  intros Hxy H. apply Qltb_true in H. apply Qltb_true. lra.
Qed.

(** X25. [determineMarketRegime] has two effective thresholds: the market is
    trending exactly when the last ADX value (0 when there is none, or when
    it is [NaN]) exceeds 20, the trend is strong exactly when it exceeds
    30, and a ranging market always has weak strength: the comparison with
    15 changes nothing. *)
Theorem market_regime_thresholds (adx : list TechnicalIndicator) :
  let currentADX := or_else (last_value adx) (Fin 0) in
  let r := determineMarketRegime adx in
  (fst r = trending <-> (currentADX >? of_nat 20)%js = true)
  /\ (snd r = strong <-> (currentADX >? of_nat 30)%js = true)
  /\ (fst r = ranging <-> snd r = weak)
  /\ determineMarketRegime [] = (ranging, weak).
Proof.
  cbv zeta. unfold determineMarketRegime.
  set (currentADX := or_else (last_value adx) (Fin 0)).
  destruct (currentADX >? of_nat 30)%js eqn:E30.
  - assert (E20 : (currentADX >? of_nat 20)%js = true).
    { revert E30. unfold of_nat. apply gtb_weaken.
      unfold Qle, inject_Z; cbn; lia. }
    cbn [fst snd]. rewrite E20.
    repeat split; intros; try reflexivity; try discriminate.
  - destruct (currentADX >? of_nat 20)%js eqn:E20.
    + cbn [fst snd]. repeat split; intros; try reflexivity; try discriminate.
    + destruct (currentADX >? of_nat 15)%js; cbn [fst snd];
        repeat split; intros; try reflexivity; try discriminate.
Qed.

Definition levelRank (l : Level) : nat :=
  match l with
  | level_low => 0
  | level_medium => 1
  | level_high => 2
  end.

Lemma or_else_zero_represents (a : Q) :
  represents (or_else (Some (Fin a)) (Fin 0)) a.
Proof.
  unfold or_else, truthy. destruct (Qis0 a) eqn:E; cbn [negb].
  - apply Qis0_true in E. unfold represents. rewrite E. reflexivity.
  - apply represents_Fin.
Qed.

Lemma atrPercent_represents (atr : list TechnicalIndicator) (a p : Q) :
  last_value atr = Some (Fin a) -> (0 < p)%Q ->
  represents (or_else (last_value atr) (Fin 0) / Fin p * of_nat 100)%js (a / p * 100).
Proof.
  intros Ha Hp. rewrite Ha.
  apply represents_mul; [|apply represents_Fin].
  apply represents_div; [apply or_else_zero_represents|apply represents_Fin|].
  intros H. rewrite H in Hp. apply (Qlt_irrefl _ Hp).
Qed.

Lemma calculateVolatility_spec (atr : list TechnicalIndicator) (a p : Q) :
  last_value atr = Some (Fin a) -> (0 < p)%Q ->
  (calculateVolatility atr (Fin p) = level_high /\ (1.5 < a / p * 100)%Q)
  \/ (calculateVolatility atr (Fin p) = level_medium
      /\ (0.8 < a / p * 100 <= 1.5)%Q)
  \/ (calculateVolatility atr (Fin p) = level_low /\ (a / p * 100 <= 0.8)%Q).
Proof.
  intros Ha Hp. pose proof (atrPercent_represents atr a p Ha Hp) as R.
  unfold calculateVolatility, JS.gtb.
  pose proof (represents_ltb (Fin 1.5) _ 1.5 _ (represents_Fin _) R) as H15.
  pose proof (represents_ltb (Fin 0.8) _ 0.8 _ (represents_Fin _) R) as H08.
  match type of H15 with (?c = true <-> _) => destruct c eqn:E15 end.
  - left. split; [reflexivity|]. apply H15. reflexivity.
  - assert (N15 : (a / p * 100 <= 1.5)%Q).
    { apply Qnot_lt_le. intros H. apply H15 in H. discriminate. }
    match type of H08 with (?c = true <-> _) => destruct c eqn:E08 end.
    + right. left. split; [reflexivity|]. split; [|assumption].
      apply H08. reflexivity.
    + right. right. split; [reflexivity|].
      apply Qnot_lt_le. intros H. apply H08 in H. discriminate.
Qed.

(** X26. [calculateVolatility] is monotone in the ATR: at one positive
    price a larger last ATR never gives a lower level.  Without any ATR
    value the level is low at every price, and at price 0 a positive ATR is
    divided by zero and reads as high volatility. *)
Theorem volatility_is_monotone (atr atr' : list TechnicalIndicator) (a a' p : Q) :
  last_value atr = Some (Fin a) -> last_value atr' = Some (Fin a') ->
  (0 < p)%Q -> (a <= a')%Q ->
  levelRank (calculateVolatility atr (Fin p))
  <= levelRank (calculateVolatility atr' (Fin p))
  /\ (forall price, calculateVolatility [] price = level_low)
  /\ ((0 < a)%Q -> calculateVolatility atr (Fin 0) = level_high).
Proof.
  intros Ha Ha' Hp Hle. split; [|split].
  - assert (Hm : (a / p * 100 <= a' / p * 100)%Q).
    { apply Qmult_le_compat_r; [|lra].
      unfold Qdiv. apply Qmult_le_compat_r; [assumption|].
      apply Qlt_le_weak. apply Qinv_lt_0_compat. assumption. }
    destruct (calculateVolatility_spec atr a p Ha Hp) as [[E H]|[[E H]|[E H]]];
      destruct (calculateVolatility_spec atr' a' p Ha' Hp) as [[E' H']|[[E' H']|[E' H']]];
      rewrite E, E'; cbn [levelRank]; try lia; exfalso; lra.
  - intros price. unfold calculateVolatility, last_value, last_elem.
    cbn [length nth_error Nat.sub option_map or_else].
    destruct price as [q| | |]; try reflexivity.
    unfold JS.div. destruct (Qis0 q); reflexivity.
  - intros Hpos. unfold calculateVolatility. rewrite Ha.
    unfold or_else, truthy.
    assert (E : Qis0 a = false).
    { apply Qis0_false. intros H. rewrite H in Hpos. apply (Qlt_irrefl _ Hpos). }
    rewrite E. cbn [negb]. unfold JS.div. cbn [Qis0 Qeq_bool].
    change (Qis0 0) with true. cbn iota. unfold sign. rewrite E.
    assert (L : Qltb 0 a = true) by (apply Qltb_true; assumption).
    rewrite L. reflexivity.
Qed.

Definition atrSeries (a : Q) : list TechnicalIndicator := [mkPoint EmptyString (Fin a)].

Lemma volatility_is_monotone_witness :
  levelRank (calculateVolatility (atrSeries 0.5) (Fin 100))
  <= levelRank (calculateVolatility (atrSeries 2) (Fin 100))
  /\ (forall price, calculateVolatility [] price = level_low)
  /\ ((0 < 0.5)%Q -> calculateVolatility (atrSeries 0.5) (Fin 0) = level_high).
Proof.
  apply (volatility_is_monotone (atrSeries 0.5) (atrSeries 2) 0.5 2 100).
  - reflexivity.
  - reflexivity.
  - reflexivity.
  - unfold Qle; cbn; lia.
Defined.

(** ** Unanimous evidence in the basic strategy *)

Lemma unanimous_confidence (s : TS.Signals) :
  (0 < Z.max (TS.bullish s) (TS.bearish s))%Z ->
  Z.min (TS.bullish s) (TS.bearish s) = 0%Z ->
  represents (TS.calculateConfidence s) 100.
Proof.
  intros Hmax Hmin. unfold TS.calculateConfidence.
  set (t := (TS.bullish s + TS.bearish s)%Z).
  set (m := Z.max (TS.bullish s) (TS.bearish s)) in *.
  assert (Etm : t = m) by (subst t m; lia).
  destruct (Z.eqb_spec t 0) as [E|E]; [lia|].
  set (n := length (TS.reasons s)).
  assert (R : represents
                (JS.min (of_Z m / of_Z t * of_nat 100
                         + JS.min (of_nat n * of_nat 5) (of_nat 20))%js (of_nat 100))
                (Qmin (inject_Z m / inject_Z t * 100
                       + Qmin (inject_Z (Z.of_nat n) * 5) 20) 100)).
  { apply represents_min; [|apply represents_Fin].
    apply represents_add.
    - apply represents_mul; [|apply represents_Fin].
      apply represents_div; [apply represents_of_Z|apply represents_of_Z|].
      apply inject_Z_nonzero. assumption.
    - apply represents_min; [|apply represents_Fin].
      apply represents_mul; [apply represents_of_nat|apply represents_Fin]. }
  destruct (represents_exists _ _ R) as [q [Eq Hq]].
  rewrite Eq. unfold represents. rewrite Hq.
  assert (Hn : (0 <= inject_Z (Z.of_nat n) * 5)%Q).
  { pose proof (inject_Z_nonneg (Z.of_nat n) (Nat2Z.is_nonneg n)). lra. }
  assert (Hb : (0 <= Qmin (inject_Z (Z.of_nat n) * 5) 20)%Q)
    by (apply Q.min_glb; lra).
  assert (Hr : (inject_Z m / inject_Z t * 100 == 100)%Q).
  { rewrite Etm. field. apply inject_Z_nonzero. lia. }
  apply Q.min_r. lra.
Qed.

(** X27. In the basic strategy unanimous evidence always decides: when only
    one side has fired, the confidence is 100 and, for any [minConfidence]
    of at most 100, the signal is that side's; with equal tallies the
    signal is HOLD whatever the confidence. *)
Theorem unanimous_evidence_decides (config : TS.StrategyConfig) (s : TS.Signals)
    (m : Q) :
  TS.minConfidence config = Fin m -> (m <= 100)%Q ->
  let c := TS.calculateConfidence s in
  ((0 < TS.bullish s)%Z -> TS.bearish s = 0%Z ->
   represents c 100 /\ TS.determineSignal config s c = TS.BUY)
  /\ ((0 < TS.bearish s)%Z -> TS.bullish s = 0%Z ->
      represents c 100 /\ TS.determineSignal config s c = TS.SELL)
  /\ (TS.bullish s = TS.bearish s ->
      forall confidence, TS.determineSignal config s confidence = TS.HOLD).
Proof.
  intros Hm Hle. cbv zeta. split; [|split].
  - intros Hb Hs.
    assert (R : represents (TS.calculateConfidence s) 100)
      by (apply unanimous_confidence; lia).
    split; [assumption|]. unfold TS.determineSignal.
    destruct (represents_exists _ _ R) as [q [Eq Hq]]. rewrite Eq, Hm.
    assert (E : (Fin q <? Fin m)%js = false).
    { cbn. apply Qltb_false. lra. }
    rewrite E. destruct (Z.ltb_spec (TS.bearish s) (TS.bullish s)); [reflexivity|lia].
  - intros Hs Hb.
    assert (R : represents (TS.calculateConfidence s) 100)
      by (apply unanimous_confidence; lia).
    split; [assumption|]. unfold TS.determineSignal.
    destruct (represents_exists _ _ R) as [q [Eq Hq]]. rewrite Eq, Hm.
    assert (E : (Fin q <? Fin m)%js = false).
    { cbn. apply Qltb_false. lra. }
    rewrite E. destruct (Z.ltb_spec (TS.bearish s) (TS.bullish s)); [lia|].
    destruct (Z.ltb_spec (TS.bullish s) (TS.bearish s)); [reflexivity|lia].
  - intros Heq confidence. unfold TS.determineSignal.
    destruct (confidence <? TS.minConfidence config)%js; [reflexivity|].
    rewrite Heq, Z.ltb_irrefl. reflexivity.
Qed.

Lemma unanimous_evidence_decides_witness :
  let s := TS.mkSignals 3 0 ["Price above SMA20 and SMA50"%string] in
  let c := TS.calculateConfidence s in
  ((0 < TS.bullish s)%Z -> TS.bearish s = 0%Z ->
   represents c 100 /\ TS.determineSignal TS.defaultConfig s c = TS.BUY)
  /\ ((0 < TS.bearish s)%Z -> TS.bullish s = 0%Z ->
      represents c 100 /\ TS.determineSignal TS.defaultConfig s c = TS.SELL)
  /\ (TS.bullish s = TS.bearish s ->
      forall confidence, TS.determineSignal TS.defaultConfig s confidence = TS.HOLD).
Proof.
  apply (unanimous_evidence_decides TS.defaultConfig
           (TS.mkSignals 3 0 ["Price above SMA20 and SMA50"%string]) 70).
  - reflexivity.
  - unfold Qle; cbn; lia.
Defined.

(** ** Volume profile *)

(** The volume a candle counts for: [volume || 1]. *)
Definition countedVolume (v : Q) : Q := if Qis0 v then 1%Q else v.

Lemma countedVolume_pos (v : Q) : (0 <= v)%Q -> (0 < countedVolume v)%Q.
Proof.
  intros H. unfold countedVolume. destruct (Qis0 v) eqn:E; [reflexivity|].
  apply Qis0_false in E. apply Qle_lteq in H. destruct H as [H|H]; [assumption|].
  exfalso. apply E. symmetry. assumption.
Qed.

Lemma volumeOr1_represents (c : CandlestickData) (v : Q) :
  (volume c == v)%Q -> represents (ETS.volumeOr1 c) (countedVolume v).
Proof.
  intros H. unfold ETS.volumeOr1, or_else, truthy, countedVolume.
  assert (E : Qis0 (volume c) = Qis0 v).
  { destruct (Qis0 v) eqn:Ev.
    - apply Qis0_true. apply Qis0_true in Ev. rewrite H. assumption.
    - apply Qis0_false. apply Qis0_false in Ev. rewrite H. assumption. }
  rewrite E. destruct (Qis0 v); cbn [negb].
  - apply represents_of_nat.
  - unfold represents. assumption.
Qed.

Lemma sum_uniform (l : list number) (w : Q) :
  Forall (fun a => represents a w) l ->
  forall acc qa, represents acc qa ->
    represents (fold_left JS.add l acc) (qa + inject_Z (Z.of_nat (length l)) * w).
Proof.
  induction 1 as [|a l Ha Hl IH]; intros acc qa Hacc.
  - cbn [fold_left length]. destruct acc; try (simpl in Hacc; tauto).
    unfold represents in *. rewrite Hacc. unfold inject_Z. cbn. lra.
  - cbn [fold_left length].
    pose proof (IH _ _ (represents_add _ _ _ _ Hacc Ha)) as R.
    destruct (fold_left JS.add l (acc + a)%js); try (simpl in R; tauto).
    unfold represents in *. rewrite R.
    rewrite Nat2Z.inj_succ. unfold Z.succ. rewrite inject_Z_plus.
    change (inject_Z 1) with 1%Q. lra.
Qed.

Lemma analyzeVolumeProfile_uniform (data : list CandlestickData) (v : Q) :
  data <> [] -> (0 <= v)%Q ->
  Forall (fun c => (volume c == v)%Q) (slice_last 10 data) ->
  ETS.analyzeVolumeProfile data = level_medium
  /\ ETS.analyzeVolumeProfile [] = level_low.
Proof.
  intros Hne Hv Hall. split; [|reflexivity].
  unfold ETS.analyzeVolumeProfile.
  set (recentData := slice_last 10 data) in *.
  set (w := countedVolume v).
  assert (Hw : (0 < w)%Q) by (apply countedVolume_pos; assumption).
  assert (Hk : 0 < length recentData).
  { unfold recentData. rewrite slice_last_length.
    destruct data; [congruence|]. cbn [length]. lia. }
  assert (Hcur : represents
                   (or_else (option_map (fun c => Fin (volume c)) (last_elem recentData))
                            (of_nat 1)) w).
  { unfold last_elem.
    destruct (nth_error recentData (length recentData - 1)) as [c|] eqn:En.
    - cbn [option_map]. apply (volumeOr1_represents c v).
      rewrite Forall_forall in Hall. apply Hall. eapply nth_error_In. exact En.
    - apply nth_error_None in En. lia. }
  assert (Havg : represents
                   (JS.sum (map ETS.volumeOr1 recentData) / of_nat (length recentData))%js
                   w).
  { set (k := inject_Z (Z.of_nat (length recentData))).
    assert (Hk0 : ~ (k == 0)%Q).
    { apply inject_Z_nonzero. lia. }
    assert (R : represents
                  (JS.sum (map ETS.volumeOr1 recentData) / of_nat (length recentData))%js
                  ((0 + k * w) / k)).
    { apply represents_div; [|apply represents_of_nat|assumption].
      unfold JS.sum, k. rewrite <- (length_map ETS.volumeOr1 recentData).
      apply sum_uniform; [|apply represents_Fin].
      apply Forall_map. eapply Forall_impl; [|exact Hall].
      intros c Hc. apply volumeOr1_represents. assumption. }
    destruct (JS.sum (map ETS.volumeOr1 recentData) / of_nat (length recentData))%js;
      try (simpl in R; tauto).
    unfold represents in *. rewrite R. field. assumption. }
  unfold JS.gtb.
  pose proof (represents_ltb _ _ _ _
                (represents_mul _ _ _ _ Havg (represents_Fin 1.3)) Hcur) as H13.
  pose proof (represents_ltb _ _ _ _
                (represents_mul _ _ _ _ Havg (represents_Fin 0.7)) Hcur) as H07.
  match type of H13 with (?c = true <-> _) => destruct c eqn:E13 end.
  - exfalso. assert (w * 1.3 < w)%Q by (apply H13; reflexivity). lra.
  - match type of H07 with (?c = true <-> _) => destruct c eqn:E07 end.
    + reflexivity.
    + assert (H : (w * 0.7 < w)%Q) by lra. apply H07 in H. discriminate.
Qed.

(** A volume that is zero, or of a magnitude between [2^-400] and [2^400]:
    ten of them sum without overflow, and their average times 0.7 or 1.3
    does not underflow. *)
Definition ordinaryVolume (v : Q) : Prop :=
  (v == 0)%Q
  \/ Qle_bool (/ maxMagnitude) v && Qle_bool v maxMagnitude = true.

(** X28. When the last ten candles (or all of them, if fewer) carry one
    volume, zero or of ordinary magnitude, [analyzeVolumeProfile] reports a
    medium profile: the last volume is neither above 1.3 times the average
    nor at most 0.7 times it.  That includes a feed without volume, whose
    zeros all count as 1.  On no data the average is [NaN] and the profile
    is low. *)
Theorem volume_profile_of_uniform_volume (data : list CandlestickData) (v : Q) :
  data <> [] -> ordinaryVolume v ->
  Forall (fun c => (volume c == v)%Q) (slice_last 10 data) ->
  ETS.analyzeVolumeProfile data = level_medium
  /\ ETS.analyzeVolumeProfile [] = level_low.
Proof.
  intros Hne Hv Hall. apply (analyzeVolumeProfile_uniform data v); try assumption.
  destruct Hv as [Hv|Hv].
  - rewrite Hv. apply Qle_refl.
  - apply andb_true_iff in Hv. destruct Hv as [Hv _]. apply Qle_bool_iff in Hv.
    apply Qle_trans with (/ maxMagnitude)%Q; [|assumption].
    apply Qlt_le_weak. apply Qinv_lt_0_compat. reflexivity.
Qed.

Lemma volume_profile_of_uniform_volume_witness :
  ETS.analyzeVolumeProfile rampMarket = level_medium
  /\ ETS.analyzeVolumeProfile [] = level_low.
Proof.
  apply (volume_profile_of_uniform_volume rampMarket 1000).
  - discriminate.
  - right. vm_compute. reflexivity.
  - vm_compute. repeat constructor.
Defined.

(** ** Liquidity zones *)

Lemma In_slice {A : Type} (l : list A) (lo hi j : nat) (x : A) :
  lo <= j < hi -> nth_error l j = Some x -> In x (slice l lo hi).
Proof.
  intros Hj Hx. unfold slice. apply (nth_error_In _ (j - lo)).
  rewrite nth_error_firstn.
  destruct (Nat.ltb_spec (j - lo) (hi - lo)); [|lia].
  rewrite nth_error_skipn. replace (lo + (j - lo)) with j by lia. assumption.
Qed.

Lemma In_skipn_nth {A : Type} (l : list A) (n : nat) (x : A) :
  In x (skipn n l) <-> exists j, n <= j /\ nth_error l j = Some x.
Proof.
  split.
  - intros H. apply In_nth_error in H. destruct H as [m Hm].
    rewrite nth_error_skipn in Hm. exists (n + m). split; [lia|assumption].
  - intros [j [Hj Hx]]. apply (nth_error_In _ (j - n)).
    rewrite nth_error_skipn. replace (n + (j - n)) with j by lia. assumption.
Qed.

(** The candles within three of [i], on either side. *)
Definition neighbour (data : list CandlestickData) (i : nat) (d : CandlestickData)
  : Prop :=
  exists k, 1 <= k <= 3
            /\ (nth_error data (i - k) = Some d \/ nth_error data (i + k) = Some d).

(** What [identifyLiquidityZones] records of a swing at candle [i]. *)
Definition swingAt (data : list CandlestickData) (z : ETS.LiquidityZone) : Prop :=
  exists candle,
    nth_error data (ETS.lz_index z) = Some candle
    /\ match ETS.lz_type z with
       | ETS.sell_liquidity =>
           ETS.lz_price z = Fin (high candle)
           /\ (forall d, neighbour data (ETS.lz_index z) d -> (high d < high candle)%Q)
           /\ (ETS.swept z = true
               <-> exists j d, ETS.lz_index z + 4 <= j
                               /\ nth_error data j = Some d
                               /\ (high candle < high d)%Q)
       | ETS.buy_liquidity =>
           ETS.lz_price z = Fin (low candle)
           /\ (forall d, neighbour data (ETS.lz_index z) d -> (low candle < low d)%Q)
           /\ (ETS.swept z = true
               <-> exists j d, ETS.lz_index z + 4 <= j
                               /\ nth_error data j = Some d
                               /\ (low d < low candle)%Q)
       end.

Lemma swing_neighbours (data : list CandlestickData) (i : nat)
    (f : CandlestickData -> bool) :
  3 <= i ->
  forallb f (slice data (i - 3) i) && forallb f (slice data (i + 1) (i + 4)) = true ->
  forall d, neighbour data i d -> f d = true.
Proof.
  intros Hi H d [k [Hk Hd]]. apply andb_true_iff in H. destruct H as [Hl Hr].
  rewrite forallb_forall in Hl, Hr. destruct Hd as [Hd|Hd].
  - apply Hl. apply (In_slice data (i - 3) i (i - k)); [lia|assumption].
  - apply Hr. apply (In_slice data (i + 1) (i + 4) (i + k)); [lia|assumption].
Qed.

Lemma sweep_is_late (data : list CandlestickData) (i : nat)
    (beyond : CandlestickData -> bool) :
  (forall d, neighbour data i d -> beyond d = false) ->
  (existsb beyond (skipn (i + 1) data) = true
   <-> exists j d, i + 4 <= j /\ nth_error data j = Some d /\ beyond d = true).
Proof.
  intros Hn. rewrite existsb_exists. split.
  - intros [d [Hin Hd]]. apply In_skipn_nth in Hin. destruct Hin as [j [Hj Hx]].
    exists j, d. split; [|split; assumption].
    destruct (Nat.le_gt_cases (i + 4) j) as [H|H]; [assumption|].
    exfalso. assert (Hb : beyond d = false).
    { apply Hn. exists (j - i). split; [lia|]. right.
      replace (i + (j - i)) with j by lia. assumption. }
    congruence.
  - intros [j [d [Hj [Hx Hd]]]]. exists d. split; [|assumption].
    apply In_skipn_nth. exists j. split; [lia|assumption].
Qed.

Lemma detectLiquidityZones_swing (data : list CandlestickData) :
  exists zones,
    ETS.detectLiquidityZones data = Ok zones
    /\ Forall (fun z => swingAt data z
                        /\ 3 <= ETS.lz_index z < length data - 3) zones
    /\ StronglySorted le (map ETS.lz_index zones).
Proof.
  unfold ETS.detectLiquidityZones. apply for_range_collect.
  intros i res Hi.
  destruct (@get_ok _ data i) as [candle [Ec Nc]]; [lia|].
  rewrite Ec. cbn [JS.bind].
  destruct (calculateLiquidityStrength_ok data i ETS.ext_high) as [vh Eh]; [lia|].
  destruct (calculateLiquidityStrength_ok data i ETS.ext_low) as [vl El]; [lia|].
  rewrite Eh, El.
  assert (Hhigh :
            forallb (fun c => (Fin (high c) <? Fin (high candle))%js) (slice data (i - 3) i)
            && forallb (fun c => (Fin (high c) <? Fin (high candle))%js)
                       (slice data (i + 1) (i + 4)) = true ->
            swingAt data
              (ETS.mkZone ETS.sell_liquidity (Fin (high candle)) vh i
                 (existsb (fun d => (Fin (high d) >? Fin (high candle))%js)
                          (skipn (i + 1) data)))).
  { intros Hs. exists candle. cbn [ETS.lz_index ETS.lz_type ETS.lz_price ETS.swept].
    split; [assumption|]. split; [reflexivity|].
    pose proof (swing_neighbours data i _ (proj1 Hi) Hs) as Hn. split.
    - intros d Hd. apply Fin_ltb. apply Hn. assumption.
    - rewrite sweep_is_late.
      + split; intros [j [d [Hj [Hx Hd]]]]; exists j, d; (split; [assumption|]);
          (split; [assumption|]).
        * apply Fin_ltb. assumption.
        * unfold JS.gtb. cbn. apply Qltb_true. assumption.
      + intros d Hd. unfold JS.gtb. apply ltb_asym. apply Hn. assumption. }
  assert (Hlow :
            forallb (fun c => (Fin (low c) >? Fin (low candle))%js) (slice data (i - 3) i)
            && forallb (fun c => (Fin (low c) >? Fin (low candle))%js)
                       (slice data (i + 1) (i + 4)) = true ->
            swingAt data
              (ETS.mkZone ETS.buy_liquidity (Fin (low candle)) vl i
                 (existsb (fun d => (Fin (low d) <? Fin (low candle))%js)
                          (skipn (i + 1) data)))).
  { intros Hs. exists candle. cbn [ETS.lz_index ETS.lz_type ETS.lz_price ETS.swept].
    split; [assumption|]. split; [reflexivity|].
    pose proof (swing_neighbours data i _ (proj1 Hi) Hs) as Hn. split.
    - intros d Hd. apply Fin_ltb. apply (Hn d Hd).
    - rewrite sweep_is_late.
      + split; intros [j [d [Hj [Hx Hd]]]]; exists j, d; (split; [assumption|]);
          (split; [assumption|]).
        * apply Fin_ltb. assumption.
        * cbn. apply Qltb_true. assumption.
      + intros d Hd. apply ltb_asym. apply (Hn d Hd). }
  match goal with |- context [if ?c then _ else Ok res] => destruct c eqn:Sh end;
    cbn [JS.bind];
    match goal with |- context [if ?c then _ else _] => destruct c eqn:Sl end;
    cbn [JS.bind].
  all: try (exists []; rewrite app_nil_r; split; [reflexivity|constructor]).
  all: try (rewrite <- app_assoc; cbn [app]).
  all: eexists; (split; [reflexivity|]).
  all: repeat (constructor; [split; [auto|reflexivity]|]).
  all: constructor.
Qed.

(** X29. Every zone [identifyLiquidityZones] returns sits on a strict
    swing: at an index [i] with [3 <= i < n - 3], priced at candle [i]'s
    high (sell side) or low (buy side), which lies strictly beyond that of
    each of the three candles on either side.  Hence the zone is marked
    swept exactly when a candle at least four places later goes beyond its
    price. *)
Theorem liquidity_zone_is_a_swing (data : list CandlestickData) :
  exists zones,
    ETS.identifyLiquidityZones data = Ok zones
    /\ forall z, In z zones ->
         3 <= ETS.lz_index z < length data - 3 /\ swingAt data z.
Proof.
  destruct (detectLiquidityZones_swing data) as [all [E [Hall _]]].
  unfold ETS.identifyLiquidityZones. rewrite E. cbn [JS.bind].
  eexists. split; [reflexivity|].
  intros z Hin. unfold slice_last in Hin. apply In_skipn in Hin.
  rewrite Forall_forall in Hall. destruct (Hall z Hin) as [Hs Hi].
  split; assumption.
Qed.
